(** * The abstract extraction engine of [abstract_extractor.py]

    A shallow embedding of class [AbstractExtractor] and of the parts of the
    Python runtime it calls ([str] methods, the [re] module, [json.loads]),
    followed by the properties of the pipeline
    candidates -> normalisation -> quality filter -> deduplication -> selection.

    Strings are lists of code points. The regular expressions of the source
    are values of a syntax of patterns, run by a backtracking matcher that
    tries the alternatives in the order in which [re] tries them. A method
    returns a value or raises an exception, and returns what it prints
    alongside. The Unicode tables and [json.loads] are parameters of the
    development; the examples run on ASCII tables and a small JSON parser. *)

From Stdlib Require Import ZArith NArith Lia Ascii.
From stdpp Require Import base option list strings gmap sets sorting.

Local Open Scope N_scope.

(** ** Python strings

    A Python [str] is a sequence of Unicode code points; a code point is a
    number, a string a list of them, and [len] counts code points. *)

Abbreviation char := N (only parsing).
Abbreviation pystr := (list N) (only parsing).

Fixpoint str (s : string) : pystr :=
  match s with
  | EmptyString => []
  | String a s' => Ascii.N_of_ascii a :: str s'
  end.

(** Python integers are unbounded: lengths and counts are in [Z]. *)
Definition len {A} (l : list A) : Z := Z.of_nat (length l).

(** The double quote, kept apart from the string literals of this file. *)
Definition dq : char := 34.

(** [Py_UNICODE_ISSPACE]: the characters that [str.split()], [str.strip()]
    and the class [\s] of a [str] pattern treat as whitespace. *)
Definition isspace (c : char) : bool :=
  ((0x09 <=? c) && (c <=? 0x0D)) || ((0x1C <=? c) && (c <=? 0x20))
  || (c =? 0x85) || (c =? 0xA0) || (c =? 0x1680)
  || ((0x2000 <=? c) && (c <=? 0x200A))
  || (c =? 0x2028) || (c =? 0x2029) || (c =? 0x202F) || (c =? 0x205F)
  || (c =? 0x3000).

(** [s.split()]: the maximal runs of non-whitespace characters. The word
    being read is accumulated in reverse in [w]. *)
Fixpoint str_split_from (w : pystr) (s : pystr) : list pystr :=
  match s with
  | [] => match w with [] => [] | _ => [rev w] end
  | c :: s' =>
      if isspace c
      then match w with
           | [] => str_split_from [] s'
           | _ => rev w :: str_split_from [] s'
           end
      else str_split_from (c :: w) s'
  end.

Definition str_split (s : pystr) : list pystr := str_split_from [] s.

(** [s.strip()]. *)
Fixpoint str_lstrip (s : pystr) : pystr :=
  match s with
  | c :: s' => if isspace c then str_lstrip s' else s
  | [] => []
  end.

Definition str_rstrip (s : pystr) : pystr :=
  foldr (fun c acc => match acc with
                      | [] => if isspace c then [] else [c]
                      | _ => c :: acc
                      end) [] s.

Definition str_strip (s : pystr) : pystr := str_rstrip (str_lstrip s).

(** [s.startswith(p)], returning what follows the prefix. *)
Fixpoint strip_prefix (p s : pystr) : option pystr :=
  match p, s with
  | [], _ => Some s
  | a :: p', b :: s' => if a =? b then strip_prefix p' s' else None
  | _ :: _, [] => None
  end.

(** [s.replace(old, new)] for a non-empty [old]: the occurrences of [old]
    are replaced from left to right, without overlap. [skip] counts the
    characters of an occurrence that remain to be passed over. *)
Fixpoint str_replace_from (old new : pystr) (skip : nat) (s : pystr) : pystr :=
  match s with
  | [] => []
  | c :: s' =>
      match skip with
      | S n => str_replace_from old new n s'
      | O => match strip_prefix old s with
             | Some _ => new ++ str_replace_from old new (pred (length old)) s'
             | None => c :: str_replace_from old new 0 s'
             end
      end
  end.

Definition str_replace (old new s : pystr) : pystr := str_replace_from old new 0 s.

(** ** What the runtime supplies

    The Unicode character database behind [\d], [\w] and [str.isupper], and
    [json.loads], are not part of the repository: the engine is verified for
    every such database and every parser. The whitespace of [\s],
    [str.split] and [str.strip], and the case folding of the ASCII letters
    under [re.IGNORECASE], are written out. *)

(** Values that [json.loads] returns. *)
#[warnings="-register-all"]
Inductive json : Type :=
| JNull
| JBool (b : bool)
| JNumber (n : Z)
| JString (s : pystr)
| JArray (l : list json)
| JObject (m : gmap pystr json).

(** What [json.loads] does: it returns a value, or raises
    [json.JSONDecodeError], or raises another exception ([RecursionError] on
    a document nested too deep, [ValueError] on an integer with too many
    digits). *)
Inductive loaded :=
| Loaded (v : json)
| JSONDecodeError
| OtherError.

Class Runtime := {
  (* category Nd, behind \d *)
  uni_isdecimal : char -> bool;
  (* str.isalnum, behind \w *)
  uni_isalnum : char -> bool;
  (* str.isupper of one character *)
  uni_isupper : char -> bool;
  (* json.loads *)
  json_loads : pystr -> loaded
}.

(** ** The [re] module

    The patterns of the source use literals, the classes [.], [[^c]],
    [[.!?]], [\d], [\w], [\s], the quantifiers [*], [+], [?] and [*?] on a
    single character, alternation, one capturing group with its back
    reference, a lookahead and [$]. The matcher is the backtracking matcher
    of [re]: alternatives are tried in the order of the pattern, a greedy
    quantifier tries the longest repetition first and a lazy one the
    shortest, and the first success is the match. *)

Record re_flags := { IGNORECASE : bool; DOTALL : bool }.

Definition no_flags : re_flags := {| IGNORECASE := false; DOTALL := false |}.

Inductive cset :=
| Any                      (* .     *)
| Lit (c : char)           (* c     *)
| Not (c : char)           (* [^c]  *)
| OneOf (l : list char)    (* [...] *)
| Digit                    (* \d    *)
| Word                     (* \w    *)
| Space.                   (* \s    *)

Inductive regex :=
| Eps
| Chr (cs : cset)
| Seq (r1 r2 : regex)
| Alt (r1 r2 : regex)
| Star (cs : cset)         (* cs*   *)
| LazyStar (cs : cset)     (* cs*?  *)
| Opt (cs : cset)          (* cs?   *)
| Group (r : regex)        (* (r), the only capturing group of its pattern *)
| Backref                  (* \1    *)
| Ahead (r : regex)        (* (?=r) *)
| Eos.                     (* $     *)

(** [cs+] *)
Definition Plus (cs : cset) : regex := Seq (Chr cs) (Star cs).

(** A literal string. *)
Definition lits (l : pystr) : regex :=
  foldr (fun c r => Seq (Chr (Lit c)) r) Eps l.

Definition Str (s : string) : regex := lits (str s).

(** The concatenation of a list of patterns. *)
Definition cat (l : list regex) : regex := foldr Seq Eps l.

Fixpoint has_group (r : regex) : bool :=
  match r with
  | Group _ => true
  | Seq r1 r2 | Alt r1 r2 => has_group r1 || has_group r2
  | Ahead r1 => has_group r1
  | _ => false
  end.

(** Case-insensitive matching, as [sre_compile] and [_sre] do it for a
    [str] pattern. Every letter of a pattern of this source is ASCII.
    [sre_lower] is the simple lower-case mapping; it is written out for the
    characters whose image is an ASCII letter and is the identity
    elsewhere, which decides every comparison with such a letter, with
    U+0131 and with U+017F. A cased literal [p] matches [x] when the lower
    case of [x] is the lower case of [p] or one of its equivalents ([i] and
    dotless i, [s] and long s); a literal that is not cased matches itself
    only. *)
Definition ascii_upper (c : char) : bool := (65 <=? c) && (c <=? 90).
Definition ascii_lower (c : char) : bool := (97 <=? c) && (c <=? 122).
Definition iscased (c : char) : bool := ascii_upper c || ascii_lower c.

Definition sre_lower (c : char) : char :=
  if ascii_upper c then c + 32
  else if c =? 0x130 then 105
  else if c =? 0x212A then 107
  else c.

Definition literal_ignore (p x : char) : bool :=
  if iscased p
  then let lo := sre_lower p in
       let l := sre_lower x in
       (l =? lo) || ((lo =? 105) && (l =? 0x131)) || ((lo =? 115) && (l =? 0x17F))
  else x =? p.

Definition literal (f : re_flags) (p x : char) : bool :=
  if IGNORECASE f then literal_ignore p x else x =? p.

(** The text of group 1 again, compared through [sre_lower] under
    IGNORECASE. *)
Fixpoint strip_backref (f : re_flags) (t s : pystr) : option pystr :=
  match t, s with
  | [], _ => Some s
  | a :: t', b :: s' =>
      if (if IGNORECASE f then sre_lower a =? sre_lower b else a =? b)
      then strip_backref f t' s' else None
  | _ :: _, [] => None
  end.

(** Group 1 while the matcher runs: the subject where the group opened
    and where it closed; its text is what lies between the two. *)
Abbreviation capture := (option (list N * list N)) (only parsing).

Definition group_text (g : capture) : option pystr :=
  match g with
  | Some (opened, closed) => Some (take (length opened - length closed) opened)
  | None => None
  end.

Section Regex.
Context `{Runtime}.

Definition cmatch (f : re_flags) (cs : cset) (x : char) : bool :=
  match cs with
  | Any => DOTALL f || negb (x =? 10)
  | Lit c => literal f c x
  | Not c => negb (literal f c x)
  | OneOf l => existsb (fun c => literal f c x) l
  | Digit => uni_isdecimal x
  | Word => uni_isalnum x || (x =? 95)
  | Space => isspace x
  end.

(** [cs*] followed by [k]: the longest repetition first. *)
Fixpoint star_greedy {A} (f : re_flags) (cs : cset) (k : pystr -> option A)
    (s : pystr) : option A :=
  match s with
  | x :: s' =>
      if cmatch f cs x
      then match star_greedy f cs k s' with
           | Some a => Some a
           | None => k s
           end
      else k s
  | [] => k s
  end.

(** [cs*?] followed by [k]: the shortest repetition first. *)
Fixpoint star_lazy {A} (f : re_flags) (cs : cset) (k : pystr -> option A)
    (s : pystr) : option A :=
  match k s with
  | Some a => Some a
  | None =>
      match s with
      | x :: s' => if cmatch f cs x then star_lazy f cs k s' else None
      | [] => None
      end
  end.

(** [run f r k s g]: match [r] at the head of [s], group 1 holding [g], and
    hand what is left of the subject and the group to the continuation [k];
    when [k] fails the next alternative of [r] is tried. *)
Fixpoint run {A} (f : re_flags) (r : regex)
    (k : pystr -> capture -> option A)
    (s : pystr) (g : capture) : option A :=
  match r with
  | Eps => k s g
  | Chr cs =>
      match s with
      | x :: s' => if cmatch f cs x then k s' g else None
      | [] => None
      end
  | Seq r1 r2 => run f r1 (run f r2 k) s g
  | Alt r1 r2 =>
      match run f r1 k s g with
      | Some a => Some a
      | None => run f r2 k s g
      end
  | Star cs => star_greedy f cs (fun s' => k s' g) s
  | LazyStar cs => star_lazy f cs (fun s' => k s' g) s
  | Opt cs =>
      match s with
      | x :: s' =>
          if cmatch f cs x
          then match k s' g with
               | Some a => Some a
               | None => k s g
               end
          else k s g
      | [] => k s g
      end
  | Group r1 => run f r1 (fun s' _ => k s' (Some (s, s'))) s g
  | Backref =>
      match group_text g with
      | Some t =>
          match strip_backref f t s with
          | Some s' => k s' g
          | None => None
          end
      | None => None
      end
  | Ahead r1 =>
      match run f r1 (fun _ g' => Some g') s g with
      | Some g' => k s g'
      | None => None
      end
  | Eos =>
      match s with
      | [] => k s g
      | [c] => if c =? 10 then k s g else None
      | _ => None
      end
  end.

(** A match at the head of [s]: its length and group 1. *)
Definition match_at (f : re_flags) (r : regex) (s : pystr)
    : option (nat * option pystr) :=
  run f r (fun s' g => Some ((length s - length s')%nat, group_text g)) s None.

(** The scan that [findall], [sub], [split] and [search] share: the subject
    is cut, from left to right, into the matches and the characters between
    them. [skip] counts the characters of the last match still to be passed
    over. No pattern of the source matches the empty string; after an empty
    match the scan moves on by one character. *)
Inductive piece :=
| Keep (c : char)
| Hit (m : pystr) (g : option pystr).

Fixpoint scan (f : re_flags) (r : regex) (skip : nat) (s : pystr) : list piece :=
  match skip with
  | S n =>
      match s with
      | _ :: s' => scan f r n s'
      | [] => []
      end
  | O =>
      match match_at f r s with
      | Some (n, g) =>
          Hit (take n s) g ::
          match s with
          | x :: s' =>
              match n with
              | S n' => scan f r n' s'
              | O => Keep x :: scan f r 0 s'
              end
          | [] => []
          end
      | None =>
          match s with
          | x :: s' => Keep x :: scan f r 0 s'
          | [] => []
          end
      end
  end.

(** [re.sub(r, repl, s)] for a replacement without group references. *)
Definition re_sub (f : re_flags) (r : regex) (repl s : pystr) : pystr :=
  flat_map (fun p => match p with Keep c => [c] | Hit _ _ => repl end)
           (scan f r 0 s).

(** [re.findall(r, s)]: the matches, or the texts of group 1 when the
    pattern has a group. *)
Definition re_findall (f : re_flags) (r : regex) (s : pystr) : list pystr :=
  flat_map (fun p => match p with
                     | Keep _ => []
                     | Hit m g => [if has_group r then default [] g else m]
                     end)
           (scan f r 0 s).

(** [re.split(r, s)] for a pattern without group: the texts between the
    matches. [cur] is the text since the last match, in reverse. *)
Fixpoint split_pieces (cur : pystr) (ps : list piece) : list pystr :=
  match ps with
  | [] => [rev cur]
  | Keep c :: ps' => split_pieces (c :: cur) ps'
  | Hit _ _ :: ps' => rev cur :: split_pieces [] ps'
  end.

Definition re_split (f : re_flags) (r : regex) (s : pystr) : list pystr :=
  split_pieces [] (scan f r 0 s).

(** [re.search(r, s)]: the first match, as its text and group 1. *)
Definition re_search (f : re_flags) (r : regex) (s : pystr)
    : option (pystr * option pystr) :=
  head (flat_map (fun p => match p with
                           | Keep _ => []
                           | Hit m g => [(m, g)]
                           end)
                 (scan f r 0 s)).

End Regex.

(** ** Exceptions and diagnostics

    A call returns a value or raises: [TypeError] is what [re.sub] raises
    on an argument that is not a string, [Exception] stands for what
    [json.loads] raises besides [json.JSONDecodeError]. What [verbose]
    prints is kept as a list of messages. *)

Inductive exn := TypeError | Exception.

Inductive result (A : Type) :=
| Ok (a : A)
| Raise (e : exn).
Arguments Ok {A} a.
Arguments Raise {A} e.

Inductive info :=
| NoCandidates                       (* No abstract candidates found *)
| FoundCandidates (n : Z)            (* Found n abstract candidates *)
| NoValid                            (* No valid abstracts after filtering *)
| BestSelected (chars words : Z).    (* Best abstract selected (...) *)

(** ** class AbstractExtractor *)

Record AbstractExtractor := {
  min_length : Z;
  max_length : Z;
  verbose : bool
}.

(** [AbstractExtractor()] with the default arguments. *)
Definition default_extractor : AbstractExtractor :=
  {| min_length := 50; max_length := 5000; verbose := false |}.

Definition chr (a : Ascii.ascii) : char := Ascii.N_of_ascii a.
Arguments chr a%_char.

(** [<tag[^>]*attr=QvalueQ[^>]*>.*?</tag>], Q the double quote: the shape
    of all but two of the structural patterns. *)
Definition container (tag attr : string) (value : regex) : regex :=
  cat [Str "<"; Str tag; Star (Not (chr ">")); Str attr; Str "=";
       Chr (Lit dq); value; Chr (Lit dq);
       Star (Not (chr ">")); Str ">"; LazyStar Any; Str "</"; Str tag; Str ">"].

(** [[^Q]*word[^Q]*] *)
Definition containing (word : string) : regex :=
  cat [Star (Not dq); Str word; Star (Not dq)].

(** [<h\d[^>]*>title</h\d>.*?(?=stop)] *)
Definition heading (title : string) (stop : regex) : regex :=
  cat [Str "<h"; Chr Digit; Star (Not (chr ">")); Str ">"; Str title;
       Str "</h"; Chr Digit; Str ">"; LazyStar Any; Ahead stop].

(** The list [patterns] of [_extract_patterns], in its order. *)
Definition patterns : list regex := [
  (* IEEE *)
  container "div" "class" (containing "abstract");
  container "section" "class" (containing "abstract");
  (* Springer *)
  container "div" "id" (Str "Abs1");
  container "section" "id" (Seq (Str "Abs") (Plus Digit));
  container "div" "class"
    (cat [Star (Not dq); Str "springer"; Star (Not dq); Str "abstract"; Star (Not dq)]);
  (* ScienceDirect *)
  container "div" "class" (containing "abstract");
  container "section" "data-testid" (Seq (Str "abstract") (Star (Not dq)));
  (* ACM Digital Library *)
  container "div" "id" (containing "abstract");
  container "section" "class" (containing "abstractSection");
  (* JMLR *)
  container "div" "class" (containing "paper-abstract");
  (* ArXiv *)
  container "blockquote" "class" (containing "abstract");
  container "span" "class" (containing "abstract");
  (* Generic *)
  container "div" "role" (Str "doc-abstract");
  container "article" "id" (Str "abstract");
  container "div" "id" (Str "abstract");
  container "section" "id" (Str "abstract");
  (* Abstract and Summary headings *)
  heading "Abstract"
    (Alt (Seq (Str "<h") (Chr Digit))
    (Alt (Str "<section")
    (Alt (cat [Str "<div class="; Chr (Lit dq); Star (Not dq);
               Alt (Str "article") (Alt (Str "paper") (Str "publication"));
               Star (Not dq); Chr (Lit dq)])
    (Alt (Str "<footer")
    (Alt (Str "<nav") Eos)))));
  heading "Summary"
    (Alt (Seq (Str "<h") (Chr Digit))
    (Alt (Str "<section")
    (Alt (Str "<div")
    (Alt (Str "<footer") Eos))));
  (* OpenReview *)
  container "div" "class" (containing "note_content_value");
  (* ResearchGate *)
  container "div" "class" (containing "abstract-text");
  (* Semantic Scholar *)
  container "div" "data-test-id" (Str "paper-abstract")
].

(** [<script[^>]*type=Qapplication/ld\+jsonQ[^>]*>(.*?)</script>] *)
Definition json_ld_pattern : regex :=
  cat [Str "<script"; Star (Not (chr ">")); Str "type="; Chr (Lit dq);
       Str "application/ld+json"; Chr (Lit dq); Star (Not (chr ">")); Str ">";
       Group (LazyStar Any); Str "</script>"].

(** [<meta[^>]*attr=QnameQ[^>]*content=Q( [^Q]* )Q], the group being
    [[^Q]*] *)
Definition meta_pattern (attr name : string) : regex :=
  cat [Str "<meta"; Star (Not (chr ">")); Str attr; Str "="; Chr (Lit dq);
       Str name; Chr (Lit dq); Star (Not (chr ">")); Str "content=";
       Chr (Lit dq); Group (Star (Not dq)); Chr (Lit dq)].

(** [<tag[^>]*>.*?</tag>] *)
Definition block (tag : string) : regex :=
  cat [Str "<"; Str tag; Star (Not (chr ">")); Str ">"; LazyStar Any;
       Str "</"; Str tag; Str ">"].

(** [<(noscript|iframe|embed)[^>]*>.*?</\1>] *)
Definition bloat_pattern : regex :=
  cat [Str "<"; Group (Alt (Str "noscript") (Alt (Str "iframe") (Str "embed")));
       Star (Not (chr ">")); Str ">"; LazyStar Any; Str "</"; Backref; Str ">"].

(** [<!--.*?-->] *)
Definition comment_pattern : regex := cat [Str "<!--"; LazyStar Any; Str "-->"].

(** [<[^>]+>] *)
Definition tag_pattern : regex := cat [Str "<"; Plus (Not (chr ">")); Str ">"].

(** [&#?\w+;] *)
Definition entity_pattern : regex := cat [Str "&"; Opt (Lit (chr "#")); Plus Word; Str ";"].

(** [\s+] *)
Definition spaces_pattern : regex := Plus Space.

(** [\s*Show More.*$] *)
Definition show_more_pattern : regex := cat [Star Space; Str "Show More"; Star Any; Eos].

(** [\s*\.\.\.$] *)
Definition ellipsis_pattern : regex := cat [Star Space; Str "..."; Eos].

(** [[.!?]+] *)
Definition sentence_end_pattern : regex := Plus (OneOf [chr "."; chr "!"; chr "?"]).

(** The dict [html_entities], in insertion order. *)
Definition html_entities : list (pystr * pystr) := [
  (str "&nbsp;", str " "); (str "&amp;", str "&"); (str "&lt;", str "<");
  (str "&gt;", str ">"); (str "&quot;", [dq]); (str "&#39;", str "'");
  (str "&apos;", str "'"); (str "&mdash;", [0x2014]); (str "&ndash;", [0x2013]);
  (str "&ldquo;", [dq]); (str "&rdquo;", [dq]); (str "&lsquo;", str "'");
  (str "&rsquo;", str "'"); (str "&hellip;", [0x2026]); (str "&deg;", [0xB0]);
  (str "&copy;", [0xA9])
].

(** [max(l, key=len)] of a non-empty list [x :: l]: the first of the
    longest elements. *)
Definition max_by_len (x : pystr) (l : list pystr) : pystr :=
  foldl (fun best y => if (len best <? len y)%Z then y else best) x l.

(** [l.sort(key=len, reverse=True)]: the sort is stable, elements of equal
    length keep their order (also under [reverse=True]), which determines
    the result. *)
Fixpoint insert_by_len (x : pystr) (l : list pystr) : list pystr :=
  match l with
  | [] => [x]
  | y :: l' => if (len x <? len y)%Z then y :: insert_by_len x l' else x :: l
  end.

Definition sort_by_len_reverse (l : list pystr) : list pystr :=
  foldr insert_by_len [] l.

(** The dict that [extract_with_metadata] returns. *)
Record metadata := {
  md_abstract : pystr;
  md_length : Z;
  md_word_count : Z;
  md_sentence_count : Z;
  md_has_numbers : bool
}.

Section Extractor.
Context `{Runtime}.

Definition flags_IS : re_flags := {| IGNORECASE := true; DOTALL := true |}.
Definition flags_I : re_flags := {| IGNORECASE := true; DOTALL := false |}.
Definition flags_S : re_flags := {| IGNORECASE := false; DOTALL := true |}.

(** The matches of every pattern, pattern after pattern. The patterns are
    valid, so [re.error] is never raised. *)
Definition _extract_patterns (html_content : pystr) : list json :=
  foldl (fun abstracts pattern =>
           abstracts ++ map JString (re_findall flags_IS pattern html_content))
        [] patterns.

(** What the loop of [_extract_json_ld] appends to [abstracts] for a
    block that [json.loads] has turned into [data]. None of these
    statements raises. *)
Definition json_ld_fields (abstracts : list json) (data : json) : list json :=
  match data with
  | JObject data =>
      let abstracts :=
        match data !! str "description" with
        | Some v => abstracts ++ [v]
        | None => abstracts
        end in
      let abstracts :=
        match data !! str "abstract" with
        | Some v => abstracts ++ [v]
        | None => abstracts
        end in
      match data !! str "author" with
      | Some (JObject author) =>
          match author !! str "description" with
          | Some v => abstracts ++ [v]
          | None => abstracts
          end
      | _ => abstracts
      end
  | _ => abstracts
  end.

(** The loop: [json.JSONDecodeError] is caught and the loop continues;
    any other exception of [json.loads] leaves the loop. *)
Fixpoint json_ld_loop (matches : list pystr) (abstracts : list json)
    : result (list json) :=
  match matches with
  | [] => Ok abstracts
  | m :: rest =>
      match json_loads m with
      | Loaded data => json_ld_loop rest (json_ld_fields abstracts data)
      | JSONDecodeError => json_ld_loop rest abstracts
      | OtherError => Raise Exception
      end
  end.

(** The outer handler, [except Exception: return []]. *)
Definition _extract_json_ld (html_content : pystr) : list json :=
  match json_ld_loop (re_findall flags_S json_ld_pattern html_content) [] with
  | Ok abstracts => abstracts
  | Raise _ => []
  end.

(** [m.group(1)] of the first match, when there is one. *)
Definition search_group (r : regex) (s : pystr) : list json :=
  match re_search flags_I r s with
  | Some (_, g) => [JString (default [] g)]
  | None => []
  end.

Definition _extract_meta_tags (html_content : pystr) : list json :=
  search_group (meta_pattern "name" "description") html_content
  ++ search_group (meta_pattern "property" "og:description") html_content
  ++ search_group (meta_pattern "name" "twitter:description") html_content.

(** [_clean_html] on a string. *)
Definition clean_text (text : pystr) : pystr :=
  let text := re_sub flags_IS (block "script") [] text in
  let text := re_sub flags_IS (block "style") [] text in
  let text := re_sub flags_IS bloat_pattern [] text in
  let text := re_sub flags_S comment_pattern [] text in
  let text := re_sub no_flags tag_pattern [] text in
  let text := foldl (fun text '(entity, char) => str_replace entity char text)
                    text html_entities in
  let text := re_sub no_flags entity_pattern [] text in
  let text := re_sub no_flags spaces_pattern (str " ") text in
  let text := str_strip text in
  let text := re_sub flags_I show_more_pattern [] text in
  let text := re_sub no_flags ellipsis_pattern [] text in
  text.

(** [_clean_html]: its first statement, [re.sub], raises [TypeError] on
    an argument that is not a string. *)
Definition _clean_html (text : json) : result pystr :=
  match text with
  | JString s => Ok (clean_text s)
  | _ => Raise TypeError
  end.

(** The four checks of [_filter_quality_abstracts] on a cleaned text. The
    source compares the float [upper / len(cleaned)] with the float [0.4];
    the quotient of two integers is correctly rounded, so for a text of
    fewer than 2^50 characters the comparison is that of the exact
    quotient with 2/5, which is what is written here. *)
Definition length_ok (self : AbstractExtractor) (cleaned : pystr) : bool :=
  negb ((len cleaned <? min_length self)%Z || (max_length self <? len cleaned)%Z).

Definition word_count_ok (cleaned : pystr) : bool :=
  let word_count := len (str_split cleaned) in
  negb ((word_count <? 10)%Z || (1000 <? word_count)%Z).

Definition long_sentences (cleaned : pystr) : list pystr :=
  filter (fun s => (3 < len (str_split s))%Z)
         (re_split no_flags sentence_end_pattern cleaned).

Definition sentences_ok (cleaned : pystr) : bool :=
  negb (len (long_sentences cleaned) <? 2)%Z.

Definition upper_count (cleaned : pystr) : Z :=
  len (filter (fun c => uni_isupper c = true) cleaned).

Definition uppercase_ok (cleaned : pystr) : bool :=
  match cleaned with
  | [] => true
  | _ => negb (2 * len cleaned <? 5 * upper_count cleaned)%Z
  end.

Fixpoint filter_loop (self : AbstractExtractor) (abstracts : list json)
    (filtered : list pystr) : result (list pystr) :=
  match abstracts with
  | [] => Ok filtered
  | abstract :: rest =>
      match _clean_html abstract with
      | Raise e => Raise e
      | Ok cleaned =>
          if negb (length_ok self cleaned) then filter_loop self rest filtered
          else if negb (word_count_ok cleaned) then filter_loop self rest filtered
          else if negb (sentences_ok cleaned) then filter_loop self rest filtered
          else if negb (uppercase_ok cleaned) then filter_loop self rest filtered
          else filter_loop self rest (filtered ++ [cleaned])
      end
  end.

Definition _filter_quality_abstracts (self : AbstractExtractor)
    (abstracts : list json) : result (list pystr) :=
  filter_loop self abstracts [].

End Extractor.

(** [any(abs(len(abstract) - seen_len) < 50 for seen_len in seen_lengths)] *)
Definition similar_length_seen (abstract : pystr) (seen_lengths : gset Z) : bool :=
  existsb (fun seen_len => (Z.abs (len abstract - seen_len) <? 50)%Z)
          (elements seen_lengths).

Fixpoint dedup_loop (abstracts unique_abstracts : list pystr)
    (seen_lengths : gset Z) : list pystr :=
  match abstracts with
  | [] => unique_abstracts
  | abstract :: rest =>
      if similar_length_seen abstract seen_lengths
      then dedup_loop rest unique_abstracts seen_lengths
      else if bool_decide (abstract ∈ unique_abstracts)
      then dedup_loop rest unique_abstracts seen_lengths
      else dedup_loop rest (unique_abstracts ++ [abstract])
                      ({[len abstract]} ∪ seen_lengths)
  end.

Definition _remove_duplicates (abstracts : list pystr) : list pystr :=
  dedup_loop abstracts [] ∅.

Section Modes.
Context `{Runtime}.

(** What [print] writes under [if self.verbose]. *)
Definition say (self : AbstractExtractor) (m : info) : list info :=
  if verbose self then [m] else [].

(** The three public methods return what they print and their result. *)
Definition extract (self : AbstractExtractor) (html_content : pystr)
    : list info * result (option pystr) :=
  let all_abstracts := [] in
  let patterns := _extract_patterns html_content in
  let all_abstracts := all_abstracts ++ patterns in
  let json_ld := _extract_json_ld html_content in
  let all_abstracts := all_abstracts ++ json_ld in
  let meta_abstracts := _extract_meta_tags html_content in
  let all_abstracts := all_abstracts ++ meta_abstracts in
  match all_abstracts with
  | [] => (say self NoCandidates, Ok None)
  | _ =>
      let out := say self (FoundCandidates (len all_abstracts)) in
      match _filter_quality_abstracts self all_abstracts with
      | Raise e => (out, Raise e)
      | Ok [] => (out ++ say self NoValid, Ok None)
      | Ok filtered =>
          match _remove_duplicates filtered with
          | x :: l =>
              let best_abstract := max_by_len x l in
              let word_count := len (str_split best_abstract) in
              (out ++ say self (BestSelected (len best_abstract) word_count),
               Ok (Some best_abstract))
          | [] => (out, Ok None)
          end
      end
  end.

Definition extract_all (self : AbstractExtractor) (html_content : pystr)
    : list info * result (list pystr) :=
  let all_abstracts := [] in
  let patterns := _extract_patterns html_content in
  let all_abstracts := all_abstracts ++ patterns in
  let json_ld := _extract_json_ld html_content in
  let all_abstracts := all_abstracts ++ json_ld in
  let meta_abstracts := _extract_meta_tags html_content in
  let all_abstracts := all_abstracts ++ meta_abstracts in
  match all_abstracts with
  | [] => ([], Ok [])
  | _ =>
      match _filter_quality_abstracts self all_abstracts with
      | Raise e => ([], Raise e)
      | Ok filtered =>
          let unique_abstracts := _remove_duplicates filtered in
          ([], Ok (sort_by_len_reverse unique_abstracts))
      end
  end.

(** [if not abstract] holds of [None] and of the empty string. *)
Definition extract_with_metadata (self : AbstractExtractor) (html_content : pystr)
    : list info * result (option metadata) :=
  match extract self html_content with
  | (out, Raise e) => (out, Raise e)
  | (out, Ok None) | (out, Ok (Some [])) => (out, Ok None)
  | (out, Ok (Some abstract)) =>
      (out, Ok (Some {|
        md_abstract := abstract;
        md_length := len abstract;
        md_word_count := len (str_split abstract);
        md_sentence_count := len (re_split no_flags sentence_end_pattern abstract);
        md_has_numbers := bool_decide (is_Some (re_search no_flags (Chr Digit) abstract))
      |}))
  end.

(** A program holds an extractor object and a standard output and calls the
    methods one after the other. No method assigns an attribute of [self]. *)
Inductive call :=
| CallExtract (html_content : pystr)
| CallExtractAll (html_content : pystr)
| CallExtractWithMetadata (html_content : pystr).

Inductive answer :=
| Text (r : result (option pystr))
| Texts (r : result (list pystr))
| Meta (r : result (option metadata)).

Record world := {
  object : AbstractExtractor;
  stdout : list info
}.

Definition invoke (w : world) (c : call) : world * answer :=
  match c with
  | CallExtract html =>
      let '(out, r) := extract (object w) html in
      ({| object := object w; stdout := stdout w ++ out |}, Text r)
  | CallExtractAll html =>
      let '(out, r) := extract_all (object w) html in
      ({| object := object w; stdout := stdout w ++ out |}, Texts r)
  | CallExtractWithMetadata html =>
      let '(out, r) := extract_with_metadata (object w) html in
      ({| object := object w; stdout := stdout w ++ out |}, Meta r)
  end.

Definition after (w : world) (history : list call) : world :=
  foldl (fun w c => fst (invoke w c)) w history.

End Modes.

(** ** A runtime for the examples

    The tables of the ASCII characters, and a parser of the JSON documents
    that the examples use: objects, arrays, strings with the one-letter
    escapes, integers, [true], [false] and [null]. Like CPython it gives
    up on a document nested deeper than the recursion limit. Numbers with
    a fraction or an exponent, [NaN], [Infinity] and [\u] escapes are
    outside this fragment. On ASCII text whose JSON blocks are within it,
    with integers of a few digits and nesting far from the limit, the
    functions above compute what CPython computes. *)

Definition ascii_isdecimal (c : char) : bool := (48 <=? c) && (c <=? 57).
Definition ascii_isalnum (c : char) : bool :=
  ascii_isdecimal c || ascii_upper c || ascii_lower c.

Fixpoint json_ws (s : pystr) : pystr :=
  match s with
  | c :: s' => if (c =? 32) || (c =? 9) || (c =? 10) || (c =? 13) then json_ws s' else s
  | [] => []
  end.

(** The characters of a string after its opening quote; [acc] is reversed. *)
Fixpoint json_string (acc : pystr) (s : pystr) : option (pystr * pystr) :=
  match s with
  | [] => None
  | c :: s' =>
      if c =? 34 then Some (rev acc, s')
      else if c =? 92 then
        match s' with
        | e :: s'' =>
            if (e =? 34) || (e =? 92) || (e =? 47) then json_string (e :: acc) s''
            else if e =? chr "n" then json_string (10 :: acc) s''
            else if e =? chr "t" then json_string (9 :: acc) s''
            else if e =? chr "r" then json_string (13 :: acc) s''
            else if e =? chr "b" then json_string (8 :: acc) s''
            else if e =? chr "f" then json_string (12 :: acc) s''
            else None
        | [] => None
        end
      else if c <? 32 then None
      else json_string (c :: acc) s'
  end.

Fixpoint json_digits (acc : Z) (s : pystr) : Z * pystr :=
  match s with
  | c :: s' =>
      if ascii_isdecimal c then json_digits (10 * acc + Z.of_N (c - 48))%Z s'
      else (acc, s)
  | [] => (acc, [])
  end.

(** An integer: a minus sign or none, then [0] or digits that do not
    start with [0]. *)
Definition json_integer (s : pystr) : option (json * pystr) :=
  let '(neg, s1) := match s with
                    | c :: s' => if c =? chr "-" then (true, s') else (false, s)
                    | [] => (false, s)
                    end in
  match s1 with
  | c :: s2 =>
      if ascii_isdecimal c
      then let '(n, rest) := if c =? 48 then (0%Z, s2) else json_digits 0 s1 in
           match rest with
           | d :: _ =>
               if (d =? chr ".") || (d =? chr "e") || (d =? chr "E") then None
               else Some (JNumber (if neg then - n else n)%Z, rest)
           | [] => Some (JNumber (if neg then - n else n)%Z, rest)
           end
      else None
  | [] => None
  end.

(** The recursion limit of the interpreter, [sys.getrecursionlimit()]:
    CPython gives up on a document nested about that deep (a few levels
    earlier, the frames of the caller count too). *)
Definition recursion_limit : nat := 1000.

Inductive scanned :=
| Scanned (v : json) (rest : pystr)
| Malformed
| TooDeep.

(** [depth] is how much deeper the document may nest; [fuel] bounds the
    number of calls. *)
Fixpoint json_value (fuel depth : nat) (s : pystr) : scanned :=
  match fuel with
  | O => Malformed
  | S n =>
      match json_ws s with
      | [] => Malformed
      | c :: s' =>
          if c =? chr "{" then
            match depth with
            | O => TooDeep
            | S d =>
                match json_ws s' with
                | e :: s'' => if e =? chr "}" then Scanned (JObject ∅) s''
                              else json_members n d ∅ (e :: s'')
                | [] => Malformed
                end
            end
          else if c =? chr "[" then
            match depth with
            | O => TooDeep
            | S d =>
                match json_ws s' with
                | e :: s'' => if e =? chr "]" then Scanned (JArray []) s''
                              else json_elements n d [] (e :: s'')
                | [] => Malformed
                end
            end
          else if c =? 34 then
            match json_string [] s' with
            | Some (t, rest) => Scanned (JString t) rest
            | None => Malformed
            end
          else match strip_prefix (str "true") (c :: s') with
               | Some rest => Scanned (JBool true) rest
               | None =>
          match strip_prefix (str "false") (c :: s') with
          | Some rest => Scanned (JBool false) rest
          | None =>
          match strip_prefix (str "null") (c :: s') with
          | Some rest => Scanned JNull rest
          | None =>
          match json_integer (c :: s') with
          | Some (v, rest) => Scanned v rest
          | None => Malformed
          end end end end
      end
  end
with json_members (fuel depth : nat) (m : gmap pystr json) (s : pystr) : scanned :=
  match fuel with
  | O => Malformed
  | S n =>
      match json_ws s with
      | q :: s1 =>
          if q =? 34 then
            match json_string [] s1 with
            | Some (key, s2) =>
                match json_ws s2 with
                | c :: s3 =>
                    if c =? chr ":" then
                      match json_value n depth s3 with
                      | Scanned v s4 =>
                          match json_ws s4 with
                          | e :: s5 =>
                              if e =? chr "," then json_members n depth (<[key:=v]> m) s5
                              else if e =? chr "}" then Scanned (JObject (<[key:=v]> m)) s5
                              else Malformed
                          | [] => Malformed
                          end
                      | failure => failure
                      end
                    else Malformed
                | [] => Malformed
                end
            | None => Malformed
            end
          else Malformed
      | [] => Malformed
      end
  end
with json_elements (fuel depth : nat) (l : list json) (s : pystr) : scanned :=
  match fuel with
  | O => Malformed
  | S n =>
      match json_value n depth s with
      | Scanned v s1 =>
          match json_ws s1 with
          | e :: s2 =>
              if e =? chr "," then json_elements n depth (l ++ [v]) s2
              else if e =? chr "]" then Scanned (JArray (l ++ [v])) s2
              else Malformed
          | [] => Malformed
          end
      | failure => failure
      end
  end.

Definition json_parse (s : pystr) : loaded :=
  match json_value (2 * length s + 2) recursion_limit s with
  | Scanned v rest => match json_ws rest with [] => Loaded v | _ => JSONDecodeError end
  | Malformed => JSONDecodeError
  | TooDeep => OtherError
  end.

Definition ascii_runtime : Runtime := {|
  uni_isdecimal := ascii_isdecimal;
  uni_isalnum := ascii_isalnum;
  uni_isupper := ascii_upper;
  json_loads := json_parse
|}.

(** ** The statements of the specification *)

(** Two texts are near-duplicates when their lengths differ by less than 50. *)
Definition within_50 (a b : pystr) : bool := (Z.abs (len a - len b) <? 50)%Z.

(** The deduplication algorithm in the words of the specification: iterate
    the input in original order; for each text, if any already-accepted
    text has length within 50 of it, skip it; otherwise accept it. *)
Fixpoint dedup_spec (accepted texts : list pystr) : list pystr :=
  match texts with
  | [] => accepted
  | t :: rest =>
      if existsb (within_50 t) accepted
      then dedup_spec accepted rest
      else dedup_spec (accepted ++ [t]) rest
  end.

(** The candidates that are strings. *)
Definition is_string (v : json) : Prop := exists s, v = JString s.

(** No two texts of [l] are near-duplicates. *)
Definition far_apart (l : list pystr) : Prop :=
  forall i j x y, i <> j -> l !! i = Some x -> l !! j = Some y ->
    (50 <= Z.abs (len x - len y))%Z /\ x <> y.

(** The longest of [x :: l], the first one among equals. *)
Fixpoint first_longest (x : pystr) (l : list pystr) : pystr :=
  match l with
  | [] => x
  | y :: l' => let m := first_longest y l' in if (len x <? len m)%Z then m else x
  end.

(** Longest first. *)
Definition longer_eq (a b : pystr) : Prop := (len b <= len a)%Z.

Section Statements.
Context `{Runtime}.

(** The four checks of the Quality Filter, as the specification states
    them; an uppercase ratio of at most 0.4 is [upper / len <= 2 / 5]. *)
Record passes_quality (self : AbstractExtractor) (t : pystr) : Prop := {
  pq_length : (min_length self <= len t <= max_length self)%Z;
  pq_words : (10 <= len (str_split t) <= 1000)%Z;
  pq_sentences :
    (2 <= len (filter (fun s => (3 < len (str_split s))%Z)
                      (re_split no_flags sentence_end_pattern t)))%Z;
  pq_uppercase : (5 * len (filter (fun c => uni_isupper c = true) t) <= 2 * len t)%Z
}.

(** The candidate pool, in generation order: structural patterns, then
    structured data, then meta tags. *)
Definition all_candidates (html_content : pystr) : list json :=
  _extract_patterns html_content ++ _extract_json_ld html_content
  ++ _extract_meta_tags html_content.

(** The structured-data blocks of a document: the contents of the script
    elements that [json_ld_pattern] finds, in document order. *)
Definition json_ld_blocks (html_content : pystr) : list pystr :=
  re_findall flags_S json_ld_pattern html_content.

(** What one block contributes, in the words of the specification: nothing
    unless it parses to a mapping; then [description], [abstract] and the
    [description] of a mapping [author], each when present. *)
Definition block_values (content : pystr) : list json :=
  match json_loads content with
  | Loaded (JObject data) =>
      option_list (data !! str "description")
      ++ option_list (data !! str "abstract")
      ++ match data !! str "author" with
         | Some (JObject author) => option_list (author !! str "description")
         | _ => []
         end
  | _ => []
  end.

End Statements.

(** ** Normal forms of the normaliser *)

(** Every whitespace character of [s] is a space, and no two are adjacent:
    what [re.sub(r'\s+', ' ', text)] leaves. *)
Fixpoint spaced (s : pystr) : Prop :=
  match s with
  | [] => True
  | c :: s' =>
      (isspace c = true ->
       c = 32 /\ match s' with d :: _ => isspace d = false | [] => True end)
      /\ spaced s'
  end.

(** [s] neither starts nor ends with whitespace. *)
Definition trimmed (s : pystr) : Prop :=
  match head s with Some c => isspace c = false | None => True end
  /\ match last s with Some c => isspace c = false | None => True end.

(** The number of characters at the head of [s] that a class matches. *)
Fixpoint span (p : char -> bool) (s : pystr) : nat :=
  match s with
  | c :: s' => if p c then S (span p s') else O
  | [] => O
  end.

(** The literal [w] at the head of [s], and what follows it. *)
Fixpoint strip_lit (f : re_flags) (w s : pystr) : option pystr :=
  match w, s with
  | [], _ => Some s
  | c :: w', x :: s' => if literal f c x then strip_lit f w' s' else None
  | _ :: _, [] => None
  end.

(** [s] up to the first of its suffixes that satisfies [p]. *)
Fixpoint cut (p : pystr -> bool) (s : pystr) : pystr :=
  if p s then []
  else match s with
       | c :: s' => c :: cut p s'
       | [] => []
       end.

Section Hits.
Context `{Runtime}.

(** Whether a pattern matches at the head of [s]. *)
Definition hits (f : re_flags) (r : regex) (s : pystr) : bool :=
  match match_at f r s with
  | Some _ => true
  | None => false
  end.

End Hits.

(** ** Documents of the examples *)

Definition sentence : pystr := str "The model is trained on data. ".

(** [n] sentences and a closing one: 30 n + 20 characters of prose. *)
Definition prose (n : nat) : pystr :=
  concat (replicate n sentence) ++ str "We conclude it here.".

(** [<div class=QabstractQ>t</div>] *)
Definition abstract_div (t : pystr) : pystr :=
  str "<div class=" ++ [dq] ++ str "abstract" ++ [dq] ++ str ">" ++ t ++ str "</div>".

(** A page with three abstracts of 200, 500 and 350 characters. *)
Definition three_abstracts_html : pystr :=
  abstract_div (prose 6) ++ abstract_div (prose 16) ++ abstract_div (prose 11).

(** [<script type=Qapplication/ld+jsonQ>content</script>] *)
Definition ld_json_script (content : pystr) : pystr :=
  str "<script type=" ++ [dq] ++ str "application/ld+json" ++ [dq] ++ str ">"
  ++ content ++ str "</script>".

(** [{QdescriptionQ: 5}] in a structured-data block. *)
Definition number_description : pystr :=
  str "{" ++ [dq] ++ str "description" ++ [dq] ++ str ": 5}".

Definition number_description_html : pystr := ld_json_script number_description.

(** [{QdescriptionQ: QA short description.Q}] *)
Definition short_description : pystr :=
  str "{" ++ [dq] ++ str "description" ++ [dq] ++ str ": " ++ [dq]
  ++ str "A short description." ++ [dq] ++ str "}".

(** A page with a block that is not JSON and a block that holds a
    description. *)
Definition two_blocks_html : pystr :=
  ld_json_script (str "{not json") ++ ld_json_script short_description.

(** 100000 brackets that open and 100000 that close. *)
Definition deep_array : pystr :=
  replicate (N.to_nat 100000) (chr "[") ++ replicate (N.to_nat 100000) (chr "]").

(** A page with a block that holds a description and a block that nests
    too deep. *)
Definition deep_nesting_html : pystr :=
  ld_json_script short_description ++ ld_json_script deep_array.

(** ** The loop of the filter, in one test *)

Section Quality.
Context `{Runtime}.

(** A cleaned text reaches [filtered.append]: none of the four [continue]
    statements of the loop is taken. *)
Definition quality_ok (self : AbstractExtractor) (cleaned : pystr) : bool :=
  length_ok self cleaned && word_count_ok cleaned
  && sentences_ok cleaned && uppercase_ok cleaned.

End Quality.

(** ** Survivors, in the words of the specification *)

(** A page with an abstract of 200 characters and a structured-data block
    whose description is a number. *)
Definition abstract_and_number_html : pystr :=
  abstract_div (prose 6) ++ number_description_html.

Section Survivors.
Context `{Runtime}.

(** The four checks of the Quality Filter on a text: its length lies
    between the bounds, it has between 10 and 1000 words, at least two of
    its sentence segments have more than three words, and at most 2/5 of
    its characters are upper case. *)
Definition qualifies (self : AbstractExtractor) (t : pystr) : bool :=
  ((min_length self <=? len t) && (len t <=? max_length self))%Z
  && ((10 <=? len (str_split t)) && (len (str_split t) <=? 1000))%Z
  && (2 <=? len (filter (fun s => (3 < len (str_split s))%Z)
                         (re_split no_flags sentence_end_pattern t)))%Z
  && (5 * len (filter (fun c => uni_isupper c = true) t) <=? 2 * len t)%Z.

(** The candidates that are texts, in generation order; a candidate that is
    not a text is skipped. *)
Definition candidate_texts (l : list json) : list pystr :=
  omap (fun v => match v with JString s => Some s | _ => None end) l.

(** The candidates that survive filtering and deduplication: the
    candidates are normalised, those that pass the four checks are kept in
    generation order, and of these a text is dropped when an accepted one
    has a length within 50 of its own. *)
Definition survivors (self : AbstractExtractor) (html_content : pystr) : list pystr :=
  dedup_spec []
    (filter (fun t => qualifies self t = true)
            (map clean_text (candidate_texts (all_candidates html_content)))).

End Survivors.

(** ** The content of a meta tag *)

(** [x] is the text [w], letter case apart: what the literal [w] of a
    pattern matches under [re.IGNORECASE]. *)
Definition same_ignoring_case (w x : pystr) : Prop :=
  strip_lit flags_I w x = Some [].

(** [t] is the value of a [content] attribute in a [meta] tag of the page
    that declares [attr=QnameQ], Q the double quote: the page holds
    [<meta], attributes, the declaration, attributes, [content=Q], then
    [t] up to the next double quote, no [>] in between. *)
Definition meta_content (attr name : string) (html t : pystr) : Prop :=
  exists pre tag a1 decl a2 cont post,
    html = pre ++ tag ++ a1 ++ decl ++ a2 ++ cont ++ t ++ dq :: post
    /\ same_ignoring_case (str "<meta") tag
    /\ (chr ">" ∉ a1)
    /\ same_ignoring_case (str attr ++ str "=" ++ [dq] ++ str name ++ [dq]) decl
    /\ (chr ">" ∉ a2)
    /\ same_ignoring_case (str "content=" ++ [dq]) cont
    /\ (dq ∉ t).

(** A pattern without group whose first character is [<]. *)
Definition opens_with_tag (r : regex) : Prop :=
  has_group r = false /\ exists w rest, r = Seq (lits (60 :: w)) rest.

(** ** The functions of the module

    [extract_abstract], [extract_all_abstracts] and the module-level
    [extract_with_metadata] build an extractor with the default bounds and
    call the method. *)

Module abstract_extractor.
Section Convenience.
Context `{Runtime}.

Definition extract_abstract (html_content : pystr) (verbose : bool)
    : list info * result (option pystr) :=
  let extractor := {| min_length := 50; max_length := 5000; verbose := verbose |} in
  extract extractor html_content.

Definition extract_all_abstracts (html_content : pystr) (verbose : bool)
    : list info * result (list pystr) :=
  let extractor := {| min_length := 50; max_length := 5000; verbose := verbose |} in
  extract_all extractor html_content.

Definition extract_with_metadata (html_content : pystr) (verbose : bool)
    : list info * result (option metadata) :=
  let extractor := {| min_length := 50; max_length := 5000; verbose := verbose |} in
  extract_with_metadata extractor html_content.

End Convenience.
End abstract_extractor.

(** ** The script

    What the module does when run as a program. The files and the
    terminal are outside the program. Reading the input and writing the
    output succeed or fail as the file system decides, and
    [Path(...).stem] is that of [pathlib]: a part of the name of the file.
    Standard output is a text stream with an encoding: [print] raises
    [UnicodeEncodeError] on a text with a character that the encoding
    lacks. Every encoding has the ASCII characters. A stream that fails
    for another reason (a closed pipe) is left out. *)

Inductive read_outcome :=
| FileContent (html_content : pystr)
| FileNotFoundError
| ReadException (message : pystr).

Class FileSystem := {
  (* open(path, 'r', encoding='utf-8') and f.read(); an exception comes
     with its message, str(e) *)
  read_text : pystr -> read_outcome;
  (* open(path, 'w', encoding='utf-8') and f.write(text): whether both succeed *)
  write_text : pystr -> pystr -> bool;
  (* Path(path).stem *)
  path_stem : pystr -> pystr;
  path_stem_chars : forall path c, c ∈ path_stem path -> c ∈ path
}.

Class Stdout := {
  (* whether the encoding of sys.stdout has the character *)
  encodable : char -> bool;
  encodable_ascii : forall c, c < 128 -> encodable c = true
}.

(** What the script prints, one constructor for each [print]; [Usage] is
    the nine lines of the usage message, [Diagnostic] a line that the
    extractor prints. *)
Inductive line :=
| Usage
| FileNotFound (html_file : pystr)
| ErrorReadingFile (message : pystr)
| RuleAbove
| Processing (html_file : pystr)
| RuleBelow
| Diagnostic (m : info)
| FoundAbstracts (n : Z)
| AbstractHeader (i : Z) (chars : Z)
| Preview (text : pystr)
| BlankLine
| NoAbstractsFound
| AbstractFound
| AbstractFoundChars (chars : Z)
| LengthLine (chars : Z)
| WordsLine (words : Z)
| SentencesLine (sentences : Z)
| FullText (abstract : pystr)
| SavedTo (output_file : pystr)
| NoAbstractFound.

(** [str(n)] of an integer; [fuel] bounds the number of digits. *)
Fixpoint decimal_from (fuel : nat) (n : N) (acc : pystr) : pystr :=
  match fuel with
  | O => acc
  | S fuel' =>
      let acc := (48 + n mod 10) :: acc in
      if n <? 10 then acc else decimal_from fuel' (n / 10) acc
  end.

Definition decimal (n : Z) : pystr :=
  match n with
  | Z.neg p => chr "-" :: decimal_from (S (N.to_nat (N.log2 (N.pos p)))) (N.pos p) []
  | _ => decimal_from (S (N.to_nat (N.log2 (Z.to_N n)))) (Z.to_N n) []
  end.

(** The check mark U+2713 and the ballot cross U+2717. *)
Definition check_mark : char := 0x2713.
Definition ballot_x : char := 0x2717.

Definition newline : pystr := [10].

(** The text of a line of the extractor. *)
Definition info_text (m : info) : pystr :=
  match m with
  | NoCandidates => str "[INFO] No abstract candidates found"
  | FoundCandidates n =>
      str "[INFO] Found " ++ decimal n ++ str " abstract candidates"
  | NoValid => str "[INFO] No valid abstracts after filtering"
  | BestSelected chars words =>
      str "[INFO] Best abstract selected (" ++ decimal chars
      ++ str " characters, " ++ decimal words ++ str " words)"
  end.

(** The text that a [print] of the script hands to standard output. *)
Definition text_of (l : line) : pystr :=
  match l with
  | Usage =>
      str "Usage: python abstract_extractor.py <html_file> [options]" ++ newline
      ++ newline ++ str "Options:" ++ newline
      ++ str "  -v, --verbose   Show detailed extraction information" ++ newline
      ++ str "  -a, --all       Extract all abstracts" ++ newline
      ++ str "  -m, --metadata  Include metadata" ++ newline
      ++ newline ++ str "Examples:" ++ newline
      ++ str "  python abstract_extractor.py paper.html" ++ newline
      ++ str "  python abstract_extractor.py paper.html -v" ++ newline
      ++ str "  python abstract_extractor.py paper.html -a"
  | FileNotFound html_file => str "Error: File '" ++ html_file ++ str "' not found"
  | ErrorReadingFile message => str "Error reading file: " ++ message
  | RuleAbove => newline ++ replicate 70 (chr "=")
  | Processing html_file => str "Processing: " ++ html_file
  | RuleBelow => replicate 70 (chr "=") ++ newline
  | Diagnostic m => info_text m
  | FoundAbstracts n =>
      [check_mark] ++ str " Found " ++ decimal n ++ str " abstract(s)" ++ newline
  | AbstractHeader i chars =>
      str "--- Abstract " ++ decimal i ++ str " (" ++ decimal chars
      ++ str " characters) ---"
  | Preview text => text
  | BlankLine => []
  | NoAbstractsFound => [ballot_x] ++ str " No abstracts found"
  | AbstractFound => [check_mark] ++ str " Abstract found" ++ newline
  | AbstractFoundChars chars =>
      [check_mark] ++ str " Abstract found (" ++ decimal chars
      ++ str " characters)" ++ newline
  | LengthLine chars => str "Length: " ++ decimal chars ++ str " characters"
  | WordsLine words => str "Words: " ++ decimal words
  | SentencesLine sentences => str "Sentences: " ++ decimal sentences ++ newline
  | FullText abstract => abstract
  | SavedTo output_file =>
      newline ++ [check_mark] ++ str " Abstract saved to '" ++ output_file ++ str "'"
  | NoAbstractFound => [ballot_x] ++ str " No abstract found"
  end.

(** An exception that the script does not catch: one of the extractor,
    [UnicodeEncodeError] of a [print], or one of the write. *)
Inductive uncaught :=
| ExtractorRaised (e : exn)
| PrintFailed
| WriteFailed.

(** How the program ends: at the end of the script, by [sys.exit], or with
    a traceback. *)
Inductive ending :=
| Finished
| SysExit (code : Z)
| Traceback (u : uncaught).

Definition exit_status (e : ending) : Z :=
  match e with
  | Finished => 0
  | SysExit code => code
  | Traceback _ => 1
  end.

(** A run of the script: what it has printed, the files it has written
    (path and text), how it ended. *)
Record process := {
  printed : list line;
  saved : list (pystr * pystr);
  ended : ending
}.

(** The first 300 characters of the abstract, followed by three dots when
    the abstract has more. *)
Definition preview (abstract : pystr) : pystr :=
  take 300 abstract ++ (if (300 <? len abstract)%Z then str "..." else []).

(** [for i, abstract in enumerate(abstracts, 1)]: the three [print]s of
    each turn. *)
Definition listing (abstracts : list pystr) : list line :=
  concat (imap (fun i abstract =>
                  [AbstractHeader (Z.of_nat i + 1) (len abstract);
                   Preview (preview abstract); BlankLine])
               abstracts).

Section Script.
Context `{Runtime} `{FileSystem} `{Stdout}.

(** Whether standard output can encode a text, a line. *)
Definition can_print (text : pystr) : bool := forallb encodable text.

Definition printable (l : line) : bool := can_print (text_of l).

(** [print] statements in a row: they are executed up to the first one
    that raises; the lines printed, and whether all were. *)
Fixpoint print_all (ls : list line) : list line * bool :=
  match ls with
  | [] => ([], true)
  | l :: ls' =>
      if printable l
      then let '(done, ok) := print_all ls' in (l :: done, ok)
      else ([], false)
  end.

(** The run ends with the traceback of a [print]. *)
Definition crashed (out : list line) : process :=
  {| printed := out; saved := []; ended := Traceback PrintFailed |}.

(** The last [print]s of a branch that writes no file, and its end. *)
Definition finish (out ls : list line) (e : ending) : process :=
  match print_all ls with
  | (done, true) => {| printed := out ++ done; saved := []; ended := e |}
  | (done, false) => crashed (out ++ done)
  end.

(** The end of the two single modes: the abstract is announced, written
    to [Path(html_file).stem + '_abstract.txt'], and the script says so. *)
Definition save_abstract (html_file abstract : pystr) (out found : list line)
    : process :=
  match print_all found with
  | (done, false) => crashed (out ++ done)
  | (done, true) =>
      let out := out ++ done in
      let output_file := path_stem html_file ++ str "_abstract.txt" in
      if write_text output_file abstract
      then match print_all [SavedTo output_file] with
           | (done, true) =>
               {| printed := out ++ done; saved := [(output_file, abstract)];
                  ended := Finished |}
           | (done, false) =>
               {| printed := out ++ done; saved := [(output_file, abstract)];
                  ended := Traceback PrintFailed |}
           end
      else {| printed := out; saved := []; ended := Traceback WriteFailed |}
  end.

(** The branch [if extract_all], after the call. *)
Definition report_all (abstracts : result (list pystr)) (out : list line) : process :=
  match abstracts with
  | Raise e => {| printed := out; saved := []; ended := Traceback (ExtractorRaised e) |}
  | Ok [] => finish out [NoAbstractsFound] (SysExit 1)
  | Ok abstracts =>
      finish out (FoundAbstracts (len abstracts) :: listing abstracts) Finished
  end.

(** The branch [if with_metadata], after the call; [if result] holds of
    every dictionary that the function returns. *)
Definition report_metadata (html_file : pystr) (result : result (option metadata))
    (out : list line) : process :=
  match result with
  | Raise e => {| printed := out; saved := []; ended := Traceback (ExtractorRaised e) |}
  | Ok (Some result) =>
      save_abstract html_file (md_abstract result) out
        [AbstractFound; LengthLine (md_length result);
         WordsLine (md_word_count result);
         SentencesLine (md_sentence_count result);
         FullText (md_abstract result)]
  | Ok None => finish out [NoAbstractFound] (SysExit 1)
  end.

(** The last branch, after the call; [if abstract] fails on [None] and on
    the empty string. *)
Definition report_abstract (html_file : pystr) (abstract : result (option pystr))
    (out : list line) : process :=
  match abstract with
  | Raise e => {| printed := out; saved := []; ended := Traceback (ExtractorRaised e) |}
  | Ok None | Ok (Some []) => finish out [NoAbstractFound] (SysExit 1)
  | Ok (Some abstract) =>
      save_abstract html_file abstract out
        [AbstractFoundChars (len abstract); Preview (preview abstract)]
  end.

(** The script once it has read its arguments. The lines of the extractor
    are ASCII text and are always printed. *)
Definition process_file (html_file : pystr)
    (verbose extract_all with_metadata : bool) : process :=
  match read_text html_file with
  | FileNotFoundError => finish [] [FileNotFound html_file] (SysExit 1)
  | ReadException message => finish [] [ErrorReadingFile message] (SysExit 1)
  | FileContent html_content =>
      match print_all [RuleAbove; Processing html_file; RuleBelow] with
      | (out, false) => crashed out
      | (out, true) =>
          if extract_all then
            let '(diagnostics, abstracts) :=
              abstract_extractor.extract_all_abstracts html_content verbose in
            report_all abstracts (out ++ map Diagnostic diagnostics)
          else if with_metadata then
            let '(diagnostics, result) :=
              abstract_extractor.extract_with_metadata html_content verbose in
            report_metadata html_file result (out ++ map Diagnostic diagnostics)
          else
            let '(diagnostics, abstract) :=
              abstract_extractor.extract_abstract html_content verbose in
            report_abstract html_file abstract (out ++ map Diagnostic diagnostics)
      end
  end.

(** [sys.argv] holds the name of the script and the arguments: the first
    argument is the file, and an option is recognised wherever it stands. *)
Definition main (argv : list pystr) : process :=
  match argv with
  | [] | [_] => finish [] [Usage] (SysExit 1)
  | _ :: html_file :: _ =>
      let verbose :=
        bool_decide (str "-v" ∈ argv) || bool_decide (str "--verbose" ∈ argv) in
      let extract_all :=
        bool_decide (str "-a" ∈ argv) || bool_decide (str "--all" ∈ argv) in
      let with_metadata :=
        bool_decide (str "-m" ∈ argv) || bool_decide (str "--metadata" ∈ argv) in
      process_file html_file verbose extract_all with_metadata
  end.

End Script.

Definition is_diagnostic (l : line) : bool :=
  match l with Diagnostic _ => true | _ => false end.

(** What is printed, the lines of the extractor left out. *)
Definition plain (out : list line) : list line :=
  List.filter (fun l => negb (is_diagnostic l)) out.

(** A file system for the examples: [paper.html] holds the page with three
    abstracts, no other file exists, and every write succeeds. *)
Definition example_files : FileSystem.
Proof.
  refine {|
    read_text path :=
      if bool_decide (path = str "paper.html")
      then FileContent three_abstracts_html else FileNotFoundError;
    write_text _ _ := true;
    path_stem path :=
      if bool_decide (path = str "paper.html") then str "paper" else path
  |}.
  intros path c. destruct (bool_decide (path = str "paper.html")) eqn:E; [|auto].
  apply bool_decide_eq_true in E. subst path. intros Hc.
  change (str "paper.html") with (str "paper" ++ str ".html").
  apply elem_of_app. by left.
Defined.

(** Two terminals for the examples: one with the encoding UTF-8, which has
    every character but the surrogates, and one with the encoding ASCII. *)
Definition utf8_stdout : Stdout.
Proof.
  refine {| encodable c := negb ((0xD800 <=? c) && (c <=? 0xDFFF)) |}.
  intros c Hc. apply negb_true_iff, andb_false_iff. left. apply N.leb_gt. lia.
Defined.

Definition ascii_stdout : Stdout.
Proof.
  refine {| encodable c := c <? 128 |}.
  intros c Hc. by apply N.ltb_lt.
Defined.

(** ** The scraper, [Abstract_scrapper.py]

    The loop over the rows of the query. A row holds a work identifier, a
    string, and a DOI, a string or [None] when the column is null. The
    browser and the file system are outside the program: [load_page] is
    [driver.get(link)] up to [driver.page_source] and returns the page or
    fails with an exception, [save_text] is [open(path, "w")] and
    [f.write(text)] and tells whether both succeed. *)

Class Outside := {
  outside : Type;
  load_page : outside -> pystr -> outside * option pystr;
  save_text : outside -> pystr -> pystr -> outside * bool;
  (* os.sep *)
  os_sep : pystr
}.

Inductive scraper_line :=
| Scraping (work_id : pystr)
| ExtractorSays (m : info)
| NoAbstractFoundFor (work_id : pystr)
| Saved (file_path : pystr)
| ErrorScraping (work_id : pystr).

Definition is_no_abstract (l : scraper_line) : bool :=
  match l with NoAbstractFoundFor _ => true | _ => false end.

(** [s.startswith(p)] *)
Definition str_startswith (p s : pystr) : bool :=
  match strip_prefix p s with Some _ => true | None => false end.

(** The link that the browser is sent to. *)
Definition doi_link (doi : pystr) : pystr :=
  if str_startswith (str "http") doi then doi else str "https://doi.org/" ++ doi.

Section Scraper.
Context `{Runtime} `{Outside}.

(** The state of the script in the loop: the browser and the files, what
    the loop has printed, the files it has written under [pages] (path and
    text), and the rows it has written to [failed_links.csv]. *)
Record scraper := {
  env : outside;
  console : list scraper_line;
  pages : list (pystr * pystr);
  failed_links : list (pystr * option pystr)
}.

Definition tell (st : scraper) (ls : list scraper_line) : scraper :=
  {| env := env st; console := console st ++ ls;
     pages := pages st; failed_links := failed_links st |}.

Definition moved (st : scraper) (w : outside) : scraper :=
  {| env := w; console := console st;
     pages := pages st; failed_links := failed_links st |}.

(** The body of [try]; [false] when it is left by an exception. A null
    DOI has no method [startswith] and raises [AttributeError]. *)
Definition scrape_try (st : scraper) (work_id : pystr) (doi : option pystr)
    : scraper * bool :=
  match doi with
  | None => (st, false)
  | Some doi =>
      let doi_link := doi_link doi in
      let st := tell st [Scraping work_id] in
      match load_page (env st) doi_link with
      | (w, None) => (moved st w, false)
      | (w, Some html_content) =>
          let st := moved st w in
          let '(diagnostics, abstract) :=
            abstract_extractor.extract_abstract html_content false in
          let st := tell st (map ExtractorSays diagnostics) in
          match abstract with
          | Raise _ => (st, false)
          | Ok None => (tell st [NoAbstractFoundFor work_id], true)
          | Ok (Some abstract) =>
              let file_path :=
                str "pages" ++ os_sep ++ str "abstract_" ++ work_id ++ str ".txt" in
              match save_text (env st) file_path abstract with
              | (w, false) => (moved st w, false)
              | (w, true) =>
                  ({| env := w; console := console st ++ [Saved file_path];
                      pages := pages st ++ [(file_path, abstract)];
                      failed_links := failed_links st |}, true)
              end
          end
      end
  end.

(** One turn of the loop; [except Exception] prints the error and writes
    the row to the CSV file. *)
Definition scrape_row (st : scraper) (row : pystr * option pystr) : scraper :=
  let '(work_id, doi) := row in
  match scrape_try st work_id doi with
  | (st, true) => st
  | (st, false) =>
      {| env := env st; console := console st ++ [ErrorScraping work_id];
         pages := pages st;
         failed_links := failed_links st ++ [(work_id, doi)] |}
  end.

Definition scrape (results : list (pystr * option pystr)) (st : scraper) : scraper :=
  foldl scrape_row st results.

(** The state when the loop starts. *)
Definition start (w : outside) : scraper :=
  {| env := w; console := []; pages := []; failed_links := [] |}.

(** [os.path.join(pages_folder, f"abstract_{work_id}.txt")] *)
Definition page_path (work_id : pystr) : pystr :=
  str "pages" ++ os_sep ++ str "abstract_" ++ work_id ++ str ".txt".

(** What one turn of the loop adds to the files, the console and the CSV
    file. *)
Record turn (row : pystr * option pystr) (P : list (pystr * pystr))
    (C : list scraper_line) (F : list (pystr * option pystr)) : Prop := {
  turn_one : (length P + length (List.filter is_no_abstract C) + length F = 1)%nat;
  turn_failed : F = [] \/ F = [row];
  turn_null : row.2 = None -> F = [row];
  turn_page : forall path text, (path, text) ∈ P ->
    path = page_path row.1
    /\ (exists doi, row.2 = Some doi)
    /\ passes_quality default_extractor text
}.

End Scraper.

(** A web for the examples: one page, which holds the three abstracts;
    every write succeeds. *)
Definition example_outside : Outside := {|
  outside := unit;
  load_page _ link :=
    (tt, if bool_decide (link = str "https://doi.org/10.1000/xyz")
         then Some three_abstracts_html else None);
  save_text _ _ _ := (tt, true);
  os_sep := str "/"
|}.

(** * Properties *)

(** ** Lists, selection and sorting *)

Lemma max_by_len_acc (x y : pystr) (l : list pystr) :
  max_by_len x (y :: l)
  = max_by_len (if (len x <? len y)%Z then y else x) l.
Proof. reflexivity. Qed.

Lemma max_by_len_first_longest (l : list pystr) : forall x,
  max_by_len x l = first_longest x l.
Proof.
  induction l as [|y l IH]; intros x; [reflexivity|].
  rewrite max_by_len_acc. cbn [first_longest].
  destruct l as [|z l].
  - reflexivity.
  - rewrite IH. cbn [first_longest]. cbv zeta.
    destruct (Z.ltb_spec (len x) (len y));
      destruct (Z.ltb_spec (len y) (len (first_longest z l)));
      repeat match goal with
             | |- context [(?a <? ?b)%Z] => destruct (Z.ltb_spec a b)
             end; try reflexivity; lia.
Qed.

Lemma first_longest_split (l : list pystr) : forall x,
  exists before after,
    x :: l = before ++ first_longest x l :: after
    /\ Forall (fun y => (len y < len (first_longest x l))%Z) before
    /\ Forall (fun y => (len y <= len (first_longest x l))%Z) after.
Proof.
  induction l as [|y l IH]; intros x.
  - exists [], []. cbn. repeat split; constructor.
  - destruct (IH y) as (before & after & Heq & Hb & Ha).
    cbn [first_longest]. cbv zeta.
    destruct (Z.ltb_spec (len x) (len (first_longest y l))) as [Hlt|Hge].
    + exists (x :: before), after. rewrite Heq. repeat split; auto.
    + exists [], (y :: l). repeat split; [constructor|].
      rewrite Heq. apply Forall_app. split.
      * eapply Forall_impl; [exact Hb|]. cbn. intros; lia.
      * constructor; [lia|]. eapply Forall_impl; [exact Ha|]. cbn. intros; lia.
Qed.

Lemma insert_by_len_perm (x : pystr) (l : list pystr) :
  insert_by_len x l ≡ₚ x :: l.
Proof.
  induction l as [|y l IH]; [reflexivity|]. cbn.
  destruct (len x <? len y)%Z; [|reflexivity].
  rewrite IH. apply Permutation_swap.
Qed.

Lemma sort_by_len_reverse_perm (l : list pystr) : sort_by_len_reverse l ≡ₚ l.
Proof.
  induction l as [|x l IH]; [reflexivity|].
  cbn. rewrite insert_by_len_perm. by rewrite IH.
Qed.

Lemma insert_by_len_sorted (x : pystr) (l : list pystr) :
  Sorted longer_eq l -> Sorted longer_eq (insert_by_len x l).
Proof.
  induction l as [|y l IH]; intros Hs; cbn.
  - repeat constructor.
  - destruct (Z.ltb_spec (len x) (len y)) as [Hlt|Hge].
    + apply Sorted_inv in Hs as [Hs Hhd]. constructor; [auto|].
      destruct l as [|z l]; cbn.
      * constructor. unfold longer_eq. lia.
      * destruct (Z.ltb_spec (len x) (len z)).
        -- constructor. by inversion Hhd.
        -- constructor. unfold longer_eq. lia.
    + constructor; [exact Hs|]. constructor. exact Hge.
Qed.

Lemma sort_by_len_reverse_sorted (l : list pystr) :
  Sorted longer_eq (sort_by_len_reverse l).
Proof.
  induction l as [|x l IH]; cbn; [constructor|].
  by apply insert_by_len_sorted.
Qed.

Lemma sort_by_len_reverse_strongly_sorted (l : list pystr) :
  StronglySorted longer_eq (sort_by_len_reverse l).
Proof.
  apply Sorted_StronglySorted; [|apply sort_by_len_reverse_sorted].
  intros a b c Hab Hbc. unfold longer_eq in *. lia.
Qed.

Lemma sort_by_len_reverse_head (x : pystr) (l : list pystr) :
  exists tl, sort_by_len_reverse (x :: l) = first_longest x l :: tl.
Proof.
  revert x. induction l as [|y l IH]; intros x.
  - by exists [].
  - destruct (IH y) as [tl Htl].
    change (sort_by_len_reverse (x :: y :: l))
      with (insert_by_len x (sort_by_len_reverse (y :: l))).
    rewrite Htl. cbn [insert_by_len first_longest]. cbv zeta.
    destruct (len x <? len (first_longest y l))%Z; eauto.
Qed.

(** ** Deduplication *)

Lemma within_50_refl (a : pystr) : within_50 a a = true.
Proof. unfold within_50. apply Z.ltb_lt. lia. Qed.

Lemma within_50_false (a b : pystr) :
  within_50 a b = false -> (50 <= Z.abs (len a - len b))%Z /\ a <> b.
Proof.
  unfold within_50. intros Hf. apply Z.ltb_ge in Hf. split; [exact Hf|].
  intros ->. lia.
Qed.

Lemma similar_length_seen_spec (a : pystr) (seen : gset Z) (unique : list pystr) :
  (forall z, z ∈ seen <-> exists u, u ∈ unique /\ len u = z) ->
  similar_length_seen a seen = existsb (within_50 a) unique.
Proof.
  intros Hinv. apply Bool.eq_iff_eq_true.
  unfold similar_length_seen. rewrite !existsb_exists. split.
  - intros (z & Hz & Hlt). apply list_elem_of_In, elem_of_elements in Hz.
    destruct (proj1 (Hinv z) Hz) as (u & Hu & <-).
    exists u. split; [by apply list_elem_of_In|exact Hlt].
  - intros (u & Hu & Hlt). exists (len u). split; [|exact Hlt].
    apply list_elem_of_In, elem_of_elements. apply (proj2 (Hinv (len u))).
    exists u. split; [by apply list_elem_of_In|reflexivity].
Qed.

Lemma dedup_loop_spec (l : list pystr) : forall unique seen,
  (forall z, z ∈ seen <-> exists u, u ∈ unique /\ len u = z) ->
  dedup_loop l unique seen = dedup_spec unique l.
Proof.
  induction l as [|a l IH]; intros unique seen Hinv; [reflexivity|].
  cbn [dedup_loop dedup_spec].
  rewrite (similar_length_seen_spec a seen unique Hinv).
  destruct (existsb (within_50 a) unique) eqn:Hsim; [by apply IH|].
  rewrite bool_decide_eq_false_2.
  - apply IH. intros z. rewrite elem_of_union, elem_of_singleton, Hinv. split.
    + intros [->|(u & Hu & Hz)].
      * exists a. split; [|reflexivity].
        apply elem_of_app. right. by apply list_elem_of_singleton.
      * exists u. split; [|exact Hz]. apply elem_of_app. by left.
    + intros (u & Hu & Hz). apply elem_of_app in Hu as [Hu|Hu].
      * right. eauto.
      * apply list_elem_of_singleton in Hu as ->. by left.
  - intros Hin. apply Bool.not_true_iff_false in Hsim. apply Hsim.
    apply existsb_exists. exists a. split; [by apply list_elem_of_In|].
    apply within_50_refl.
Qed.

Lemma remove_duplicates_spec (l : list pystr) :
  _remove_duplicates l = dedup_spec [] l.
Proof.
  apply dedup_loop_spec. intros z. split.
  - intros Hz. set_solver.
  - intros (u & Hu & _). by apply elem_of_nil in Hu.
Qed.

Lemma dedup_spec_app (l1 l2 : list pystr) : forall accepted,
  dedup_spec accepted (l1 ++ l2) = dedup_spec (dedup_spec accepted l1) l2.
Proof.
  induction l1 as [|t l1 IH]; intros accepted; [reflexivity|].
  cbn. destruct (existsb (within_50 t) accepted); apply IH.
Qed.

Lemma dedup_spec_prefix (l : list pystr) : forall accepted,
  accepted `prefix_of` dedup_spec accepted l.
Proof.
  induction l as [|t l IH]; intros accepted; cbn; [reflexivity|].
  destruct (existsb (within_50 t) accepted); [apply IH|].
  etransitivity; [|apply IH]. by apply prefix_app_r.
Qed.

Lemma dedup_spec_from (l : list pystr) : forall accepted x,
  x ∈ dedup_spec accepted l -> x ∈ accepted \/ x ∈ l.
Proof.
  induction l as [|t l IH]; intros accepted x Hx; cbn in Hx; [by left|].
  destruct (existsb (within_50 t) accepted).
  - apply IH in Hx as [?|?]; [by left|right; by constructor].
  - apply IH in Hx as [Hx|?]; [|right; by constructor].
    apply elem_of_app in Hx as [?|Hx]; [by left|].
    apply list_elem_of_singleton in Hx as ->. right. constructor.
Qed.

Lemma far_apart_snoc (l : list pystr) (t : pystr) :
  far_apart l -> existsb (within_50 t) l = false -> far_apart (l ++ [t]).
Proof.
  intros Hl Ht.
  assert (Hfar : forall a, a ∈ l ->
            (50 <= Z.abs (len t - len a))%Z /\ t <> a).
  { intros a Ha. apply within_50_false.
    destruct (within_50 t a) eqn:E; [|reflexivity].
    apply Bool.not_true_iff_false in Ht. exfalso. apply Ht.
    apply existsb_exists. exists a. split; [by apply list_elem_of_In|exact E]. }
  intros i j x y Hij Hi Hj.
  apply lookup_app_Some in Hi as [Hi|[Hil Hi]];
    apply lookup_app_Some in Hj as [Hj|[Hjl Hj]].
  - by apply (Hl i j).
  - apply list_lookup_singleton_Some in Hj as [_ <-].
    apply list_elem_of_lookup_2, Hfar in Hi as [? ?]. split; [lia|congruence].
  - apply list_lookup_singleton_Some in Hi as [_ <-].
    apply list_elem_of_lookup_2, Hfar in Hj as [? ?]. split; [lia|congruence].
  - apply list_lookup_singleton_Some in Hi as [Hi _].
    apply list_lookup_singleton_Some in Hj as [Hj _]. lia.
Qed.

Lemma dedup_spec_far_apart (l : list pystr) : forall accepted,
  far_apart accepted -> far_apart (dedup_spec accepted l).
Proof.
  induction l as [|t l IH]; intros accepted Hacc; cbn; [exact Hacc|].
  destruct (existsb (within_50 t) accepted) eqn:E; [by apply IH|].
  apply IH. by apply far_apart_snoc.
Qed.

Lemma far_apart_nil : far_apart [].
Proof. intros i j x y _ Hi. by rewrite lookup_nil in Hi. Qed.

Lemma remove_duplicates_far_apart (l : list pystr) : far_apart (_remove_duplicates l).
Proof.
  rewrite remove_duplicates_spec. apply dedup_spec_far_apart, far_apart_nil.
Qed.

Lemma far_apart_perm (l1 l2 : list pystr) : l1 ≡ₚ l2 -> far_apart l1 -> far_apart l2.
Proof.
  intros Hp. induction Hp as [|x l1 l2 Hp IH|x y l|l1 l2 l3 Hp1 IH1 Hp2 IH2].
  - auto.
  - intros Hf i j a b Hij Hi Hj.
    assert (Htl : far_apart l1).
    { intros i' j' a' b' Hij' Hi' Hj'. apply (Hf (S i') (S j')); auto. }
    assert (Hhd : forall a, a ∈ l2 -> (50 <= Z.abs (len x - len a))%Z /\ x <> a).
    { intros c Hc. rewrite <- Hp in Hc. apply list_elem_of_lookup_1 in Hc as [k Hk].
      apply (Hf 0%nat (S k)); auto. }
    destruct i as [|i], j as [|j]; cbn in Hi, Hj; simplify_eq.
    + apply list_elem_of_lookup_2, Hhd in Hj. exact Hj.
    + apply list_elem_of_lookup_2, Hhd in Hi as [? ?]. split; [lia|congruence].
    + apply (IH Htl i j); auto.
  - intros Hf i j a b Hij Hi Hj.
    set (sw := fun k : nat => match k with 0 => 1 | 1 => 0 | _ => k end%nat).
    apply (Hf (sw i) (sw j)).
    + destruct i as [|[|i]], j as [|[|j]]; cbn; lia.
    + destruct i as [|[|i]]; exact Hi.
    + destruct j as [|[|j]]; exact Hj.
  - auto.
Qed.

(** ** The Quality Filter *)

Section FilterFacts.
Context `{Runtime}.

Lemma checks_pass (self : AbstractExtractor) (t : pystr) :
  length_ok self t = true -> word_count_ok t = true ->
  sentences_ok t = true -> uppercase_ok t = true ->
  passes_quality self t.
Proof.
  unfold length_ok, word_count_ok, sentences_ok, uppercase_ok, long_sentences,
    upper_count.
  intros H1 H2 H3 H4.
  apply Bool.negb_true_iff, Bool.orb_false_iff in H1 as [H1a H1b].
  apply Bool.negb_true_iff, Bool.orb_false_iff in H2 as [H2a H2b].
  apply Bool.negb_true_iff in H3.
  apply Z.ltb_ge in H1a, H1b, H2a, H2b, H3.
  split; try lia.
  destruct t as [|c t]; [rewrite filter_nil; unfold len; cbn; lia|].
  apply Bool.negb_true_iff, Z.ltb_ge in H4. exact H4.
Qed.

Lemma filter_loop_spec (self : AbstractExtractor) (l : list json) :
  forall acc r, filter_loop self l acc = Ok r ->
    exists r', r = acc ++ r' /\ Forall (passes_quality self) r'.
Proof.
  induction l as [|a l IH]; intros acc r Hr; cbn in Hr.
  - injection Hr as <-. exists []. split; [by rewrite app_nil_r|constructor].
  - destruct (_clean_html a) as [cleaned|e]; [|discriminate].
    destruct (length_ok self cleaned) eqn:E1; cbn in Hr; [|by apply IH].
    destruct (word_count_ok cleaned) eqn:E2; cbn in Hr; [|by apply IH].
    destruct (sentences_ok cleaned) eqn:E3; cbn in Hr; [|by apply IH].
    destruct (uppercase_ok cleaned) eqn:E4; cbn in Hr; [|by apply IH].
    apply IH in Hr as (r' & -> & Hall). exists (cleaned :: r'). split.
    + by rewrite <- app_assoc.
    + constructor; [by apply checks_pass|exact Hall].
Qed.

Lemma filter_quality_passes (self : AbstractExtractor) (l : list json) (r : list pystr) :
  _filter_quality_abstracts self l = Ok r -> Forall (passes_quality self) r.
Proof. intros Hr. apply filter_loop_spec in Hr as (r' & -> & Hall). exact Hall. Qed.

(** A text that passes the filter has ten words: it is not empty. *)
Lemma passes_quality_nonempty (self : AbstractExtractor) (t : pystr) :
  passes_quality self t -> t <> [].
Proof. intros [_ Hw _ _] ->. change (10 <= 0 <= 1000)%Z in Hw. lia. Qed.

(** What the public methods return, through the stages of the pipeline. *)
Lemma candidates_assoc (html : pystr) :
  (([] ++ _extract_patterns html) ++ _extract_json_ld html) ++ _extract_meta_tags html
  = all_candidates html.
Proof. unfold all_candidates. by rewrite app_nil_l, <- app_assoc. Qed.

Lemma extract_result (self : AbstractExtractor) (html : pystr) :
  (extract self html).2 =
  match _filter_quality_abstracts self (all_candidates html) with
  | Raise e => Raise e
  | Ok filtered =>
      Ok match _remove_duplicates filtered with
         | [] => None
         | x :: l => Some (first_longest x l)
         end
  end.
Proof.
  unfold extract. cbv zeta. rewrite candidates_assoc.
  destruct (all_candidates html) as [|c cs]; [reflexivity|].
  destruct (_filter_quality_abstracts self (c :: cs)) as [[|f fs]|e];
    [reflexivity| |reflexivity].
  destruct (_remove_duplicates (f :: fs)) as [|x l]; [reflexivity|].
  cbn. by rewrite max_by_len_first_longest.
Qed.

Lemma extract_all_result (self : AbstractExtractor) (html : pystr) :
  (extract_all self html).2 =
  match _filter_quality_abstracts self (all_candidates html) with
  | Raise e => Raise e
  | Ok filtered => Ok (sort_by_len_reverse (_remove_duplicates filtered))
  end.
Proof.
  unfold extract_all. cbv zeta. rewrite candidates_assoc.
  destruct (all_candidates html) as [|c cs]; [reflexivity|].
  by destruct (_filter_quality_abstracts self (c :: cs)).
Qed.

End FilterFacts.

(** ** The invariant of the results *)

Lemma remove_duplicates_from (l : list pystr) (x : pystr) :
  x ∈ _remove_duplicates l -> x ∈ l.
Proof.
  rewrite remove_duplicates_spec. intros Hx.
  apply dedup_spec_from in Hx as [Hx|Hx]; [by apply elem_of_nil in Hx|exact Hx].
Qed.

Lemma first_longest_elem (x : pystr) (l : list pystr) : first_longest x l ∈ x :: l.
Proof.
  destruct (first_longest_split l x) as (before & after & -> & _).
  apply elem_of_app. right. constructor.
Qed.

Lemma extract_some_passes `{Runtime} (self : AbstractExtractor) (html t : pystr) :
  (extract self html).2 = Ok (Some t) -> passes_quality self t.
Proof.
  rewrite extract_result.
  destruct (_filter_quality_abstracts self (all_candidates html))
    as [filtered|e] eqn:Hf; [|discriminate].
  apply filter_quality_passes in Hf.
  destruct (_remove_duplicates filtered) as [|x u] eqn:Hu; [discriminate|].
  intros [= <-]. apply (proj1 (Forall_forall _ _) Hf).
  apply remove_duplicates_from. rewrite Hu. apply first_longest_elem.
Qed.

(** C1. Every text that [extract_all] returns, and the text that [extract]
    returns when it returns one, passes the four checks of the Quality
    Filter (length within the configured bounds, 10 to 1000 words, at least
    two sentence segments of more than three words, uppercase ratio at most
    0.4), and two texts of one result differ in length by at least 50, so
    that they are different strings. *)
Theorem surfaced_texts_pass_quality `{Runtime} (self : AbstractExtractor)
    (html : pystr) (l : list pystr) :
  (extract_all self html).2 = Ok l ->
  Forall (passes_quality self) l /\ far_apart l
  /\ forall t, (extract self html).2 = Ok (Some t) -> passes_quality self t.
Proof.
  intros Hall. split; [|split]; [| |intros t; apply extract_some_passes].
  all: rewrite extract_all_result in Hall.
  all: destruct (_filter_quality_abstracts self (all_candidates html))
         as [filtered|e] eqn:Hf; [|discriminate].
  all: injection Hall as <-.
  - rewrite sort_by_len_reverse_perm. apply filter_quality_passes in Hf.
    apply Forall_forall. intros x Hx. apply remove_duplicates_from in Hx.
    by eapply (proj1 (Forall_forall _ _) Hf).
  - eapply far_apart_perm; [symmetry; apply sort_by_len_reverse_perm|].
    apply remove_duplicates_far_apart.
Qed.

Lemma surfaced_texts_pass_quality_witness :
  (@extract_all ascii_runtime default_extractor three_abstracts_html).2
    = Ok [prose 16; prose 11; prose 6]
  /\ (Forall (@passes_quality ascii_runtime default_extractor)
             [prose 16; prose 11; prose 6]
      /\ far_apart [prose 16; prose 11; prose 6]
      /\ forall t,
           (@extract ascii_runtime default_extractor three_abstracts_html).2
             = Ok (Some t) ->
           @passes_quality ascii_runtime default_extractor t).
Proof.
  assert (Hrun : (@extract_all ascii_runtime default_extractor
                    three_abstracts_html).2 = Ok [prose 16; prose 11; prose 6])
    by (vm_compute; reflexivity).
  split; [exact Hrun|].
  exact (@surfaced_texts_pass_quality ascii_runtime default_extractor
           three_abstracts_html _ Hrun).
Defined.

(** ** Selection *)

Lemma sort_three (a b c : pystr) :
  len a = 200%Z -> len b = 500%Z -> len c = 350%Z ->
  sort_by_len_reverse [a; b; c] = [b; c; a].
Proof.
  intros Ha Hb Hc. unfold sort_by_len_reverse. cbn [foldr insert_by_len].
  rewrite Hb, Hc. cbn [Z.ltb Z.compare Pos.compare Pos.compare_cont insert_by_len].
  rewrite Ha, Hb, Hc. reflexivity.
Qed.

(** C10. The two public modes agree: [extract] returns [None] exactly when
    [extract_all] returns the empty list, the text that [extract] returns
    is the first element of the list that [extract_all] returns, and one
    raises exactly when the other does. *)
Theorem extract_is_head_of_extract_all `{Runtime} (self : AbstractExtractor)
    (html : pystr) :
  ((extract self html).2 = Ok None <-> (extract_all self html).2 = Ok [])
  /\ (forall t, (extract self html).2 = Ok (Some t) <->
                exists rest, (extract_all self html).2 = Ok (t :: rest))
  /\ (forall e, (extract self html).2 = Raise e <->
                (extract_all self html).2 = Raise e).
Proof.
  rewrite extract_all_result, extract_result.
  destruct (_filter_quality_abstracts self (all_candidates html)) as [filtered|e].
  - destruct (_remove_duplicates filtered) as [|x u] eqn:Hu.
    + split; [split; reflexivity|]. split; [|intros e; split; discriminate].
      intros t. split; [discriminate|]. intros [rest Hr]. discriminate.
    + destruct (sort_by_len_reverse_head x u) as [tl Htl]. rewrite Htl.
      split; [split; discriminate|]. split; [|intros e; split; discriminate].
      intros t. split.
      * intros [= <-]. by exists tl.
      * intros [rest [= <- _]]. reflexivity.
  - split; [split; discriminate|]. split; [|intros e'; split; intros [= ->]; reflexivity].
    intros t. split; [discriminate|]. intros [rest Hr]. discriminate.
Qed.

Lemma extract_is_head_of_extract_all_witness :
  (@extract ascii_runtime default_extractor three_abstracts_html).2
    = Ok (Some (prose 16))
  /\ exists rest,
       (@extract_all ascii_runtime default_extractor three_abstracts_html).2
         = Ok (prose 16 :: rest).
Proof.
  assert (Hx : (@extract ascii_runtime default_extractor three_abstracts_html).2
               = Ok (Some (prose 16))) by (vm_compute; reflexivity).
  split; [exact Hx|].
  exact (proj1 (proj1 (proj2 (@extract_is_head_of_extract_all ascii_runtime
                                default_extractor three_abstracts_html))
                  (prose 16)) Hx).
Defined.

(** ** Deduplication keeps the earliest text *)

Section FilterOrder.
Context `{Runtime}.

Lemma filter_loop_acc (self : AbstractExtractor) (l : list json) :
  forall acc,
    filter_loop self l acc =
    match filter_loop self l [] with
    | Ok r => Ok (acc ++ r)
    | Raise e => Raise e
    end.
Proof.
  induction l as [|a l IH]; intros acc; cbn.
  - by rewrite app_nil_r.
  - destruct (_clean_html a) as [cleaned|e]; [|reflexivity].
    destruct (negb (length_ok self cleaned)); [apply IH|].
    destruct (negb (word_count_ok cleaned)); [apply IH|].
    destruct (negb (sentences_ok cleaned)); [apply IH|].
    destruct (negb (uppercase_ok cleaned)); [apply IH|].
    rewrite (IH (acc ++ [cleaned])), (IH [cleaned]).
    destruct (filter_loop self l []); [|reflexivity].
    by rewrite <- app_assoc.
Qed.

Lemma filter_loop_app (self : AbstractExtractor) (l1 l2 : list json) :
  forall acc,
    filter_loop self (l1 ++ l2) acc =
    match filter_loop self l1 acc with
    | Ok r => filter_loop self l2 r
    | Raise e => Raise e
    end.
Proof.
  induction l1 as [|a l1 IH]; intros acc; cbn; [reflexivity|].
  destruct (_clean_html a) as [cleaned|e]; [|reflexivity].
  destruct (negb (length_ok self cleaned)); [apply IH|].
  destruct (negb (word_count_ok cleaned)); [apply IH|].
  destruct (negb (sentences_ok cleaned)); [apply IH|].
  destruct (negb (uppercase_ok cleaned)); apply IH.
Qed.

(** The filter keeps the order of generation: the texts of the structural
    patterns, then those of the structured data, then those of the meta
    tags. *)
Lemma filter_quality_generation_order (self : AbstractExtractor) (html : pystr)
    (filtered : list pystr) :
  _filter_quality_abstracts self (all_candidates html) = Ok filtered ->
  exists fp fj fm,
    _filter_quality_abstracts self (_extract_patterns html) = Ok fp
    /\ _filter_quality_abstracts self (_extract_json_ld html) = Ok fj
    /\ _filter_quality_abstracts self (_extract_meta_tags html) = Ok fm
    /\ filtered = fp ++ fj ++ fm.
Proof.
  unfold _filter_quality_abstracts, all_candidates.
  rewrite filter_loop_app.
  destruct (filter_loop self (_extract_patterns html) []) as [fp|e]; [|discriminate].
  rewrite filter_loop_app, (filter_loop_acc self (_extract_json_ld html) fp).
  destruct (filter_loop self (_extract_json_ld html) []) as [fj|e]; [|discriminate].
  cbv beta iota. rewrite (filter_loop_acc self (_extract_meta_tags html) (fp ++ fj)).
  destruct (filter_loop self (_extract_meta_tags html) []) as [fm|e]; [|discriminate].
  intros [= <-]. exists fp, fj, fm. by rewrite <- app_assoc.
Qed.

End FilterOrder.

Lemma dedup_spec_represented (l : list pystr) : forall accepted t,
  t ∈ l -> exists a, a ∈ dedup_spec accepted l /\ within_50 t a = true.
Proof.
  induction l as [|x l IH]; intros accepted t Ht; [by apply elem_of_nil in Ht|].
  cbn [dedup_spec]. apply elem_of_cons in Ht as [->|Ht].
  - destruct (existsb (within_50 x) accepted) eqn:E.
    + apply existsb_exists in E as (a & Ha & Hw). exists a. split; [|exact Hw].
      eapply elem_of_prefix; [|apply dedup_spec_prefix]. by apply list_elem_of_In.
    + exists x. split; [|apply within_50_refl].
      eapply elem_of_prefix; [|apply dedup_spec_prefix].
      apply elem_of_app. right. by apply list_elem_of_singleton.
  - destruct (existsb (within_50 x) accepted); by apply IH.
Qed.

(** C6. [_remove_duplicates] is the algorithm of the specification: the
    texts are taken in their original order, a text is skipped when a text
    accepted before it has a length within 50 of its own, and is accepted
    otherwise. A decision is never revised, so that every text has a
    representative among the results that was generated no later than the
    text itself; and the texts reach the deduplication in generation order,
    those of the structural patterns before those of the structured data
    before those of the meta tags. *)
Theorem remove_duplicates_keeps_earliest `{Runtime} (l : list pystr) :
  _remove_duplicates l = dedup_spec [] l
  /\ (forall pre t post, l = pre ++ t :: post ->
        _remove_duplicates (pre ++ [t])
          = (if existsb (within_50 t) (_remove_duplicates pre)
             then _remove_duplicates pre
             else _remove_duplicates pre ++ [t])
        /\ _remove_duplicates (pre ++ [t]) `prefix_of` _remove_duplicates l
        /\ exists a, a ∈ _remove_duplicates l /\ a ∈ pre ++ [t]
                     /\ within_50 t a = true)
  /\ (forall self html,
        _filter_quality_abstracts self (all_candidates html) = Ok l ->
        exists fp fj fm,
          _filter_quality_abstracts self (_extract_patterns html) = Ok fp
          /\ _filter_quality_abstracts self (_extract_json_ld html) = Ok fj
          /\ _filter_quality_abstracts self (_extract_meta_tags html) = Ok fm
          /\ l = fp ++ fj ++ fm).
Proof.
  split; [apply remove_duplicates_spec|]. split.
  - intros pre t post ->. rewrite !remove_duplicates_spec.
    assert (Hstep : dedup_spec [] (pre ++ [t])
                    = if existsb (within_50 t) (dedup_spec [] pre)
                      then dedup_spec [] pre else dedup_spec [] pre ++ [t]).
    { rewrite dedup_spec_app. cbn.
      by destruct (existsb (within_50 t) (dedup_spec [] pre)). }
    split; [exact Hstep|]. split.
    + replace (pre ++ t :: post) with ((pre ++ [t]) ++ post)
        by (by rewrite <- app_assoc).
      rewrite (dedup_spec_app (pre ++ [t]) post). apply dedup_spec_prefix.
    + destruct (dedup_spec_represented (pre ++ [t]) [] t) as (a & Ha & Hw).
      { apply elem_of_app. right. by apply list_elem_of_singleton. }
      exists a. split; [|split; [|exact Hw]].
      * replace (pre ++ t :: post) with ((pre ++ [t]) ++ post)
          by (by rewrite <- app_assoc).
        rewrite (dedup_spec_app (pre ++ [t]) post).
        eapply elem_of_prefix; [exact Ha|apply dedup_spec_prefix].
      * apply dedup_spec_from in Ha as [Ha|Ha]; [by apply elem_of_nil in Ha|exact Ha].
  - intros self html. apply filter_quality_generation_order.
Qed.

Lemma remove_duplicates_keeps_earliest_witness :
  _remove_duplicates [prose 6; prose 7; prose 8] = [prose 6; prose 8]
  /\ exists a, a ∈ _remove_duplicates [prose 6; prose 7; prose 8]
               /\ a ∈ [prose 6] ++ [prose 7] /\ within_50 (prose 7) a = true.
Proof.
  split; [vm_compute; reflexivity|].
  apply (proj1 (proj2 (@remove_duplicates_keeps_earliest ascii_runtime
                         [prose 6; prose 7; prose 8]))
           [prose 6] (prose 7) [prose 8] eq_refl).
Defined.

(** ** Structured data *)

Section JsonLd.
Context `{Runtime}.

Lemma json_ld_fields_values (abstracts : list json) (m : pystr) (v : json) :
  json_loads m = Loaded v ->
  json_ld_fields abstracts v = abstracts ++ block_values m.
Proof.
  intros Hm. unfold json_ld_fields, block_values. rewrite Hm.
  destruct v as [| | | | |data]; try by rewrite app_nil_r.
  destruct (data !! str "description") as [d|];
    destruct (data !! str "abstract") as [a|];
    destruct (data !! str "author") as [[| | | | |author]|];
    try destruct (author !! str "description") as [ad|];
    cbn; rewrite <- ?app_assoc, ?app_nil_r; reflexivity.
Qed.

Lemma json_ld_loop_ok (blocks : list pystr) : forall abstracts,
  Forall (fun m => json_loads m <> OtherError) blocks ->
  json_ld_loop blocks abstracts = Ok (abstracts ++ flat_map block_values blocks).
Proof.
  induction blocks as [|m blocks IH]; intros abstracts Hall; cbn.
  - by rewrite app_nil_r.
  - inversion Hall as [|? ? Hm Hall']; subst.
    destruct (json_loads m) as [v| |] eqn:E; [| |by destruct Hm].
    + rewrite IH by exact Hall'. by rewrite (json_ld_fields_values _ m v E), <- app_assoc.
    + rewrite IH by exact Hall'. unfold block_values at 2. by rewrite E.
Qed.

Lemma json_ld_loop_fails (blocks : list pystr) : forall abstracts,
  Exists (fun m => json_loads m = OtherError) blocks ->
  json_ld_loop blocks abstracts = Raise Exception.
Proof.
  induction blocks as [|m blocks IH]; intros abstracts Hex; [by inversion Hex|].
  cbn. destruct (json_loads m) as [v| |] eqn:E; [| |reflexivity];
    apply IH; (inversion Hex; subst; [congruence|assumption]).
Qed.

(** X22. What the loop of [_extract_json_ld] makes of the blocks that its
    pattern finds, in document order. When [json.loads] raises nothing but
    [json.JSONDecodeError] on them, it emits, block after block, what each
    contributes: nothing for a block that is not valid JSON or whose
    top-level value is not a mapping (the next blocks are processed all
    the same), and for a mapping the values of [description], of
    [abstract] and of the [description] of a mapping-valued [author], in
    that order, each when present. When [json.loads] raises another
    exception on some block, the result is the empty list. *)
Theorem json_ld_blocks_in_order (html : pystr) :
  (Forall (fun m => json_loads m <> OtherError) (json_ld_blocks html) ->
   _extract_json_ld html = flat_map block_values (json_ld_blocks html))
  /\ (Exists (fun m => json_loads m = OtherError) (json_ld_blocks html) ->
      _extract_json_ld html = [])
  /\ (forall content, json_loads content = JSONDecodeError ->
        block_values content = [])
  /\ (forall content v, json_loads content = Loaded v ->
        (forall data, v <> JObject data) -> block_values content = [])
  /\ (forall content data, json_loads content = Loaded (JObject data) ->
        block_values content
        = option_list (data !! str "description")
          ++ option_list (data !! str "abstract")
          ++ match data !! str "author" with
             | Some (JObject author) => option_list (author !! str "description")
             | _ => []
             end).
Proof.
  split; [|split; [|split; [|split]]].
  - intros Hall. unfold _extract_json_ld, json_ld_blocks in *.
    by rewrite json_ld_loop_ok.
  - intros Hex. unfold _extract_json_ld, json_ld_blocks in *.
    by rewrite json_ld_loop_fails.
  - intros content Hc. unfold block_values. by rewrite Hc.
  - intros content v Hc Hv. unfold block_values. rewrite Hc.
    destruct v; try reflexivity. by destruct (Hv m).
  - intros content data Hc. unfold block_values. by rewrite Hc.
Qed.

End JsonLd.

Lemma json_ld_blocks_in_order_witness :
  Forall (fun m => @json_loads ascii_runtime m <> OtherError)
         (@json_ld_blocks ascii_runtime two_blocks_html)
  /\ @_extract_json_ld ascii_runtime two_blocks_html
     = [JString (str "A short description.")].
Proof.
  assert (Hb : @json_ld_blocks ascii_runtime two_blocks_html
               = [str "{not json"; short_description]) by (vm_compute; reflexivity).
  assert (Hall : Forall (fun m => @json_loads ascii_runtime m <> OtherError)
                        (@json_ld_blocks ascii_runtime two_blocks_html)).
  { rewrite Hb. repeat constructor; vm_compute; discriminate. }
  split; [exact Hall|].
  rewrite (proj1 (@json_ld_blocks_in_order ascii_runtime two_blocks_html) Hall), Hb.
  vm_compute. reflexivity.
Defined.

(** C7 fails on the code. [deep_nesting_html] holds two structured-data
    blocks. The first is a mapping with a description: alone on a page, or
    followed by a block that is not valid JSON, it yields its description.
    The second nests deeper than the recursion limit: [json.loads] raises
    [RecursionError], which only the outer handler catches, and that
    handler returns the empty list, so the description of the first block
    is lost: a block that cannot be parsed prevents the processing of
    another one. *)
Theorem deep_block_discards_description :
  deep_nesting_html = ld_json_script short_description ++ ld_json_script deep_array
  /\ @block_values ascii_runtime short_description
     = [JString (str "A short description.")]
  /\ @json_loads ascii_runtime deep_array = OtherError
  /\ @json_loads ascii_runtime (str "{not json") = JSONDecodeError
  /\ @_extract_json_ld ascii_runtime (ld_json_script short_description)
     = [JString (str "A short description.")]
  /\ @_extract_json_ld ascii_runtime
       (ld_json_script short_description ++ ld_json_script (str "{not json"))
     = [JString (str "A short description.")]
  /\ @_extract_json_ld ascii_runtime deep_nesting_html = [].
Proof.
  split; [reflexivity|].
  repeat split; vm_compute; reflexivity.
Qed.

(** The pattern of [_extract_json_ld] asks for the type between double
    quotes and in lower case: a block that declares it between single
    quotes, or in upper case, is not found. *)
Example other_declarations_not_found :
  @_extract_json_ld ascii_runtime
    (str "<script type='application/ld+json'>" ++ short_description
     ++ str "</script>") = []
  /\ @_extract_json_ld ascii_runtime
       (str "<script type=" ++ [dq] ++ str "APPLICATION/LD+JSON" ++ [dq] ++ str ">"
        ++ short_description ++ str "</script>") = []
  /\ @_extract_json_ld ascii_runtime (ld_json_script short_description)
     = [JString (str "A short description.")].
Proof. repeat split; vm_compute; reflexivity. Qed.

(** ** Metadata *)

Section Metadata.
Context `{Runtime}.

Lemma match_at_digit (c : char) (s : pystr) :
  match_at no_flags (Chr Digit) (c :: s)
  = if uni_isdecimal c then Some (1%nat, None) else None.
Proof.
  unfold match_at. cbn. destruct (uni_isdecimal c); [|reflexivity].
  do 2 f_equal. lia.
Qed.

Lemma search_digit (t : pystr) :
  is_Some (re_search no_flags (Chr Digit) t)
  <-> exists c, c ∈ t /\ uni_isdecimal c = true.
Proof.
  unfold re_search. induction t as [|c t IH].
  - cbn. split; [intros [x Hx]; discriminate|].
    intros (c & Hc & _). by apply elem_of_nil in Hc.
  - cbn [scan]. rewrite match_at_digit.
    destruct (uni_isdecimal c) eqn:Hd.
    + cbn. split; [|by eauto]. intros _. exists c. split; [constructor|exact Hd].
    + cbn [flat_map app]. rewrite IH. split.
      * intros (d & Hin & Hdd). exists d. split; [by constructor|exact Hdd].
      * intros (d & Hin & Hdd). apply elem_of_cons in Hin as [->|Hin]; [congruence|].
        eauto.
Qed.

Lemma extract_some_nonempty (self : AbstractExtractor) (html t : pystr) :
  (extract self html).2 = Ok (Some t) -> t <> [].
Proof. intros Ht. eapply passes_quality_nonempty, extract_some_passes, Ht. Qed.

(** C9. [extract_with_metadata] returns [None] exactly when [extract]
    does; otherwise its record holds the text that [extract] returns with
    the length of that text, its number of words, its number of sentence
    segments and whether it contains a digit. It prints what [extract]
    prints and raises when [extract] raises: nothing is selected anew. *)
Theorem extract_with_metadata_wraps_extract (self : AbstractExtractor)
    (html : pystr) :
  ((extract_with_metadata self html).2 = Ok None <-> (extract self html).2 = Ok None)
  /\ (forall t, (extract self html).2 = Ok (Some t) ->
        exists md,
          (extract_with_metadata self html).2 = Ok (Some md)
          /\ md_abstract md = t
          /\ md_length md = len t
          /\ md_word_count md = len (str_split t)
          /\ md_sentence_count md = len (re_split no_flags sentence_end_pattern t)
          /\ (md_has_numbers md = true <->
              exists c, c ∈ t /\ uni_isdecimal c = true))
  /\ (forall e, (extract_with_metadata self html).2 = Raise e <->
                (extract self html).2 = Raise e)
  /\ (extract_with_metadata self html).1 = (extract self html).1.
Proof.
  pose proof (extract_some_nonempty self html) as Hne.
  unfold extract_with_metadata.
  destruct (extract self html) as [out [[[|c t]|]|e]]; cbn [fst snd] in *.
  - by destruct (Hne [] eq_refl).
  - split; [split; discriminate|]. split; [|split; [intros e; split; discriminate|done]].
    intros t' [= <-]. eexists. split; [reflexivity|]. cbn.
    repeat split; try reflexivity.
    + intros Hb. apply bool_decide_eq_true in Hb. by apply search_digit.
    + intros Hd. apply bool_decide_eq_true. by apply search_digit.
  - split; [done|]. split; [discriminate|]. split; [intros e; split; discriminate|done].
  - split; [split; discriminate|]. split; [discriminate|]. split; [|done].
    intros e'. split; intros [= ->]; reflexivity.
Qed.

End Metadata.

Lemma extract_with_metadata_wraps_extract_witness :
  (@extract ascii_runtime default_extractor three_abstracts_html).2
    = Ok (Some (prose 16))
  /\ exists md,
       (@extract_with_metadata ascii_runtime default_extractor
          three_abstracts_html).2 = Ok (Some md)
       /\ md_abstract md = prose 16
       /\ md_length md = 500%Z.
Proof.
  assert (Hx : (@extract ascii_runtime default_extractor three_abstracts_html).2
               = Ok (Some (prose 16))) by (vm_compute; reflexivity).
  split; [exact Hx|].
  destruct (proj1 (proj2 (@extract_with_metadata_wraps_extract ascii_runtime
                            default_extractor three_abstracts_html))
              (prose 16) Hx) as (md & Hmd & Ha & Hl & _).
  exists md. split; [exact Hmd|]. split; [exact Ha|]. rewrite Hl. reflexivity.
Defined.

(** ** Independence of [verbose] and of earlier calls *)

Section Independence.
Context `{Runtime}.



Lemma filter_loop_bounds (self1 self2 : AbstractExtractor) (l : list json) :
  min_length self1 = min_length self2 -> max_length self1 = max_length self2 ->
  forall acc, filter_loop self1 l acc = filter_loop self2 l acc.
Proof.
  intros Hmin Hmax. induction l as [|a l IH]; intros acc; cbn; [reflexivity|].
  destruct (_clean_html a) as [cleaned|e]; [|reflexivity].
  unfold length_ok. rewrite Hmin, Hmax, !IH. reflexivity.
Qed.




End Independence.


(** ** Exceptions *)

Section Totality.
Context `{Runtime}.

Lemma filter_loop_strings (self : AbstractExtractor) (l : list json) :
  Forall is_string l -> forall acc, exists r, filter_loop self l acc = Ok r.
Proof.
  induction 1 as [|a l [s ->] _ IH]; intros acc; cbn [filter_loop _clean_html];
    [by eexists|].
  destruct (negb (length_ok self (clean_text s))); [apply IH|].
  destruct (negb (word_count_ok (clean_text s))); [apply IH|].
  destruct (negb (sentences_ok (clean_text s))); [apply IH|].
  destruct (negb (uppercase_ok (clean_text s))); apply IH.
Qed.

(** The methods return whenever every candidate is a string, which is the
    case of the candidates of the structural patterns and of the meta
    tags. *)
Lemma extract_returns_on_strings (self : AbstractExtractor) (html : pystr) :
  Forall is_string (all_candidates html) ->
  (exists r, (extract self html).2 = Ok r)
  /\ (exists l, (extract_all self html).2 = Ok l).
Proof.
  intros Hs. rewrite extract_result, extract_all_result.
  destruct (filter_loop_strings self _ Hs []) as [r Hr].
  unfold _filter_quality_abstracts. rewrite Hr. split; by eexists.
Qed.

Lemma filter_loop_raises (self : AbstractExtractor) (l : list json) :
  Exists (fun v => ~ is_string v) l ->
  forall acc, filter_loop self l acc = Raise TypeError.
Proof.
  induction l as [|a l IH]; intros Hex acc; [by inversion Hex|].
  cbn [filter_loop]. destruct a as [| | |s| |];
    try reflexivity.
  assert (Hl : Exists (fun v => ~ is_string v) l).
  { inversion Hex as [? ? Hs|]; subst; [|assumption]. destruct Hs. by exists s. }
  cbn [_clean_html].
  destruct (negb (length_ok self (clean_text s))); [by apply IH|].
  destruct (negb (word_count_ok (clean_text s))); [by apply IH|].
  destruct (negb (sentences_ok (clean_text s))); [by apply IH|].
  destruct (negb (uppercase_ok (clean_text s))); by apply IH.
Qed.

(** They raise [TypeError] whenever some candidate is not a string, which
    only structured data can bring about. *)
Lemma extract_raises_on_non_string (self : AbstractExtractor) (html : pystr) :
  Exists (fun v => ~ is_string v) (all_candidates html) ->
  (extract self html).2 = Raise TypeError
  /\ (extract_all self html).2 = Raise TypeError.
Proof.
  intros Hex. rewrite extract_result, extract_all_result.
  unfold _filter_quality_abstracts. by rewrite (filter_loop_raises self _ Hex).
Qed.

End Totality.

(** C4. On a page whose structured data gives a number as [description]
    the three public methods raise [TypeError]: the number becomes a
    candidate and [_clean_html] hands it to [re.sub]. *)
Theorem number_description_raises :
  (@_extract_json_ld ascii_runtime number_description_html) = [JNumber 5]
  /\ (@extract ascii_runtime default_extractor number_description_html).2
     = Raise TypeError
  /\ (@extract_all ascii_runtime default_extractor number_description_html).2
     = Raise TypeError
  /\ (@extract_with_metadata ascii_runtime default_extractor
        number_description_html).2 = Raise TypeError.
Proof. repeat split; vm_compute; reflexivity. Qed.

(** ** The matcher *)

Lemma is_Some_or_else {A} (x y : option A) :
  is_Some (match x with Some a => Some a | None => y end) <-> is_Some x \/ is_Some y.
Proof.
  destruct x; split; eauto.
  - intros [[? [=]]|Hy]; exact Hy.
Qed.

Lemma or_is_Some_None {A} (P : Prop) : P \/ is_Some (@None A) <-> P.
Proof. split; [intros [?|[? [=]]]; assumption|by left]. Qed.

Lemma is_Some_None_congr {A B} : is_Some (@None A) <-> is_Some (@None B).
Proof. split; intros [? [=]]. Qed.

Lemma strip_backref_suffix (f : re_flags) (t : pystr) : forall s s',
  strip_backref f t s = Some s' -> s' `suffix_of` s.
Proof.
  induction t as [|a t IH]; intros s s' Hs; cbn in Hs.
  - by injection Hs as ->.
  - destruct s as [|b s]; [discriminate|].
    destruct (if IGNORECASE f then _ else _); [|discriminate].
    apply suffix_cons_r. by apply IH.
Qed.

Section MatcherFacts.
Context `{Runtime}.

Lemma star_greedy_congr {A B} (f : re_flags) (cs : cset)
    (k1 : pystr -> option A) (k2 : pystr -> option B) (s : pystr) :
  (forall s', is_Some (k1 s') <-> is_Some (k2 s')) ->
  is_Some (star_greedy f cs k1 s) <-> is_Some (star_greedy f cs k2 s).
Proof.
  intros Hk. induction s as [|x s IH]; cbn; [apply Hk|].
  destruct (cmatch f cs x); [|apply Hk].
  rewrite !is_Some_or_else, IH, (Hk (x :: s)). reflexivity.
Qed.

Lemma star_lazy_congr {A B} (f : re_flags) (cs : cset)
    (k1 : pystr -> option A) (k2 : pystr -> option B) (s : pystr) :
  (forall s', is_Some (k1 s') <-> is_Some (k2 s')) ->
  is_Some (star_lazy f cs k1 s) <-> is_Some (star_lazy f cs k2 s).
Proof.
  intros Hk. induction s as [|x s IH]; cbn.
  - rewrite !is_Some_or_else, !or_is_Some_None. apply Hk.
  - rewrite !is_Some_or_else, (Hk (x :: s)).
    destruct (cmatch f cs x); [by rewrite IH|].
    rewrite !or_is_Some_None. reflexivity.
Qed.

(** Whether a pattern matches does not depend on what the continuation
    returns, only on where it succeeds. *)
Lemma run_congr {A B} (f : re_flags) (r : regex) :
  forall (k1 : pystr -> capture -> option A)
         (k2 : pystr -> capture -> option B) s g,
    (forall s' g', is_Some (k1 s' g') <-> is_Some (k2 s' g')) ->
    is_Some (run f r k1 s g) <-> is_Some (run f r k2 s g).
Proof.
  induction r as [|cs|r1 IH1 r2 IH2|r1 IH1 r2 IH2|cs|cs|cs|r1 IH1| |r1 IH1|];
    intros k1 k2 s g Hk; cbn [run].
  - apply Hk.
  - destruct s as [|x s]; [apply is_Some_None_congr|].
    destruct (cmatch f cs x); [apply Hk|apply is_Some_None_congr].
  - apply IH1. intros s' g'. by apply IH2.
  - rewrite !is_Some_or_else, (IH1 k1 k2 s g Hk), (IH2 k1 k2 s g Hk). reflexivity.
  - apply star_greedy_congr. intros s'. apply Hk.
  - apply star_lazy_congr. intros s'. apply Hk.
  - destruct s as [|x s]; [apply Hk|]. destruct (cmatch f cs x); [|apply Hk].
    rewrite !is_Some_or_else, (Hk s g), (Hk (x :: s) g). reflexivity.
  - apply IH1. intros s' g'. apply Hk.
  - destruct (group_text g) as [t|]; [|apply is_Some_None_congr].
    destruct (strip_backref f t s); [apply Hk|apply is_Some_None_congr].
  - destruct (run f r1 (fun _ g' => Some g') s g); [apply Hk|apply is_Some_None_congr].
  - destruct s as [|c [|d s]]; [apply Hk| |apply is_Some_None_congr].
    destruct (c =? 10); [apply Hk|apply is_Some_None_congr].
Qed.

Lemma star_greedy_inv {A} (f : re_flags) (cs : cset) (k : pystr -> option A)
    (s : pystr) (a : A) :
  star_greedy f cs k s = Some a ->
  exists s', s' `suffix_of` s /\ k s' = Some a.
Proof.
  induction s as [|x s IH]; cbn; intros Ha.
  - by exists [].
  - destruct (cmatch f cs x); [|by exists (x :: s)].
    destruct (star_greedy f cs k s) as [b|] eqn:E.
    + injection Ha as ->. destruct (IH eq_refl) as (s' & Hs' & Hk).
      exists s'. split; [by apply suffix_cons_r|exact Hk].
    + by exists (x :: s).
Qed.

Lemma star_lazy_inv {A} (f : re_flags) (cs : cset) (k : pystr -> option A)
    (s : pystr) (a : A) :
  star_lazy f cs k s = Some a ->
  exists s', s' `suffix_of` s /\ k s' = Some a.
Proof.
  induction s as [|x s IH]; cbn; intros Ha.
  - destruct (k []) eqn:E; [|discriminate]. injection Ha as ->. by exists [].
  - destruct (k (x :: s)) eqn:E.
    + injection Ha as ->. by exists (x :: s).
    + destruct (cmatch f cs x); [|discriminate].
      destruct (IH Ha) as (s' & Hs' & Hk). exists s'. split; [by apply suffix_cons_r|exact Hk].
Qed.

(** A successful match hands a suffix of the subject to its continuation. *)
Lemma run_inv {A} (f : re_flags) (r : regex) :
  forall (k : pystr -> capture -> option A) s g a,
    run f r k s g = Some a ->
    exists s' g', s' `suffix_of` s /\ k s' g' = Some a.
Proof.
  induction r as [|cs|r1 IH1 r2 IH2|r1 IH1 r2 IH2|cs|cs|cs|r1 IH1| |r1 IH1|];
    intros k s g a; cbn [run]; intros Ha.
  - by exists s, g.
  - destruct s as [|x s]; [discriminate|]. destruct (cmatch f cs x); [|discriminate].
    exists s, g. split; [by apply suffix_cons_r|exact Ha].
  - apply IH1 in Ha as (s1 & g1 & Hs1 & Ha). apply IH2 in Ha as (s2 & g2 & Hs2 & Ha).
    exists s2, g2. split; [by etransitivity|exact Ha].
  - destruct (run f r1 k s g) as [b|] eqn:E.
    + injection Ha as ->. by apply IH1 in E.
    + by apply IH2 in Ha.
  - apply star_greedy_inv in Ha as (s' & Hs' & Ha). by exists s', g.
  - apply star_lazy_inv in Ha as (s' & Hs' & Ha). by exists s', g.
  - destruct s as [|x s]; [by exists [], g|].
    destruct (cmatch f cs x); [|by exists (x :: s), g].
    destruct (k s g) as [b|] eqn:E.
    + injection Ha as ->. exists s, g. split; [by apply suffix_cons_r|exact E].
    + by exists (x :: s), g.
  - apply IH1 in Ha as (s' & g' & Hs' & Ha). eauto.
  - destruct (group_text g) as [t|]; [|discriminate].
    destruct (strip_backref f t s) as [s'|] eqn:E; [|discriminate].
    exists s', g. split; [by eapply strip_backref_suffix|exact Ha].
  - destruct (run f r1 (fun _ g' => Some g') s g) as [g'|]; [|discriminate].
    by exists s, g'.
  - destruct s as [|c [|d s]]; [by exists [], g| |discriminate].
    destruct (c =? 10); [|discriminate]. by exists [c], g.
Qed.

(** A literal string is matched character by character. *)
Lemma run_lits {A} (f : re_flags) (w : pystr) :
  forall (k : pystr -> capture -> option A) s g,
    run f (lits w) k s g
    = match strip_lit f w s with
      | Some s' => k s' g
      | None => None
      end.
Proof.
  induction w as [|c w IH]; intros k s g; [reflexivity|].
  cbn [lits foldr run strip_lit]. destruct s as [|x s]; [reflexivity|].
  cbn [cmatch]. destruct (literal f c x); [apply IH|reflexivity].
Qed.

Lemma strip_lit_app (f : re_flags) (w : pystr) : forall s s' b,
  strip_lit f w s = Some s' -> strip_lit f w (s ++ b) = Some (s' ++ b).
Proof.
  induction w as [|c w IH]; intros s s' b Hs; cbn in *.
  - by injection Hs as ->.
  - destruct s as [|x s]; [discriminate|]. cbn.
    destruct (literal f c x); [by apply IH|discriminate].
Qed.

Lemma strip_lit_exact (w : pystr) : forall s s',
  strip_lit no_flags w s = Some s' -> s = w ++ s'.
Proof.
  induction w as [|c w IH]; intros s s' Hs; cbn in *.
  - by injection Hs as ->.
  - destruct s as [|x s]; [discriminate|]. unfold literal in Hs. cbn in Hs.
    destruct (N.eqb_spec x c) as [->|]; [|discriminate].
    f_equal. by apply IH.
Qed.

(** ** The scan *)

Lemma match_at_le (f : re_flags) (r : regex) (s : pystr) (n : nat) (g : option pystr) :
  match_at f r s = Some (n, g) -> (n <= length s)%nat.
Proof.
  unfold match_at. intros Hm. apply run_inv in Hm as (s' & g' & _ & [= <- _]). lia.
Qed.

Lemma scan_skip (f : re_flags) (r : regex) (n : nat) : forall s,
  (n <= length s)%nat -> scan f r n s = scan f r 0 (drop n s).
Proof.
  induction n as [|n IH]; intros s Hn; [reflexivity|].
  destruct s as [|x s]; [cbn in Hn; lia|].
  cbn [scan drop]. apply IH. cbn in Hn. lia.
Qed.

Lemma scan_miss (f : re_flags) (r : regex) (c : char) (s : pystr) :
  match_at f r (c :: s) = None ->
  scan f r 0 (c :: s) = Keep c :: scan f r 0 s.
Proof. intros Hm. cbn [scan]. by rewrite Hm. Qed.

Lemma scan_hit (f : re_flags) (r : regex) (s : pystr) (n : nat) (g : option pystr) :
  match_at f r s = Some (S n, g) ->
  scan f r 0 s = Hit (take (S n) s) g :: scan f r 0 (drop (S n) s).
Proof.
  intros Hm. pose proof (match_at_le _ _ _ _ _ Hm) as Hle.
  destruct s as [|x s]; [cbn in Hle; lia|].
  cbn [scan]. rewrite Hm. f_equal. cbn [drop].
  apply scan_skip. cbn in Hle. lia.
Qed.

(** A pattern that matches at no position leaves the subject as it is. *)
Lemma re_sub_id (f : re_flags) (r : regex) (repl s : pystr) :
  (forall s', s' `suffix_of` s -> match_at f r s' = None) ->
  re_sub f r repl s = s.
Proof.
  unfold re_sub. induction s as [|c s IH]; intros Hno.
  - cbn. by rewrite (Hno [] (suffix_nil _)).
  - rewrite scan_miss by (by apply Hno). cbn. f_equal.
    apply IH. intros s' Hs'. apply Hno. by apply suffix_cons_r.
Qed.

End MatcherFacts.

(** ** Whitespace *)

Lemma spaced_app_l (s1 s2 : pystr) : spaced (s1 ++ s2) -> spaced s1.
Proof.
  induction s1 as [|c s1 IH]; cbn; [done|].
  intros [Hc Hs]. split; [|by apply IH].
  intros Hw. destruct (Hc Hw) as [-> Hn]. split; [reflexivity|].
  by destruct s1.
Qed.

Lemma spaced_app_r (s1 s2 : pystr) : spaced (s1 ++ s2) -> spaced s2.
Proof. induction s1 as [|c s1 IH]; cbn; [done|]. intros [_ Hs]. by apply IH. Qed.

Lemma spaced_no_newline (s : pystr) : spaced s -> 10 ∉ s.
Proof.
  induction s as [|c s IH]; cbn; intros Hs Hin; [by apply elem_of_nil in Hin|].
  destruct Hs as [Hc Hs]. apply elem_of_cons in Hin as [<-|Hin]; [|by apply IH].
  by destruct (Hc eq_refl).
Qed.

Lemma str_lstrip_suffix (s : pystr) : str_lstrip s `suffix_of` s.
Proof.
  induction s as [|c s IH]; cbn; [reflexivity|].
  destruct (isspace c); [by apply suffix_cons_r|reflexivity].
Qed.

Lemma str_lstrip_head (s : pystr) :
  match head (str_lstrip s) with Some c => isspace c = false | None => True end.
Proof.
  induction s as [|c s IH]; cbn; [done|].
  destruct (isspace c) eqn:E; [exact IH|exact E].
Qed.

Lemma str_rstrip_cons (c : char) (s : pystr) :
  str_rstrip (c :: s)
  = match str_rstrip s with
    | [] => if isspace c then [] else [c]
    | _ => c :: str_rstrip s
    end.
Proof. reflexivity. Qed.

Lemma str_rstrip_prefix (s : pystr) : str_rstrip s `prefix_of` s.
Proof.
  induction s as [|c s IH]; [reflexivity|]. rewrite str_rstrip_cons.
  destruct (str_rstrip s) as [|y l].
  - destruct (isspace c); [apply prefix_nil|]. by apply prefix_cons, prefix_nil.
  - by apply prefix_cons.
Qed.

Lemma str_rstrip_last (s : pystr) :
  match last (str_rstrip s) with Some c => isspace c = false | None => True end.
Proof.
  induction s as [|c s IH]; [done|]. rewrite str_rstrip_cons.
  destruct (str_rstrip s) as [|y l].
  - destruct (isspace c) eqn:E; [done|exact E].
  - exact IH.
Qed.

Lemma str_rstrip_head (s : pystr) :
  match head s with Some c => isspace c = false | None => True end ->
  match head (str_rstrip s) with Some c => isspace c = false | None => True end.
Proof.
  destruct s as [|c s]; [done|]. rewrite str_rstrip_cons. cbn. intros Hc.
  destruct (str_rstrip s); [by rewrite Hc|exact Hc].
Qed.

Lemma str_strip_trimmed (s : pystr) : trimmed (str_strip s).
Proof.
  split; [apply str_rstrip_head, str_lstrip_head|apply str_rstrip_last].
Qed.

Lemma str_strip_spaced (s : pystr) : spaced s -> spaced (str_strip s).
Proof.
  intros Hs. unfold str_strip.
  destruct (str_rstrip_prefix (str_lstrip s)) as [post Hpost].
  destruct (str_lstrip_suffix s) as [pre Hpre].
  rewrite Hpre in Hs. apply spaced_app_r in Hs. rewrite Hpost in Hs.
  by apply spaced_app_l in Hs.
Qed.

Lemma str_rstrip_id (s : pystr) :
  match last s with Some c => isspace c = false | None => True end ->
  str_rstrip s = s.
Proof.
  induction s as [|c s IH]; [done|]. rewrite str_rstrip_cons.
  destruct s as [|y l].
  - cbn. by intros ->.
  - intros Hl. rewrite IH by exact Hl. reflexivity.
Qed.

Lemma str_strip_id (s : pystr) : trimmed s -> str_strip s = s.
Proof.
  intros [Hh Hl]. unfold str_strip.
  assert (Hls : str_lstrip s = s).
  { destruct s as [|c s]; [done|]. cbn in *. by rewrite Hh. }
  rewrite Hls. by apply str_rstrip_id.
Qed.

Lemma span_le (p : char -> bool) (s : pystr) : (span p s <= length s)%nat.
Proof. induction s as [|c s IH]; cbn; [lia|]. destruct (p c); cbn; lia. Qed.

Lemma span_drop_head (p : char -> bool) (s : pystr) :
  match head (drop (span p s) s) with Some c => p c = false | None => True end.
Proof.
  induction s as [|c s IH]; cbn; [done|].
  destruct (p c) eqn:E; [exact IH|exact E].
Qed.

Section PatternFacts.
Context `{Runtime}.

Lemma star_greedy_total {A} (f : re_flags) (cs : cset) (k : pystr -> option A)
    (s : pystr) :
  (forall s', is_Some (k s')) ->
  star_greedy f cs k s = k (drop (span (cmatch f cs) s) s).
Proof.
  intros Hk. induction s as [|x s IH]; cbn; [reflexivity|].
  destruct (cmatch f cs x); [|reflexivity].
  rewrite IH. cbn. by destruct (Hk (drop (span (cmatch f cs) s) s)) as [a ->].
Qed.

(** [\s+] matches a maximal run of whitespace. *)
Lemma match_at_spaces (x : char) (s : pystr) :
  match_at no_flags spaces_pattern (x :: s)
  = if isspace x then Some (S (span isspace s), None) else None.
Proof.
  unfold match_at, spaces_pattern, Plus. cbn [run cmatch].
  destruct (isspace x); [|reflexivity].
  rewrite star_greedy_total by (intros s'; by eexists).
  change (cmatch no_flags Space) with isspace.
  pose proof (span_le isspace s). rewrite length_drop. cbn [length].
  do 2 f_equal. lia.
Qed.

Lemma re_sub_spaces_cons (x : char) (s : pystr) :
  re_sub no_flags spaces_pattern [32] (x :: s)
  = if isspace x
    then 32 :: re_sub no_flags spaces_pattern [32] (drop (span isspace s) s)
    else x :: re_sub no_flags spaces_pattern [32] s.
Proof.
  unfold re_sub. pose proof (match_at_spaces x s) as Hm.
  destruct (isspace x).
  - rewrite (scan_hit _ _ _ _ _ Hm). reflexivity.
  - rewrite (scan_miss _ _ _ _ Hm). reflexivity.
Qed.

Lemma re_sub_spaces_nil : re_sub no_flags spaces_pattern [32] [] = [].
Proof. reflexivity. Qed.

Lemma re_sub_spaces_spaced_aux (n : nat) : forall s,
  (length s <= n)%nat ->
  spaced (re_sub no_flags spaces_pattern [32] s)
  /\ (match head s with Some c => isspace c = false | None => True end ->
      match head (re_sub no_flags spaces_pattern [32] s) with
      | Some c => isspace c = false
      | None => True
      end).
Proof.
  induction n as [|n IH]; intros s Hn.
  - destruct s; [|cbn in Hn; lia]. rewrite re_sub_spaces_nil. by split.
  - destruct s as [|x s]; [rewrite re_sub_spaces_nil; by split|].
    rewrite re_sub_spaces_cons. cbn in Hn.
    destruct (isspace x) eqn:Hx.
    + pose proof (span_le isspace s) as Hsp.
      destruct (IH (drop (span isspace s) s)) as [Hs Hh].
      { rewrite length_drop. lia. }
      split; [|cbn; intros Hf; congruence].
      cbn [spaced]. split; [|exact Hs]. intros _. split; [reflexivity|].
      specialize (Hh (span_drop_head isspace s)).
      by destruct (re_sub no_flags spaces_pattern [32] (drop (span isspace s) s)).
    + destruct (IH s ltac:(lia)) as [Hs _].
      split; [|cbn; intros _; exact Hx].
      cbn [spaced]. split; [intros Hw; congruence|exact Hs].
Qed.

Lemma re_sub_spaces_spaced (s : pystr) :
  spaced (re_sub no_flags spaces_pattern [32] s).
Proof. apply (re_sub_spaces_spaced_aux (length s) s). lia. Qed.

Lemma re_sub_spaces_id (s : pystr) :
  spaced s -> re_sub no_flags spaces_pattern [32] s = s.
Proof.
  induction s as [|x s IH]; [reflexivity|]. cbn [spaced]. intros [Hx Hs].
  rewrite re_sub_spaces_cons. destruct (isspace x).
  - destruct (Hx eq_refl) as [-> Hn]. f_equal.
    destruct s as [|d s]; [reflexivity|]. cbn [span]. rewrite Hn. cbn [drop].
    by apply IH.
  - f_equal. by apply IH.
Qed.

End PatternFacts.

(** ** Patterns that open with a literal *)

Lemma literal_uncased (f : re_flags) (c x : char) :
  iscased c = false -> literal f c x = (x =? c).
Proof.
  intros Hc. unfold literal, literal_ignore. rewrite Hc. by destruct (IGNORECASE f).
Qed.

Lemma not_elem_head (c : char) (s s' : pystr) :
  c ∉ s -> s' `suffix_of` s -> head s' <> Some c.
Proof.
  intros Hc [pre ->] Hh. destruct s' as [|x s']; [discriminate|].
  injection Hh as ->. apply Hc, elem_of_app. right. constructor.
Qed.

Section LiteralHead.
Context `{Runtime}.

Lemma match_at_head_miss (f : re_flags) (c : char) (w : pystr) (rest : regex)
    (s : pystr) :
  iscased c = false -> head s <> Some c ->
  match_at f (Seq (lits (c :: w)) rest) s = None.
Proof.
  intros Hc Hs. unfold match_at. cbn [run]. rewrite run_lits.
  destruct s as [|x s]; [reflexivity|]. cbn [strip_lit].
  rewrite literal_uncased by exact Hc.
  destruct (N.eqb_spec x c) as [->|]; [by destruct Hs|reflexivity].
Qed.

(** A pattern that opens with the character [c] leaves a text without [c]
    as it is. *)
Lemma re_sub_head_miss (f : re_flags) (c : char) (w : pystr) (rest : regex)
    (repl s : pystr) :
  iscased c = false -> c ∉ s ->
  re_sub f (Seq (lits (c :: w)) rest) repl s = s.
Proof.
  intros Hc Hs. apply re_sub_id. intros s' Hs'.
  apply match_at_head_miss; [exact Hc|]. by eapply not_elem_head.
Qed.

End LiteralHead.

Lemma strip_prefix_head_miss (c : char) (w s : pystr) :
  head s <> Some c -> strip_prefix (c :: w) s = None.
Proof.
  destruct s as [|x s]; [reflexivity|]. cbn. intros Hx.
  destruct (N.eqb_spec c x) as [->|]; [by destruct Hx|reflexivity].
Qed.

Lemma str_replace_id (c : char) (w new s : pystr) :
  c ∉ s -> str_replace (c :: w) new s = s.
Proof.
  unfold str_replace. induction s as [|x s IH]; intros Hc; [reflexivity|].
  cbn [str_replace_from].
  rewrite strip_prefix_head_miss.
  - f_equal. apply IH. intros Hin. apply Hc. by constructor.
  - cbn. intros [= ->]. apply Hc. constructor.
Qed.

Lemma foldl_replace_id (entities : list (pystr * pystr)) (s : pystr) :
  Forall (fun e => head e.1 = Some 38) entities -> 38 ∉ s ->
  foldl (fun text '(entity, char) => str_replace entity char text) s entities = s.
Proof.
  intros He Hs. induction He as [|[entity char] entities Hh _ IH]; [reflexivity|].
  cbn [foldl]. destruct entity as [|c w]; [discriminate|].
  injection Hh as ->. by rewrite str_replace_id.
Qed.

Lemma html_entities_id (s : pystr) :
  38 ∉ s ->
  foldl (fun text '(entity, char) => str_replace entity char text) s html_entities = s.
Proof. apply foldl_replace_id. unfold html_entities. repeat constructor. Qed.

(** ** Patterns anchored at the end *)

Lemma cut_spec (p : pystr -> bool) (s : pystr) :
  exists rest,
    s = cut p s ++ rest
    /\ (rest <> [] -> p rest = true)
    /\ (forall s1 s2, cut p s = s1 ++ s2 -> s2 <> [] -> p (s2 ++ rest) = false).
Proof.
  induction s as [|c s IH].
  - cbn. destruct (p []) eqn:E; exists []; repeat split; try done;
      intros [|? ?] [|? ?]; done.
  - cbn [cut]. destruct (p (c :: s)) eqn:E.
    + exists (c :: s). repeat split; try done. intros [|? ?] [|? ?]; done.
    + destruct IH as (rest & Heq & Hrest & Hcut). exists rest. repeat split.
      * cbn. by rewrite <- Heq.
      * exact Hrest.
      * intros [|x s1] s2 Hs Hne.
        -- cbn in Hs. subst s2. cbn. by rewrite <- Heq.
        -- injection Hs as <- Hs. by apply Hcut with s1.
Qed.

Section Anchored.
Context `{Runtime}.

Lemma hits_is_Some (f : re_flags) (r : regex) (s : pystr) :
  hits f r s = true <-> is_Some (match_at f r s).
Proof.
  unfold hits. destruct (match_at f r s); split; done.
Qed.

Lemma hits_false (f : re_flags) (r : regex) (s : pystr) :
  hits f r s = false <-> match_at f r s = None.
Proof. unfold hits. by destruct (match_at f r s). Qed.

(** Whether [r] matches at the head of [s], for any continuation that
    always succeeds. *)
Lemma hits_run {A} (f : re_flags) (r : regex)
    (k : pystr -> capture -> option A) (s : pystr) :
  (forall s' g', is_Some (k s' g')) ->
  hits f r s = true <-> is_Some (run f r k s None).
Proof.
  intros Hk. rewrite hits_is_Some. unfold match_at. apply run_congr.
  intros s' g'. split; intros _; [apply Hk|by eexists].
Qed.

(** A pattern that opens with [\s*] also matches one whitespace character
    earlier. *)
Lemma hits_space_before (f : re_flags) (r : regex) (c : char) (s : pystr) :
  isspace c = true ->
  hits f (Seq (Star Space) r) s = true ->
  hits f (Seq (Star Space) r) (c :: s) = true.
Proof.
  intros Hc. rewrite !(hits_run f _ (fun _ _ => Some tt)) by (intros; by eexists).
  cbn [run star_greedy cmatch]. rewrite Hc. intros Hs.
  apply is_Some_or_else. by left.
Qed.

Lemma eos_inv {A} (s : pystr) (x : option A) (a : A) :
  match s with
  | [] => x
  | [c] => if c =? 10 then x else None
  | _ => None
  end = Some a ->
  (s = [] \/ s = [10]) /\ x = Some a.
Proof.
  destruct s as [|c [|d s]]; [by auto| |discriminate].
  destruct (N.eqb_spec c 10) as [->|]; [by auto|discriminate].
Qed.

Lemma suffix_no_newline (s s' : pystr) :
  10 ∉ s -> s' `suffix_of` s -> s' = [] \/ s' = [10] -> s' = [].
Proof.
  intros Hs [pre ->] [->| ->]; [reflexivity|].
  exfalso. apply Hs, elem_of_app. right. constructor.
Qed.

(** On a text without newline a match of [show_more_pattern], and one of
    [ellipsis_pattern], runs to the end of the text. *)
Lemma show_more_to_end (s : pystr) (n : nat) (g : option pystr) :
  10 ∉ s -> match_at flags_I show_more_pattern s = Some (n, g) -> n = length s.
Proof.
  intros Hs. unfold match_at, show_more_pattern, cat. cbn [foldr]. intros Hm.
  cbn [run] in Hm.
  apply star_greedy_inv in Hm as (s1 & Hs1 & Hm).
  apply run_inv in Hm as (s2 & g2 & Hs2 & Hm).
  apply star_greedy_inv in Hm as (s3 & Hs3 & Hm).
  apply eos_inv in Hm as [Hend [= <- _]].
  assert (Hs3' : s3 `suffix_of` s) by (by repeat (etransitivity; [eassumption|])).
  rewrite (suffix_no_newline s s3 Hs Hs3' Hend). cbn. lia.
Qed.

Lemma ellipsis_to_end (s : pystr) (n : nat) (g : option pystr) :
  10 ∉ s -> match_at no_flags ellipsis_pattern s = Some (n, g) ->
  n = length s /\ str "..." `suffix_of` s.
Proof.
  intros Hs. unfold match_at, ellipsis_pattern, cat. cbn [foldr]. intros Hm.
  cbn [run] in Hm.
  apply star_greedy_inv in Hm as (s1 & Hs1 & Hm).
  unfold Str in Hm. rewrite run_lits in Hm.
  destruct (strip_lit no_flags (str "...") s1) as [s2|] eqn:Hlit; [|discriminate].
  apply strip_lit_exact in Hlit.
  apply eos_inv in Hm as [Hend [= <- _]].
  assert (Hs2 : s2 `suffix_of` s).
  { etransitivity; [|exact Hs1]. rewrite Hlit. by apply suffix_app_r. }
  rewrite (suffix_no_newline s s2 Hs Hs2 Hend) in *.
  split; [cbn; lia|]. rewrite app_nil_r in Hlit. by rewrite <- Hlit.
Qed.

(** Replacing by nothing the matches of a pattern that runs to the end
    cuts the text at the first match. *)
Lemma re_sub_cut (f : re_flags) (r : regex) (s : pystr) :
  (forall s' n g, s' `suffix_of` s -> match_at f r s' = Some (n, g) -> n = length s') ->
  re_sub f r [] s = cut (hits f r) s.
Proof.
  unfold re_sub, hits. induction s as [|c s IH]; intros Hend.
  - cbn. by destruct (match_at f r []) as [[n g]|].
  - cbn [cut]. destruct (match_at f r (c :: s)) as [[n g]|] eqn:Hm.
    + pose proof (Hend _ _ _ (reflexivity _) Hm) as ->.
      cbn [length] in Hm. rewrite (scan_hit _ _ _ _ _ Hm).
      change (drop (S (length s)) (c :: s)) with (drop (length s) s).
      rewrite drop_all. cbn. by destruct (match_at f r []) as [[n g']|].
    + rewrite (scan_miss _ _ _ _ Hm). cbn [flat_map app]. f_equal.
      apply IH. intros s' n g Hs'. apply Hend. by apply suffix_cons_r.
Qed.

(** A text in normal form cut at the first match of a pattern that opens
    with [\s*] is in normal form. *)
Lemma cut_normal (f : re_flags) (r : regex) (s : pystr) :
  spaced s -> trimmed s ->
  spaced (cut (hits f (Seq (Star Space) r)) s)
  /\ trimmed (cut (hits f (Seq (Star Space) r)) s).
Proof.
  intros Hsp [Hhd Hlast].
  destruct (cut_spec (hits f (Seq (Star Space) r)) s) as (rest & Heq & Hrest & Hcut).
  set (v := cut (hits f (Seq (Star Space) r)) s) in *.
  split; [rewrite Heq in Hsp; by apply spaced_app_l in Hsp|].
  split.
  - destruct v as [|x v']; [done|]. rewrite Heq in Hhd. exact Hhd.
  - destruct (last v) as [c|] eqn:Hl; [|done].
    apply last_Some in Hl as [v' Hv]. destruct (isspace c) eqn:Hc; [|reflexivity].
    exfalso. destruct rest as [|y rest].
    + rewrite app_nil_r in Heq. rewrite Heq, Hv, last_snoc in Hlast. congruence.
    + specialize (Hcut v' [c] Hv ltac:(done)).
      change ([c] ++ y :: rest) with (c :: y :: rest) in Hcut.
      rewrite (hits_space_before f r c (y :: rest) Hc (Hrest ltac:(done))) in Hcut.
      discriminate.
Qed.

End Anchored.

(** ** The normaliser *)

Lemma strip_lit_suffix (f : re_flags) (w : pystr) : forall s s',
  strip_lit f w s = Some s' -> s' `suffix_of` s.
Proof.
  induction w as [|c w IH]; intros s s' Hs; cbn in Hs.
  - by injection Hs as ->.
  - destruct s as [|x s]; [discriminate|].
    destruct (literal f c x); [|discriminate].
    apply suffix_cons_r. by apply IH.
Qed.

Lemma not_elem_suffix_app (c : char) (s s' b : pystr) :
  c ∉ s ++ b -> s' `suffix_of` s -> c ∉ s' ++ b.
Proof.
  intros Hc [pre ->] Hin. apply Hc. rewrite <- app_assoc.
  apply elem_of_app. by right.
Qed.

Section Normaliser.
Context `{Runtime}.

Lemma run_seq_star {A} (f : re_flags) (cs : cset) (r : regex)
    (k : pystr -> capture -> option A) (s : pystr) (g : capture) :
  run f (Seq (Star cs) r) k s g = star_greedy f cs (fun s' => run f r k s' g) s.
Proof. reflexivity. Qed.

Lemma run_seq_lits {A} (f : re_flags) (w : pystr) (r : regex)
    (k : pystr -> capture -> option A) (s : pystr) (g : capture) :
  run f (Seq (lits w) r) k s g
  = match strip_lit f w s with
    | Some s' => run f r k s' g
    | None => None
    end.
Proof. cbn [run]. apply run_lits. Qed.

Lemma star_greedy_fallback {A} (f : re_flags) (cs : cset) (k : pystr -> option A)
    (s : pystr) :
  is_Some (k s) -> is_Some (star_greedy f cs k s).
Proof.
  intros Hk. destruct s as [|x s]; cbn; [exact Hk|].
  destruct (cmatch f cs x); [|exact Hk]. apply is_Some_or_else. by right.
Qed.

Lemma star_greedy_ext {A} (f : re_flags) (cs : cset) (k : pystr -> option A)
    (a b : pystr) :
  (forall s', s' `suffix_of` a -> is_Some (k s') -> is_Some (k (s' ++ b))) ->
  is_Some (star_greedy f cs k a) -> is_Some (star_greedy f cs k (a ++ b)).
Proof.
  induction a as [|x a IH]; intros Hk.
  - cbn. intros Ha. apply star_greedy_fallback. by apply (Hk []).
  - cbn. destruct (cmatch f cs x).
    + rewrite !is_Some_or_else. intros [Ha|Ha].
      * left. apply IH; [|exact Ha]. intros s' Hs'. apply Hk. by apply suffix_cons_r.
      * right. by apply (Hk (x :: a)).
    + by apply (Hk (x :: a)).
Qed.

Lemma star_any_eos {A} (f : re_flags) (k : pystr -> capture -> option A)
    (s : pystr) (g : capture) :
  10 ∉ s -> is_Some (k [] g) ->
  is_Some (star_greedy f Any (fun s' => run f (Seq Eos Eps) k s' g) s).
Proof.
  intros Hs Hk. induction s as [|x s IH]; [exact Hk|].
  cbn [star_greedy cmatch].
  assert (Hx : (x =? 10) = false).
  { apply N.eqb_neq. intros ->. apply Hs. constructor. }
  rewrite Hx, Bool.orb_true_r. apply is_Some_or_else. left.
  apply IH. intros Hin. apply Hs. by constructor.
Qed.

(** A match of [show_more_pattern] remains one when the text goes on,
    without newline. *)
Lemma hits_show_more_ext (a b : pystr) :
  10 ∉ a ++ b ->
  hits flags_I show_more_pattern a = true ->
  hits flags_I show_more_pattern (a ++ b) = true.
Proof.
  intros Hnl. rewrite !(hits_run _ _ (fun _ _ => Some tt)) by (intros; by eexists).
  unfold show_more_pattern, cat, Str. cbn [foldr]. rewrite !run_seq_star.
  apply star_greedy_ext. intros s1 Hs1. rewrite !run_seq_lits.
  destruct (strip_lit flags_I (str "Show More") s1) as [s2|] eqn:Hlit;
    [|by intros [? [=]]].
  rewrite (strip_lit_app _ _ _ _ b Hlit). intros _. rewrite run_seq_star.
  apply star_any_eos; [|by eexists].
  eapply not_elem_suffix_app; [exact Hnl|].
  etransitivity; [|exact Hs1]. by eapply strip_lit_suffix.
Qed.

(** The last four steps of [_clean_html] leave a text in normal form:
    single spaces, no whitespace at either end, no match of
    [show_more_pattern], and no match of [ellipsis_pattern] unless the text
    still ends with three dots. *)
Lemma tail_steps_normal (x : pystr) :
  let t := re_sub no_flags ellipsis_pattern []
             (re_sub flags_I show_more_pattern []
                (str_strip (re_sub no_flags spaces_pattern [32] x))) in
  spaced t /\ trimmed t
  /\ (forall s', s' `suffix_of` t -> match_at flags_I show_more_pattern s' = None)
  /\ (~ str "..." `suffix_of` t ->
      forall s', s' `suffix_of` t -> match_at no_flags ellipsis_pattern s' = None).
Proof.
  set (u := str_strip (re_sub no_flags spaces_pattern [32] x)).
  assert (Hu_sp : spaced u) by apply str_strip_spaced, re_sub_spaces_spaced.
  assert (Hu_tr : trimmed u) by apply str_strip_trimmed.
  assert (Hu_nl : 10 ∉ u) by by apply spaced_no_newline.
  assert (Hsuf : forall a b : pystr, 10 ∉ b -> a `suffix_of` b -> 10 ∉ a).
  { intros a b Hb [pre ->] Hin. apply Hb, elem_of_app. by right. }
  (* the Show More step *)
  rewrite (re_sub_cut flags_I show_more_pattern u)
    by (intros s' n g Hs'; apply show_more_to_end; by eapply Hsuf).
  destruct (cut_normal flags_I
              (cat [Str "Show More"; Star Any; Eos]) u Hu_sp Hu_tr) as [Hv_sp Hv_tr].
  destruct (cut_spec (hits flags_I show_more_pattern) u)
    as (rest_v & Hu_eq & _ & Hv_cut).
  change (hits flags_I (Seq (Star Space) (cat [Str "Show More"; Star Any; Eos])))
    with (hits flags_I show_more_pattern) in *.
  set (v := cut (hits flags_I show_more_pattern) u) in *.
  assert (Hv_nl : 10 ∉ v).
  { intros Hin. apply Hu_nl. rewrite Hu_eq. apply elem_of_app. by left. }
  assert (Hv_free : forall s', s' `suffix_of` v ->
            hits flags_I show_more_pattern s' = false).
  { intros s2 [s1 Hv]. destruct s2 as [|c s2]; [reflexivity|].
    destruct (hits flags_I show_more_pattern (c :: s2)) eqn:Hh; [|reflexivity].
    rewrite <- (Hv_cut s1 (c :: s2) Hv ltac:(done)). symmetry.
    apply hits_show_more_ext; [|exact Hh].
    apply (Hsuf _ u Hu_nl). exists s1. by rewrite Hu_eq, Hv, <- app_assoc. }
  (* the ellipsis step *)
  rewrite (re_sub_cut no_flags ellipsis_pattern v)
    by (intros s' n g Hs' Hm; eapply ellipsis_to_end; [by eapply Hsuf|exact Hm]).
  destruct (cut_normal no_flags (cat [Str "..."; Eos]) v Hv_sp Hv_tr)
    as [Ht_sp Ht_tr].
  destruct (cut_spec (hits no_flags ellipsis_pattern) v)
    as (rest_t & Hv_eq & _ & _).
  change (hits no_flags (Seq (Star Space) (cat [Str "..."; Eos])))
    with (hits no_flags ellipsis_pattern) in *.
  set (t := cut (hits no_flags ellipsis_pattern) v) in *.
  assert (Ht_nl : 10 ∉ t).
  { intros Hin. apply Hv_nl. rewrite Hv_eq. apply elem_of_app. by left. }
  cbv zeta. split; [exact Ht_sp|]. split; [exact Ht_tr|]. split.
  - intros s2 [s1 Ht]. apply hits_false.
    destruct (hits flags_I show_more_pattern s2) eqn:Hh; [|reflexivity].
    rewrite <- (Hv_free (s2 ++ rest_t)).
    + symmetry. apply hits_show_more_ext; [|exact Hh].
      apply (Hsuf _ v Hv_nl). exists s1. by rewrite Hv_eq, Ht, <- app_assoc.
    + exists s1. by rewrite Hv_eq, Ht, <- app_assoc.
  - intros Hdots s2 Hs2.
    destruct (match_at no_flags ellipsis_pattern s2) as [[n g]|] eqn:Hm; [|reflexivity].
    exfalso. apply Hdots.
    apply ellipsis_to_end in Hm as [_ Hm]; [|by eapply Hsuf].
    by etransitivity.
Qed.

Lemma block_sub_id (f : re_flags) (tag : string) (s : pystr) :
  60 ∉ s -> re_sub f (block tag) [] s = s.
Proof.
  intros Hs.
  apply (re_sub_head_miss f 60 []
           (cat [Str tag; Star (Not (chr ">")); Str ">"; LazyStar Any;
                 Str "</"; Str tag; Str ">"]) [] s eq_refl Hs).
Qed.

Lemma bloat_sub_id (s : pystr) : 60 ∉ s -> re_sub flags_IS bloat_pattern [] s = s.
Proof.
  intros Hs.
  apply (re_sub_head_miss flags_IS 60 []
           (cat [Group (Alt (Str "noscript") (Alt (Str "iframe") (Str "embed")));
                 Star (Not (chr ">")); Str ">"; LazyStar Any; Str "</";
                 Backref; Str ">"]) [] s eq_refl Hs).
Qed.

Lemma comment_sub_id (s : pystr) : 60 ∉ s -> re_sub flags_S comment_pattern [] s = s.
Proof.
  intros Hs.
  apply (re_sub_head_miss flags_S 60 (str "!--")
           (cat [LazyStar Any; Str "-->"]) [] s eq_refl Hs).
Qed.

Lemma tag_sub_id (s : pystr) : 60 ∉ s -> re_sub no_flags tag_pattern [] s = s.
Proof.
  intros Hs.
  apply (re_sub_head_miss no_flags 60 []
           (cat [Plus (Not (chr ">")); Str ">"]) [] s eq_refl Hs).
Qed.

Lemma entity_sub_id (s : pystr) : 38 ∉ s -> re_sub no_flags entity_pattern [] s = s.
Proof.
  intros Hs.
  apply (re_sub_head_miss no_flags 38 []
           (cat [Opt (Lit (chr "#")); Plus Word; Str ";"]) [] s eq_refl Hs).
Qed.

(** A text in normal form without [<] and without [&] is a fixed point of
    the normaliser. *)
Lemma clean_text_fixed (t : pystr) :
  60 ∉ t -> 38 ∉ t -> spaced t -> trimmed t ->
  (forall s', s' `suffix_of` t -> match_at flags_I show_more_pattern s' = None) ->
  (forall s', s' `suffix_of` t -> match_at no_flags ellipsis_pattern s' = None) ->
  clean_text t = t.
Proof.
  intros Hlt Hamp Hsp Htr Hsm Hel. unfold clean_text. cbv zeta.
  rewrite (block_sub_id flags_IS "script" t Hlt).
  rewrite (block_sub_id flags_IS "style" t Hlt).
  rewrite (bloat_sub_id t Hlt), (comment_sub_id t Hlt), (tag_sub_id t Hlt).
  rewrite (html_entities_id t Hamp), (entity_sub_id t Hamp).
  rewrite (re_sub_spaces_id t Hsp), (str_strip_id t Htr).
  rewrite (re_sub_id flags_I show_more_pattern [] t Hsm).
  apply (re_sub_id no_flags ellipsis_pattern [] t Hel).
Qed.

Lemma clean_text_normal (s : pystr) :
  let t := clean_text s in
  spaced t /\ trimmed t
  /\ (forall s', s' `suffix_of` t -> match_at flags_I show_more_pattern s' = None)
  /\ (~ str "..." `suffix_of` t ->
      forall s', s' `suffix_of` t -> match_at no_flags ellipsis_pattern s' = None).
Proof.
  unfold clean_text. cbv zeta.
  set (x := re_sub no_flags entity_pattern [] _).
  change (str " ") with [32].
  exact (tail_steps_normal x).
Qed.

End Normaliser.

(** C3, as amended. A text that the normaliser returns is a fixed point of
    the normaliser provided it contains neither [<] nor [&] and does not
    end with three dots. *)
Theorem clean_html_fixed_point `{Runtime} (s t : pystr) :
  _clean_html (JString s) = Ok t ->
  chr "<" ∉ t -> chr "&" ∉ t -> ~ str "..." `suffix_of` t ->
  _clean_html (JString t) = Ok t.
Proof.
  cbn [_clean_html]. intros [= Ht] Hlt Hamp Hdots. f_equal.
  pose proof (clean_text_normal s) as Hn. cbv zeta in Hn. rewrite Ht in Hn.
  destruct Hn as (Hsp & Htr & Hsm & Hel).
  exact (clean_text_fixed t Hlt Hamp Hsp Htr Hsm (Hel Hdots)).
Qed.

Lemma clean_html_fixed_point_witness :
  @_clean_html ascii_runtime (JString (str "  Hello <b>world</b>,  this is it ..."))
    = Ok (str "Hello world, this is it")
  /\ @_clean_html ascii_runtime (JString (str "Hello world, this is it"))
     = Ok (str "Hello world, this is it").
Proof.
  assert (Hrun : @_clean_html ascii_runtime
                   (JString (str "  Hello <b>world</b>,  this is it ..."))
                 = Ok (str "Hello world, this is it")) by (vm_compute; reflexivity).
  split; [exact Hrun|].
  apply (@clean_html_fixed_point ascii_runtime _ _ Hrun).
  - apply (bool_decide_unpack _). vm_compute. exact I.
  - apply (bool_decide_unpack _). vm_compute. exact I.
  - apply (bool_decide_unpack _). vm_compute. exact I.
Defined.

(** C3, as stated, fails: normalising twice is not normalising once. The
    first pass removes one ellipsis from [a......] and the second pass
    another one. *)
Lemma clean_html_not_idempotent :
  @_clean_html ascii_runtime (JString (str "a......")) = Ok (str "a...")
  /\ @_clean_html ascii_runtime (JString (str "a...")) = Ok (str "a")
  /\ ~ (forall s t : pystr,
          @_clean_html ascii_runtime (JString s) = Ok t ->
          @_clean_html ascii_runtime (JString t) = Ok t).
Proof.
  assert (H1 : @_clean_html ascii_runtime (JString (str "a......")) = Ok (str "a..."))
    by (vm_compute; reflexivity).
  assert (H2 : @_clean_html ascii_runtime (JString (str "a...")) = Ok (str "a"))
    by (vm_compute; reflexivity).
  split; [exact H1|]. split; [exact H2|].
  intros Hidem. specialize (Hidem _ _ H1). rewrite H2 in Hidem. discriminate.
Qed.

(** A second pass also strips the tag that decoding [&lt;] and [&gt;] has
    produced, and removes the entity that the removal of another entity
    has put together: the three conditions of the amended statement are
    needed. *)
Example clean_html_decoded_tag :
  @_clean_html ascii_runtime (JString (str "&lt;b&gt;x")) = Ok (str "<b>x")
  /\ @_clean_html ascii_runtime (JString (str "<b>x")) = Ok (str "x").
Proof. split; vm_compute; reflexivity. Qed.

Example clean_html_assembled_entity :
  @_clean_html ascii_runtime (JString (str "&a&b;b;")) = Ok (str "&ab;")
  /\ @_clean_html ascii_runtime (JString (str "&ab;")) = Ok [].
Proof. split; vm_compute; reflexivity. Qed.

(** * Further properties *)

(** ** Deduplication: what is kept *)

Lemma dedup_spec_sublist (l : list pystr) : forall accepted,
  exists kept, dedup_spec accepted l = accepted ++ kept /\ kept `sublist_of` l.
Proof.
  induction l as [|t l IH]; intros accepted; cbn.
  - exists []. by rewrite app_nil_r.
  - destruct (existsb (within_50 t) accepted).
    + destruct (IH accepted) as (kept & -> & Hs). exists kept.
      split; [reflexivity|by apply sublist_cons].
    + destruct (IH (accepted ++ [t])) as (kept & -> & Hs). exists (t :: kept).
      split; [by rewrite <- app_assoc|by apply sublist_skip].
Qed.

Lemma far_apart_tail (x : pystr) (l : list pystr) : far_apart (x :: l) -> far_apart l.
Proof. intros Hf i j a b Hij Hi Hj. apply (Hf (S i) (S j)); auto. Qed.

Lemma far_apart_existsb (accepted l : list pystr) (t : pystr) :
  far_apart (accepted ++ t :: l) -> existsb (within_50 t) accepted = false.
Proof.
  intros Hf. apply Bool.not_true_iff_false. intros Hex.
  apply existsb_exists in Hex as (a & Ha & Hw).
  apply list_elem_of_In, list_elem_of_lookup_1 in Ha as [i Hi].
  pose proof (lookup_lt_Some _ _ _ Hi) as Hlt.
  destruct (Hf i (length accepted) a t) as [Hd _].
  - lia.
  - by rewrite lookup_app_l.
  - by rewrite list_lookup_middle.
  - unfold within_50 in Hw. apply Z.ltb_lt in Hw. lia.
Qed.

Lemma dedup_spec_id (l : list pystr) : forall accepted,
  far_apart (accepted ++ l) -> dedup_spec accepted l = accepted ++ l.
Proof.
  induction l as [|t l IH]; intros accepted Hf; cbn; [by rewrite app_nil_r|].
  rewrite (far_apart_existsb _ _ _ Hf).
  rewrite IH; rewrite <- app_assoc; [reflexivity|exact Hf].
Qed.

(** X1. [_remove_duplicates] only drops texts: what it returns is the input
    with some texts left out, in the order of the input; the first text of
    the input is always kept, and the result is empty only for an empty
    input. *)
Theorem remove_duplicates_sublist (l : list pystr) :
  _remove_duplicates l `sublist_of` l
  /\ (forall x l', l = x :: l' -> exists tl, _remove_duplicates l = x :: tl)
  /\ (_remove_duplicates l = [] <-> l = []).
Proof.
  rewrite remove_duplicates_spec.
  assert (Hhd : forall x l', l = x :: l' -> exists tl, dedup_spec [] l = x :: tl).
  { intros x l' ->. cbn. destruct (dedup_spec_prefix l' [x]) as [tl ->]. by exists tl. }
  split; [|split].
  - destruct (dedup_spec_sublist l []) as (kept & -> & Hs). exact Hs.
  - exact Hhd.
  - split; [|by intros ->].
    destruct l as [|x l']; [done|]. destruct (Hhd x l' eq_refl) as [tl ->]. done.
Qed.

(** X2. Deduplicating twice is deduplicating once, and the lists that
    [_remove_duplicates] leaves unchanged are those in which any two texts
    differ in length by at least 50. *)
Theorem remove_duplicates_idempotent (l : list pystr) :
  _remove_duplicates (_remove_duplicates l) = _remove_duplicates l
  /\ (_remove_duplicates l = l <-> far_apart l).
Proof.
  assert (Hid : forall l', far_apart l' -> _remove_duplicates l' = l').
  { intros l' Hf. rewrite remove_duplicates_spec. by apply (dedup_spec_id l' []). }
  split.
  - apply Hid, remove_duplicates_far_apart.
  - split; [|apply Hid]. intros <-. apply remove_duplicates_far_apart.
Qed.

(** ** The Quality Filter as a filter *)

Section FilterShape.
Context `{Runtime}.

Lemma quality_ok_step (self : AbstractExtractor) (s : pystr) (rest : list json)
    (acc : list pystr) :
  filter_loop self (JString s :: rest) acc
  = filter_loop self rest
      (if quality_ok self (clean_text s) then acc ++ [clean_text s] else acc).
Proof.
  cbn [filter_loop _clean_html]. unfold quality_ok.
  destruct (length_ok self (clean_text s)); [|reflexivity].
  destruct (word_count_ok (clean_text s)); [|reflexivity].
  destruct (sentences_ok (clean_text s)); [|reflexivity].
  destruct (uppercase_ok (clean_text s)); reflexivity.
Qed.

Lemma filter_loop_filter (self : AbstractExtractor) (texts : list pystr) :
  forall acc,
    filter_loop self (map JString texts) acc
    = Ok (acc ++ filter (fun t => quality_ok self t = true) (map clean_text texts)).
Proof.
  induction texts as [|s texts IH]; intros acc.
  - cbn. by rewrite app_nil_r.
  - rewrite !fmap_cons, quality_ok_step, IH.
    destruct (quality_ok self (clean_text s)) eqn:E.
    + rewrite filter_cons_True by exact E. by rewrite <- app_assoc.
    + rewrite filter_cons_False; [reflexivity|]. rewrite E. discriminate.
Qed.

Lemma is_string_dec (l : list json) :
  Forall is_string l \/ Exists (fun v => ~ is_string v) l.
Proof.
  induction l as [|v l [IH|IH]].
  - left. constructor.
  - destruct v; try (right; constructor; intros [s Hs]; discriminate).
    left. constructor; [by eexists|exact IH].
  - right. by constructor 2.
Qed.

Lemma strings_map (l : list json) :
  Forall is_string l -> exists texts, l = map JString texts.
Proof.
  induction 1 as [|v l [s ->] _ [texts ->]]; [by exists []|]. by exists (s :: texts).
Qed.

(** X3. On candidates that are all strings, [_filter_quality_abstracts] is a
    filter: it returns the cleaned candidates that pass the four checks,
    each as often as it occurs and in the order of the candidates. *)
Theorem filter_quality_is_filter (self : AbstractExtractor) (texts : list pystr) :
  _filter_quality_abstracts self (map JString texts)
  = Ok (filter (fun t => quality_ok self t = true) (map clean_text texts)).
Proof. exact (filter_loop_filter self texts []). Qed.

(** X4. [_filter_quality_abstracts] raises exactly when one of the candidates
    is not a string, whatever the other candidates and the bounds are, and
    what it raises is [TypeError]. *)
Theorem filter_quality_raises_iff (self : AbstractExtractor) (l : list json) :
  (_filter_quality_abstracts self l = Raise TypeError
   <-> Exists (fun v => ~ is_string v) l)
  /\ ((exists r, _filter_quality_abstracts self l = Ok r) <-> Forall is_string l)
  /\ (forall e, _filter_quality_abstracts self l = Raise e -> e = TypeError).
Proof.
  unfold _filter_quality_abstracts.
  destruct (is_string_dec l) as [Hs|Hn].
  - destruct (filter_loop_strings self l Hs []) as [r Hr]. rewrite Hr.
    split; [|split].
    + split; [discriminate|]. intros Hex. exfalso.
      apply Exists_exists in Hex as (v & Hv & Hnv).
      rewrite Forall_forall in Hs. exact (Hnv (Hs v Hv)).
    + split; [by intros _|by intros _; exists r].
    + discriminate.
  - rewrite (filter_loop_raises self l Hn []).
    split; [|split].
    + by split.
    + split; [by intros [r Hr]|]. intros Hs. exfalso.
      apply Exists_exists in Hn as (v & Hv & Hnv).
      rewrite Forall_forall in Hs. exact (Hnv (Hs v Hv)).
    + by intros e [= <-].
Qed.

End FilterShape.

(** ** Selection and order on every page *)

Lemma candidate_texts_strings (texts : list pystr) :
  candidate_texts (map JString texts) = texts.
Proof.
  unfold candidate_texts. induction texts as [|t texts IH]; [reflexivity|].
  cbn. by f_equal.
Qed.

Section EveryPage.
Context `{Runtime}.

Lemma qualifies_quality_ok (self : AbstractExtractor) (t : pystr) :
  qualifies self t = quality_ok self t.
Proof.
  unfold qualifies, quality_ok, length_ok, word_count_ok, sentences_ok,
    long_sentences, uppercase_ok, upper_count.
  f_equal; [f_equal; [f_equal|]|].
  - destruct (Z.leb_spec (min_length self) (len t)),
      (Z.leb_spec (len t) (max_length self)),
      (Z.ltb_spec (len t) (min_length self)),
      (Z.ltb_spec (max_length self) (len t)); cbn; try reflexivity; lia.
  - destruct (Z.leb_spec 10 (len (str_split t))),
      (Z.leb_spec (len (str_split t)) 1000),
      (Z.ltb_spec (len (str_split t)) 10),
      (Z.ltb_spec 1000 (len (str_split t))); cbn; try reflexivity; lia.
  - match goal with |- (2 <=? ?n)%Z = negb (?n <? 2)%Z =>
      destruct (Z.leb_spec 2 n), (Z.ltb_spec n 2); cbn; try reflexivity; lia end.
  - destruct t as [|c t]; [reflexivity|].
    match goal with |- (?a <=? ?b)%Z = negb (?b <? ?a)%Z =>
      destruct (Z.leb_spec a b), (Z.ltb_spec b a); cbn; try reflexivity; lia end.
Qed.

(** The test is the Quality Filter of the specification. *)
Lemma qualifies_spec (self : AbstractExtractor) (t : pystr) :
  qualifies self t = true <-> passes_quality self t.
Proof.
  unfold qualifies. rewrite !andb_true_iff, !Z.leb_le. split.
  - intros [[[[? ?] [? ?]] ?] ?]. by constructor.
  - intros [[? ?] [? ?] ? ?]. auto.
Qed.

Lemma filter_quality_on_strings (self : AbstractExtractor) (html : pystr) :
  Forall is_string (all_candidates html) ->
  _filter_quality_abstracts self (all_candidates html)
  = Ok (filter (fun t => qualifies self t = true)
               (map clean_text (candidate_texts (all_candidates html)))).
Proof.
  intros Hs. apply strings_map in Hs as [texts ->].
  unfold _filter_quality_abstracts.
  rewrite filter_loop_filter, candidate_texts_strings. cbn [app]. f_equal.
  apply list_filter_iff. intros t. by rewrite qualifies_quality_ok.
Qed.

Lemma remove_duplicates_survivors (self : AbstractExtractor) (html : pystr) :
  _remove_duplicates
    (filter (fun t => qualifies self t = true)
            (map clean_text (candidate_texts (all_candidates html))))
  = survivors self html.
Proof. apply remove_duplicates_spec. Qed.

(** C2. On every page [extract] does one of two things. When every
    candidate of the page is a string, it returns [None] exactly when no
    candidate survives filtering and deduplication, and otherwise the
    survivor that is strictly longer than every survivor generated before
    it and at least as long as every survivor generated after it: the
    longest one, the earliest among equals. When some candidate is not a
    string it raises [TypeError], whatever survives. *)
Theorem extract_returns_first_longest (self : AbstractExtractor) (html : pystr) :
  (Forall is_string (all_candidates html) ->
     ((extract self html).2 = Ok None /\ survivors self html = [])
     \/ (exists before best after,
           (extract self html).2 = Ok (Some best)
           /\ survivors self html = before ++ best :: after
           /\ Forall (fun x => (len x < len best)%Z) before
           /\ Forall (fun x => (len x <= len best)%Z) after))
  /\ (Exists (fun v => ~ is_string v) (all_candidates html) ->
      (extract self html).2 = Raise TypeError).
Proof.
  split.
  - intros Hs.
    rewrite extract_result, (filter_quality_on_strings self html Hs),
      remove_duplicates_survivors.
    destruct (survivors self html) as [|x l]; [by left|right].
    destruct (first_longest_split l x) as (before & after & Heq & Hb & Ha).
    exists before, (first_longest x l), after. auto.
  - intros Hex. exact (proj1 (extract_raises_on_non_string self html Hex)).
Qed.

(** C5. On every page [extract_all] does one of two things. When every
    candidate of the page is a string, it returns the candidates that
    survive filtering and deduplication, all of them and no other text,
    each at least as long as those after it: three survivors of lengths
    200, 500 and 350 come out in the order 500, 350, 200, and without
    survivor the list is empty. When some candidate is not a string it
    raises [TypeError], whatever survives. *)
Theorem extract_all_sorted_longest_first (self : AbstractExtractor) (html : pystr) :
  (Forall is_string (all_candidates html) ->
     exists l,
       (extract_all self html).2 = Ok l
       /\ l ≡ₚ survivors self html
       /\ StronglySorted longer_eq l
       /\ (survivors self html = [] -> l = [])
       /\ (forall a b c, survivors self html = [a; b; c] ->
             len a = 200%Z -> len b = 500%Z -> len c = 350%Z -> l = [b; c; a]))
  /\ (Exists (fun v => ~ is_string v) (all_candidates html) ->
      (extract_all self html).2 = Raise TypeError).
Proof.
  split.
  - intros Hs.
    rewrite extract_all_result, (filter_quality_on_strings self html Hs),
      remove_duplicates_survivors.
    exists (sort_by_len_reverse (survivors self html)).
    split; [reflexivity|]. split; [apply sort_by_len_reverse_perm|].
    split; [apply sort_by_len_reverse_strongly_sorted|]. split.
    + by intros ->.
    + intros a b c ->. apply sort_three.
  - intros Hex. exact (proj2 (extract_raises_on_non_string self html Hex)).
Qed.

End EveryPage.

Lemma three_abstracts_candidates :
  @all_candidates ascii_runtime three_abstracts_html
  = map JString [abstract_div (prose 6); abstract_div (prose 16);
                 abstract_div (prose 11); abstract_div (prose 6);
                 abstract_div (prose 16); abstract_div (prose 11)].
Proof. vm_compute. reflexivity. Qed.

Lemma strings_are_strings (texts : list pystr) : Forall is_string (map JString texts).
Proof. apply Forall_fmap, Forall_forall. intros t _. by exists t. Qed.

Lemma extract_returns_first_longest_witness :
  Forall is_string (@all_candidates ascii_runtime three_abstracts_html)
  /\ @survivors ascii_runtime default_extractor three_abstracts_html
     = [prose 6; prose 16; prose 11]
  /\ (@extract ascii_runtime default_extractor three_abstracts_html).2
     = Ok (Some (prose 16))
  /\ (((@extract ascii_runtime default_extractor three_abstracts_html).2 = Ok None
       /\ @survivors ascii_runtime default_extractor three_abstracts_html = [])
      \/ (exists before best after,
            (@extract ascii_runtime default_extractor three_abstracts_html).2
              = Ok (Some best)
            /\ @survivors ascii_runtime default_extractor three_abstracts_html
               = before ++ best :: after
            /\ Forall (fun x => (len x < len best)%Z) before
            /\ Forall (fun x => (len x <= len best)%Z) after)).
Proof.
  assert (Hs : Forall is_string (@all_candidates ascii_runtime three_abstracts_html)).
  { rewrite three_abstracts_candidates. apply strings_are_strings. }
  split; [exact Hs|]. split; [vm_compute; reflexivity|].
  split; [vm_compute; reflexivity|].
  exact (proj1 (@extract_returns_first_longest ascii_runtime default_extractor
                  three_abstracts_html) Hs).
Defined.

(** C2 fails on the code: on [abstract_and_number_html] the abstract of 200
    characters survives filtering and deduplication, and [extract] returns
    it when the page holds nothing else; beside the block whose description
    is the number 5, [extract] raises [TypeError] and returns nothing. *)
Lemma extract_loses_surviving_abstract :
  @all_candidates ascii_runtime abstract_and_number_html
    = [JString (abstract_div (prose 6)); JString (abstract_div (prose 6)); JNumber 5]
  /\ @survivors ascii_runtime default_extractor abstract_and_number_html = [prose 6]
  /\ (@extract ascii_runtime default_extractor (abstract_div (prose 6))).2
     = Ok (Some (prose 6))
  /\ (@extract ascii_runtime default_extractor abstract_and_number_html).2
     = Raise TypeError.
Proof. repeat split; vm_compute; reflexivity. Qed.

Lemma extract_all_sorted_longest_first_witness :
  Forall is_string (@all_candidates ascii_runtime three_abstracts_html)
  /\ @survivors ascii_runtime default_extractor three_abstracts_html
     = [prose 6; prose 16; prose 11]
  /\ exists l,
       (@extract_all ascii_runtime default_extractor three_abstracts_html).2 = Ok l
       /\ l = [prose 16; prose 11; prose 6].
Proof.
  assert (Hs : Forall is_string (@all_candidates ascii_runtime three_abstracts_html)).
  { rewrite three_abstracts_candidates. apply strings_are_strings. }
  assert (Hv : @survivors ascii_runtime default_extractor three_abstracts_html
               = [prose 6; prose 16; prose 11]) by (vm_compute; reflexivity).
  split; [exact Hs|]. split; [exact Hv|].
  destruct (proj1 (@extract_all_sorted_longest_first ascii_runtime default_extractor
                     three_abstracts_html) Hs) as (l & Hl & _ & _ & _ & H3).
  exists l. split; [exact Hl|].
  apply (H3 _ _ _ Hv); vm_compute; reflexivity.
Defined.

(** C5 fails on the code: on [abstract_and_number_html] one text survives
    filtering and deduplication, and [extract_all] returns it when the page
    holds nothing else; beside the block whose description is the number 5,
    [extract_all] raises [TypeError] and returns no list. *)
Lemma extract_all_loses_surviving_abstract :
  @all_candidates ascii_runtime abstract_and_number_html
    = [JString (abstract_div (prose 6)); JString (abstract_div (prose 6)); JNumber 5]
  /\ @survivors ascii_runtime default_extractor abstract_and_number_html = [prose 6]
  /\ (@extract_all ascii_runtime default_extractor (abstract_div (prose 6))).2
     = Ok [prose 6]
  /\ (@extract_all ascii_runtime default_extractor abstract_and_number_html).2
     = Raise TypeError.
Proof. repeat split; vm_compute; reflexivity. Qed.

(** ** Ten words take nineteen characters *)

Lemma str_split_from_length (s : pystr) : forall w,
  (2 * length (str_split_from w s)
   <= length s + match w with [] => 1 | _ => 2 end)%nat.
Proof.
  induction s as [|c s IH]; intros w; cbn [str_split_from].
  - destruct w; cbn; lia.
  - destruct (isspace c).
    + destruct w; [specialize (IH []); cbn in *; lia|].
      specialize (IH []). cbn in *. lia.
    + specialize (IH (c :: w)). destruct w; cbn in *; lia.
Qed.

Lemma str_split_length (s : pystr) : (2 * len (str_split s) <= len s + 1)%Z.
Proof.
  unfold len, str_split. pose proof (str_split_from_length s []). cbn in *. lia.
Qed.

(** ** Bounds on what is returned *)

Section Surfaced.
Context `{Runtime}.

Lemma extract_all_surfaced (self : AbstractExtractor) (html : pystr) (l : list pystr) :
  (extract_all self html).2 = Ok l ->
  Forall (passes_quality self) l /\ far_apart l /\ StronglySorted longer_eq l.
Proof.
  rewrite extract_all_result.
  destruct (_filter_quality_abstracts self (all_candidates html)) as [filtered|e] eqn:E;
    [|discriminate].
  intros [= <-]. split; [|split].
  - rewrite sort_by_len_reverse_perm.
    apply filter_quality_passes in E. rewrite Forall_forall in E.
    apply Forall_forall. intros x Hx. by apply E, remove_duplicates_from.
  - apply (far_apart_perm (_remove_duplicates filtered)).
    + symmetry. apply sort_by_len_reverse_perm.
    + apply remove_duplicates_far_apart.
  - apply sort_by_len_reverse_strongly_sorted.
Qed.

(** X5. A text that [extract] or [extract_all] returns has at least ten words,
    hence at least 19 characters, also when [min_length] is smaller. *)
Theorem surfaced_text_at_least_19_characters (self : AbstractExtractor)
    (html : pystr) :
  (forall t, (extract self html).2 = Ok (Some t) -> (19 <= len t)%Z)
  /\ (forall l, (extract_all self html).2 = Ok l ->
        Forall (fun t => (19 <= len t)%Z) l).
Proof.
  assert (Hq : forall t, passes_quality self t -> (19 <= len t)%Z).
  { intros t [_ [Hw _] _ _]. pose proof (str_split_length t). lia. }
  split.
  - intros t Ht. by apply Hq, (extract_some_passes self html).
  - intros l Hl. apply extract_all_surfaced in Hl as [Hl _].
    eapply Forall_impl; [exact Hl|exact Hq].
Qed.

Lemma sorted_gap (lo : Z) (l : list pystr) : forall x,
  StronglySorted longer_eq (x :: l) -> far_apart (x :: l) ->
  Forall (fun y => (lo <= len y)%Z) (x :: l) ->
  (lo + 50 * len l <= len x)%Z.
Proof.
  induction l as [|y l IH]; intros x Hs Hf Hlo.
  - inversion Hlo; subst. unfold len at 1. cbn. lia.
  - inversion Hs as [|? ? Hs' Hx]; subst. inversion Hlo as [|? ? _ Hlo']; subst.
    specialize (IH y Hs' (far_apart_tail _ _ Hf) Hlo').
    inversion Hx as [|? ? Hxy _]; subst. unfold longer_eq in Hxy.
    destruct (Hf 0%nat 1%nat x y) as [Hd _]; [lia|reflexivity|reflexivity|].
    unfold len in *. cbn [length] in *. lia.
Qed.

(** X6. [extract_all] returns at most [(max_length - min_length) / 50 + 1]
    texts, 100 with the default bounds: the lengths of the texts lie
    between the bounds and any two differ by at least 50. With
    [max_length < min_length] it returns none. *)
Theorem extract_all_count_bounded (self : AbstractExtractor) (html : pystr)
    (l : list pystr) :
  (extract_all self html).2 = Ok l ->
  l = [] \/ (min_length self <= max_length self
             /\ len l <= (max_length self - min_length self) / 50 + 1)%Z.
Proof.
  intros Hl. apply extract_all_surfaced in Hl as (Hq & Hf & Hs).
  destruct l as [|x l]; [by left|right].
  assert (Hlo : Forall (fun y => (min_length self <= len y)%Z) (x :: l)).
  { eapply Forall_impl; [exact Hq|]. by intros t [[? ?] _ _ _]. }
  pose proof (sorted_gap _ _ _ Hs Hf Hlo) as Hgap.
  inversion Hq as [|? ? [[_ Hmax] _ _ _] _]; subst.
  split; [unfold len in *; lia|].
  assert (len l <= (max_length self - min_length self) / 50)%Z.
  { apply Z.div_le_lower_bound; lia. }
  unfold len in *. cbn [length]. lia.
Qed.

(** X7. The record that [extract_with_metadata] returns describes a text that
    passed the filter: its length lies between the bounds, it has between
    ten and a thousand words and at least two sentence segments, and the
    length is at least twice the word count minus one. *)
Theorem metadata_within_bounds (self : AbstractExtractor) (html : pystr)
    (md : metadata) :
  (extract_with_metadata self html).2 = Ok (Some md) ->
  (min_length self <= md_length md <= max_length self)%Z
  /\ (10 <= md_word_count md <= 1000)%Z
  /\ (2 <= md_sentence_count md)%Z
  /\ (2 * md_word_count md - 1 <= md_length md)%Z
  /\ md_length md = len (md_abstract md).
Proof.
  unfold extract_with_metadata.
  destruct (extract self html) as [out [[[|c t]|]|e]] eqn:E; cbn [snd];
    try discriminate.
  intros [= <-]. cbn [md_length md_word_count md_sentence_count md_abstract].
  assert (Hq : passes_quality self (c :: t)).
  { apply (extract_some_passes self html). by rewrite E. }
  destruct Hq as [Hlen Hw Hsent _].
  split; [exact Hlen|]. split; [exact Hw|]. split; [|split].
  - etransitivity; [exact Hsent|]. unfold len. apply inj_le, length_filter.
  - pose proof (str_split_length (c :: t)). lia.
  - reflexivity.
Qed.

Lemma filter_quality_from_candidates (self : AbstractExtractor) (l : list json)
    (r : list pystr) :
  _filter_quality_abstracts self l = Ok r ->
  Forall (fun t => exists s, JString s ∈ l /\ _clean_html (JString s) = Ok t) r.
Proof.
  intros Hr.
  assert (Hs : Forall is_string l).
  { destruct (is_string_dec l) as [Hs|Hn]; [exact Hs|].
    unfold _filter_quality_abstracts in Hr.
    rewrite (filter_loop_raises self l Hn []) in Hr. discriminate. }
  apply strings_map in Hs as [texts ->].
  unfold _filter_quality_abstracts in Hr. rewrite filter_loop_filter in Hr.
  injection Hr as <-. apply Forall_forall. intros t Ht.
  apply list_elem_of_filter in Ht as [_ Ht].
  apply list_elem_of_fmap in Ht as (s & -> & Hs).
  exists s. split; [by apply list_elem_of_fmap_2|reflexivity].
Qed.

(** X21. [extract] and [extract_all] return nothing but cleaned candidates:
    every text that they return is what [_clean_html] makes of a candidate
    of the document, and that candidate is a string. *)
Theorem surfaced_text_is_cleaned_candidate (self : AbstractExtractor) (html : pystr) :
  (forall t, (extract self html).2 = Ok (Some t) ->
     exists s, JString s ∈ all_candidates html /\ _clean_html (JString s) = Ok t)
  /\ (forall l, (extract_all self html).2 = Ok l ->
        Forall (fun t => exists s, JString s ∈ all_candidates html
                                   /\ _clean_html (JString s) = Ok t) l).
Proof.
  rewrite extract_result, extract_all_result.
  destruct (_filter_quality_abstracts self (all_candidates html)) as [filtered|e] eqn:E;
    [|split; intros; discriminate].
  apply filter_quality_from_candidates in E. rewrite Forall_forall in E.
  split.
  - intros t Ht. apply E, remove_duplicates_from.
    destruct (_remove_duplicates filtered) as [|x u]; [discriminate|].
    injection Ht as <-. apply first_longest_elem.
  - intros l [= <-]. apply Forall_forall. intros t Ht. apply E, remove_duplicates_from.
    by rewrite sort_by_len_reverse_perm in Ht.
Qed.

End Surfaced.

Lemma surfaced_text_is_cleaned_candidate_witness :
  (@extract ascii_runtime default_extractor three_abstracts_html).2
    = Ok (Some (prose 16))
  /\ exists s, JString s ∈ @all_candidates ascii_runtime three_abstracts_html
               /\ @_clean_html ascii_runtime (JString s) = Ok (prose 16).
Proof.
  assert (Hrun : (@extract ascii_runtime default_extractor three_abstracts_html).2
                 = Ok (Some (prose 16))) by (vm_compute; reflexivity).
  split; [exact Hrun|].
  exact (proj1 (@surfaced_text_is_cleaned_candidate ascii_runtime default_extractor
                  three_abstracts_html) _ Hrun).
Defined.

Lemma surfaced_text_at_least_19_characters_witness :
  (@extract ascii_runtime default_extractor three_abstracts_html).2
    = Ok (Some (prose 16))
  /\ (19 <= len (prose 16))%Z.
Proof.
  assert (Hrun : (@extract ascii_runtime default_extractor three_abstracts_html).2
                 = Ok (Some (prose 16))) by (vm_compute; reflexivity).
  split; [exact Hrun|].
  exact (proj1 (@surfaced_text_at_least_19_characters ascii_runtime default_extractor
                  three_abstracts_html) _ Hrun).
Defined.

Lemma extract_all_count_bounded_witness :
  (@extract_all ascii_runtime default_extractor three_abstracts_html).2
    = Ok [prose 16; prose 11; prose 6]
  /\ ([prose 16; prose 11; prose 6] = []
      \/ (50 <= 5000 /\ len [prose 16; prose 11; prose 6] <= (5000 - 50) / 50 + 1)%Z).
Proof.
  assert (Hrun : (@extract_all ascii_runtime default_extractor three_abstracts_html).2
                 = Ok [prose 16; prose 11; prose 6]) by (vm_compute; reflexivity).
  split; [exact Hrun|].
  exact (@extract_all_count_bounded ascii_runtime default_extractor
           three_abstracts_html _ Hrun).
Defined.

Lemma metadata_within_bounds_witness :
  (@extract_with_metadata ascii_runtime default_extractor three_abstracts_html).2
    = Ok (Some {| md_abstract := prose 16; md_length := 500; md_word_count := 100;
                  md_sentence_count := 18; md_has_numbers := false |})
  /\ (50 <= 500 <= 5000)%Z /\ (10 <= 100 <= 1000)%Z /\ (2 <= 18)%Z
  /\ (2 * 100 - 1 <= 500)%Z /\ 500%Z = len (prose 16).
Proof.
  assert (Hrun : (@extract_with_metadata ascii_runtime default_extractor
                    three_abstracts_html).2
                 = Ok (Some {| md_abstract := prose 16; md_length := 500;
                               md_word_count := 100; md_sentence_count := 18;
                               md_has_numbers := false |}))
    by (vm_compute; reflexivity).
  split; [exact Hrun|].
  exact (@metadata_within_bounds ascii_runtime default_extractor
           three_abstracts_html _ Hrun).
Defined.

(** ** Where the matches of a scan come from *)

Section ScanFacts.
Context `{Runtime}.

Lemma scan_hit_origin (f : re_flags) (r : regex) (m : pystr) (g : option pystr) :
  forall s skip,
    Hit m g ∈ scan f r skip s ->
    exists s' n, s' `suffix_of` s /\ match_at f r s' = Some (n, g) /\ m = take n s'.
Proof.
  induction s as [|x s IH]; intros skip Hin.
  - destruct skip as [|k]; cbn [scan] in Hin; [|by apply elem_of_nil in Hin].
    destruct (match_at f r []) as [[n g']|] eqn:Hm; [|by apply elem_of_nil in Hin].
    apply list_elem_of_singleton in Hin as [= -> ->]. by exists [], n.
  - destruct skip as [|k]; cbn [scan] in Hin.
    + destruct (match_at f r (x :: s)) as [[n g']|] eqn:Hm.
      * apply elem_of_cons in Hin as [[= -> ->]|Hin]; [by exists (x :: s), n|].
        destruct n as [|n].
        -- apply elem_of_cons in Hin as [[=]|Hin].
           destruct (IH _ Hin) as (s' & n' & Hs' & Hm' & ->).
           exists s', n'. split; [by apply suffix_cons_r|done].
        -- destruct (IH _ Hin) as (s' & n' & Hs' & Hm' & ->).
           exists s', n'. split; [by apply suffix_cons_r|done].
      * apply elem_of_cons in Hin as [[=]|Hin].
        destruct (IH _ Hin) as (s' & n' & Hs' & Hm' & ->).
        exists s', n'. split; [by apply suffix_cons_r|done].
    + destruct (IH _ Hin) as (s' & n' & Hs' & Hm' & ->).
      exists s', n'. split; [by apply suffix_cons_r|done].
Qed.

Lemma scan_no_match (f : re_flags) (r : regex) (s : pystr) :
  (forall s', s' `suffix_of` s -> match_at f r s' = None) ->
  scan f r 0 s = map Keep s.
Proof.
  induction s as [|c s IH]; intros Hno.
  - cbn. by rewrite (Hno [] (suffix_nil _)).
  - rewrite scan_miss by (by apply Hno). cbn. f_equal.
    apply IH. intros s' Hs'. apply Hno. by apply suffix_cons_r.
Qed.

Lemma re_findall_no_match (f : re_flags) (r : regex) (s : pystr) :
  (forall s', s' `suffix_of` s -> match_at f r s' = None) ->
  re_findall f r s = [].
Proof.
  intros Hno. unfold re_findall. rewrite (scan_no_match f r s Hno).
  induction s as [|c s IH]; [reflexivity|].
  cbn. apply IH. intros s' Hs'. apply Hno. by apply suffix_cons_r.
Qed.

Lemma re_search_no_match (f : re_flags) (r : regex) (s : pystr) :
  (forall s', s' `suffix_of` s -> match_at f r s' = None) ->
  re_search f r s = None.
Proof.
  intros Hno. unfold re_search. rewrite (scan_no_match f r s Hno).
  assert (Hnil : flat_map (fun p => match p with
                                    | Keep _ => []
                                    | Hit m g => [(m, g)]
                                    end) (map Keep s) = []).
  { clear Hno. induction s as [|c s IH]; [reflexivity|exact IH]. }
  by rewrite Hnil.
Qed.

Lemma re_findall_parts (f : re_flags) (r : regex) (s t : pystr) :
  has_group r = false -> t ∈ re_findall f r s ->
  exists s' n g, s' `suffix_of` s /\ match_at f r s' = Some (n, g) /\ t = take n s'.
Proof.
  intros Hg Ht. unfold re_findall in Ht. rewrite Hg in Ht.
  apply list_elem_of_In, in_flat_map in Ht as (p & Hp & Ht).
  destruct p as [c|m g]; [destruct Ht|]. destruct Ht as [<-|[]].
  apply list_elem_of_In, scan_hit_origin in Hp as (s' & n & Hs' & Hm & ->).
  by exists s', n, g.
Qed.

Lemma re_search_origin (f : re_flags) (r : regex) (s m : pystr) (g : option pystr) :
  re_search f r s = Some (m, g) ->
  exists s' n, s' `suffix_of` s /\ match_at f r s' = Some (n, g) /\ m = take n s'.
Proof.
  unfold re_search. intros Hh. apply head_Some_elem_of in Hh.
  apply list_elem_of_In, in_flat_map in Hh as (p & Hp & Hh).
  destruct p as [c|m' g']; [destruct Hh|]. destruct Hh as [[= -> ->]|[]].
  by apply list_elem_of_In, scan_hit_origin in Hp.
Qed.

(** A match that opens with an uncased character [c] starts with [c] and is
    not empty. *)
Lemma match_at_head_hit (f : re_flags) (c : char) (w : pystr) (rest : regex)
    (s : pystr) (n : nat) (g : option pystr) :
  iscased c = false ->
  match_at f (Seq (lits (c :: w)) rest) s = Some (n, g) ->
  head (take n s) = Some c.
Proof.
  intros Hc Hm. unfold match_at in Hm. rewrite run_seq_lits in Hm.
  destruct s as [|x s]; [discriminate|]. cbn [strip_lit] in Hm.
  rewrite literal_uncased in Hm by exact Hc.
  destruct (N.eqb_spec x c) as [->|]; [|discriminate].
  destruct (strip_lit f w s) as [s1|] eqn:Hw; [|discriminate].
  apply strip_lit_suffix in Hw.
  apply run_inv in Hm as (s2 & g2 & Hs2 & [= <- _]).
  assert (length s2 <= length s)%nat
    by (etransitivity; [by apply suffix_length|by apply suffix_length]).
  cbn [length]. replace (S (length s) - length s2)%nat
    with (S (length s - length s2)) by lia. reflexivity.
Qed.

End ScanFacts.

(** ** The structural patterns *)

Lemma patterns_open_with_tag : Forall opens_with_tag patterns.
Proof.
  unfold patterns.
  repeat (apply Forall_cons; split;
          [split; [reflexivity|eexists; eexists; reflexivity]|]).
  apply Forall_nil. exact I.
Qed.

Lemma foldl_app_flat_map {A B} (g : A -> list B) (l : list A) : forall acc,
  foldl (fun abstracts pattern => abstracts ++ g pattern) acc l = acc ++ flat_map g l.
Proof.
  induction l as [|x l IH]; intros acc; cbn; [by rewrite app_nil_r|].
  by rewrite IH, <- app_assoc.
Qed.

Section Candidates.
Context `{Runtime}.

Lemma extract_patterns_flat_map (html : pystr) :
  _extract_patterns html
  = flat_map (fun pattern => map JString (re_findall flags_IS pattern html)) patterns.
Proof.
  exact (foldl_app_flat_map
           (fun pattern => map JString (re_findall flags_IS pattern html)) patterns []).
Qed.

(** X8. Every candidate of [_extract_patterns] is a string, a contiguous part
    of the document, and starts with [<]. *)
Theorem pattern_candidates_are_parts (html : pystr) :
  Forall (fun v => exists pre t post,
            v = JString t /\ html = pre ++ t ++ post /\ head t = Some (chr "<"))
         (_extract_patterns html).
Proof.
  rewrite extract_patterns_flat_map. apply Forall_forall. intros v Hv.
  apply list_elem_of_In, in_flat_map in Hv as (r & Hr & Hv).
  apply list_elem_of_In in Hr, Hv.
  pose proof patterns_open_with_tag as Hp. rewrite Forall_forall in Hp.
  destruct (Hp r Hr) as (Hg & w & rest & ->).
  apply list_elem_of_fmap in Hv as (t & -> & Ht).
  apply (re_findall_parts _ _ _ _ Hg) in Ht as (s' & n & g & [pre ->] & Hm & ->).
  exists pre, (take n s'), (drop n s'). split; [reflexivity|]. split.
  - by rewrite take_drop.
  - by apply (match_at_head_hit flags_IS 60 w rest s' n g).
Qed.

Lemma findall_head_miss (f : re_flags) (c : char) (w : pystr) (rest : regex)
    (s : pystr) :
  iscased c = false -> c ∉ s -> re_findall f (Seq (lits (c :: w)) rest) s = [].
Proof.
  intros Hc Hs. apply re_findall_no_match. intros s' Hs'.
  apply match_at_head_miss; [exact Hc|]. by eapply not_elem_head.
Qed.

Lemma search_head_miss (f : re_flags) (c : char) (w : pystr) (rest : regex)
    (s : pystr) :
  iscased c = false -> c ∉ s -> re_search f (Seq (lits (c :: w)) rest) s = None.
Proof.
  intros Hc Hs. apply re_search_no_match. intros s' Hs'.
  apply match_at_head_miss; [exact Hc|]. by eapply not_elem_head.
Qed.

Lemma extract_patterns_no_tag (html : pystr) : 60 ∉ html -> _extract_patterns html = [].
Proof.
  intros Hs. rewrite extract_patterns_flat_map.
  pose proof patterns_open_with_tag as Hp.
  induction Hp as [|r l (_ & w & rest & ->) _ IH]; [reflexivity|].
  cbn [flat_map]. rewrite IH.
  by rewrite (findall_head_miss flags_IS 60 w rest html eq_refl Hs).
Qed.

Lemma json_ld_findall_no_tag (html : pystr) :
  60 ∉ html -> re_findall flags_S json_ld_pattern html = [].
Proof.
  intros Hs.
  apply (findall_head_miss flags_S 60 (str "script")
           (cat [Star (Not (chr ">")); Str "type="; Chr (Lit dq);
                 Str "application/ld+json"; Chr (Lit dq); Star (Not (chr ">"));
                 Str ">"; Group (LazyStar Any); Str "</script>"]) html eq_refl Hs).
Qed.

Lemma extract_json_ld_no_tag (html : pystr) : 60 ∉ html -> _extract_json_ld html = [].
Proof.
  intros Hs. unfold _extract_json_ld. by rewrite (json_ld_findall_no_tag html Hs).
Qed.

Lemma meta_search_no_tag (attr name : string) (html : pystr) :
  60 ∉ html -> re_search flags_I (meta_pattern attr name) html = None.
Proof.
  intros Hs.
  apply (search_head_miss flags_I 60 (str "meta")
           (cat [Star (Not (chr ">")); Str attr; Str "="; Chr (Lit dq);
                 Str name; Chr (Lit dq); Star (Not (chr ">")); Str "content=";
                 Chr (Lit dq); Group (Star (Not dq)); Chr (Lit dq)]) html eq_refl Hs).
Qed.

Lemma extract_meta_tags_no_tag (html : pystr) : 60 ∉ html -> _extract_meta_tags html = [].
Proof.
  intros Hs. unfold _extract_meta_tags, search_group.
  by rewrite !(meta_search_no_tag _ _ html Hs).
Qed.

Lemma all_candidates_no_tag (html : pystr) : 60 ∉ html -> all_candidates html = [].
Proof.
  intros Hs. unfold all_candidates.
  by rewrite (extract_patterns_no_tag html Hs), (extract_json_ld_no_tag html Hs),
    (extract_meta_tags_no_tag html Hs).
Qed.

(** X9. A document without [<], the empty document among them, has no
    candidate: [extract] and [extract_with_metadata] return [None] (and,
    when verbose, print that no candidate was found), [extract_all] returns
    the empty list. *)
Theorem no_tag_no_abstract (self : AbstractExtractor) (html : pystr) :
  chr "<" ∉ html ->
  extract self html = (say self NoCandidates, Ok None)
  /\ extract_all self html = ([], Ok [])
  /\ extract_with_metadata self html = (say self NoCandidates, Ok None).
Proof.
  intros Hs.
  assert (He : extract self html = (say self NoCandidates, Ok None)).
  { unfold extract. cbv zeta. rewrite candidates_assoc.
    by rewrite (all_candidates_no_tag html Hs). }
  split; [exact He|]. split.
  - unfold extract_all. cbv zeta. rewrite candidates_assoc.
    by rewrite (all_candidates_no_tag html Hs).
  - unfold extract_with_metadata. by rewrite He.
Qed.

End Candidates.

Lemma no_tag_no_abstract_witness :
  (chr "<" ∉ str "No markup at all.")
  /\ @extract ascii_runtime default_extractor (str "No markup at all.")
     = ([], Ok None)
  /\ @extract_all ascii_runtime default_extractor (str "No markup at all.")
     = ([], Ok [])
  /\ @extract_with_metadata ascii_runtime default_extractor (str "No markup at all.")
     = ([], Ok None).
Proof.
  assert (Hno : chr "<" ∉ str "No markup at all.")
    by (apply (bool_decide_unpack _); vm_compute; exact I).
  split; [exact Hno|].
  exact (@no_tag_no_abstract ascii_runtime default_extractor _ Hno).
Defined.

(** ** The meta tags *)

Lemma strip_lit_split (f : re_flags) (w : pystr) : forall s s',
  strip_lit f w s = Some s' -> exists x, s = x ++ s' /\ strip_lit f w x = Some [].
Proof.
  induction w as [|c w IH]; intros s s' Hs.
  - cbn in Hs. injection Hs as <-. by exists [].
  - destruct s as [|a s]; [discriminate|]. cbn [strip_lit] in Hs.
    destruct (literal f c a) eqn:E; [|discriminate].
    destruct (IH _ _ Hs) as (x & -> & Hx). exists (a :: x).
    split; [reflexivity|]. cbn [strip_lit]. by rewrite E.
Qed.

Lemma strip_lit_cat (f : re_flags) (w1 w2 x2 : pystr) : forall x1,
  strip_lit f w1 x1 = Some [] -> strip_lit f w2 x2 = Some [] ->
  strip_lit f (w1 ++ w2) (x1 ++ x2) = Some [].
Proof.
  induction w1 as [|c w1 IH]; intros x1 H1 H2.
  - destruct x1; [exact H2|]. cbn in H1. discriminate.
  - destruct x1 as [|a x1]; [discriminate|]. cbn [strip_lit app] in *.
    destruct (literal f c a); [|discriminate]. by apply IH.
Qed.

Section MetaTags.
Context `{Runtime}.

Lemma run_seq_inv {A} (f : re_flags) (r1 r2 : regex)
    (k : pystr -> capture -> option A) (s : pystr) (g : capture) (a : A) :
  run f (Seq r1 r2) k s g = Some a ->
  exists s' g', s' `suffix_of` s /\ run f r2 k s' g' = Some a.
Proof. cbn [run]. apply run_inv. Qed.

Lemma star_greedy_inv_all {A} (f : re_flags) (cs : cset) (k : pystr -> option A)
    (s : pystr) (a : A) :
  star_greedy f cs k s = Some a ->
  exists n, (n <= length s)%nat
            /\ Forall (fun x => cmatch f cs x = true) (take n s)
            /\ k (drop n s) = Some a.
Proof.
  induction s as [|x s IH]; cbn [star_greedy]; intros Hk.
  - exists 0%nat. by repeat split.
  - destruct (cmatch f cs x) eqn:Hx.
    + destruct (star_greedy f cs k s) as [b|] eqn:Hs.
      * injection Hk as ->. destruct (IH eq_refl) as (n & Hn & Hall & Hk).
        exists (S n). cbn. split; [lia|]. split; [by constructor|exact Hk].
      * exists 0%nat. cbn. split; [lia|]. by split.
    + exists 0%nat. cbn. split; [lia|]. by split.
Qed.

Lemma run_seq_chr {A} (f : re_flags) (cs : cset) (r : regex)
    (k : pystr -> capture -> option A) (s : pystr) (g : capture) :
  run f (Seq (Chr cs) r) k s g
  = match s with
    | x :: s' => if cmatch f cs x then run f r k s' g else None
    | [] => None
    end.
Proof. reflexivity. Qed.

Lemma run_seq_group_star {A} (f : re_flags) (cs : cset) (r : regex)
    (k : pystr -> capture -> option A) (s : pystr) (g : capture) :
  run f (Seq (Group (Star cs)) r) k s g
  = star_greedy f cs (fun s' => run f r k s' (Some (s, s'))) s.
Proof. reflexivity. Qed.

Lemma lit_uncased_inv (c x : char) :
  iscased c = false -> cmatch flags_I (Lit c) x = true -> x = c.
Proof.
  intros Hc Hx. cbn [cmatch] in Hx. rewrite literal_uncased in Hx by exact Hc.
  by apply N.eqb_eq in Hx.
Qed.

Lemma not_uncased_inv (c : char) (l : pystr) :
  iscased c = false -> Forall (fun x => cmatch flags_I (Not c) x = true) l -> c ∉ l.
Proof.
  intros Hc Hall Hin. rewrite Forall_forall in Hall. specialize (Hall _ Hin).
  cbn [cmatch] in Hall. rewrite literal_uncased in Hall by exact Hc.
  by rewrite N.eqb_refl in Hall.
Qed.

Lemma lit_step {A} (w : pystr) (r : regex) (k : pystr -> capture -> option A)
    (s : pystr) (g : capture) (a : A) :
  run flags_I (Seq (lits w) r) k s g = Some a ->
  exists x s', s = x ++ s' /\ same_ignoring_case w x /\ run flags_I r k s' g = Some a.
Proof.
  rewrite run_seq_lits. destruct (strip_lit flags_I w s) as [s'|] eqn:Hw; [|discriminate].
  intros Hr. apply strip_lit_split in Hw as (x & -> & Hx). by exists x, s'.
Qed.

Lemma quote_step {A} (r : regex) (k : pystr -> capture -> option A)
    (s : pystr) (g : capture) (a : A) :
  run flags_I (Seq (Chr (Lit dq)) r) k s g = Some a ->
  exists s', s = dq :: s' /\ run flags_I r k s' g = Some a.
Proof.
  rewrite run_seq_chr. destruct s as [|x s']; [discriminate|].
  destruct (cmatch flags_I (Lit dq) x) eqn:Hx; [|discriminate].
  apply lit_uncased_inv in Hx as ->; [|reflexivity]. intros Hr. by exists s'.
Qed.

Lemma attrs_step {A} (r : regex) (k : pystr -> capture -> option A)
    (s : pystr) (g : capture) (a : A) :
  run flags_I (Seq (Star (Not (chr ">"))) r) k s g = Some a ->
  exists x s', s = x ++ s' /\ (chr ">" ∉ x) /\ run flags_I r k s' g = Some a.
Proof.
  rewrite run_seq_star. intros Hr.
  apply star_greedy_inv_all in Hr as (n & _ & Hall & Hr).
  exists (take n s), (drop n s). split; [by rewrite take_drop|].
  split; [|exact Hr]. by apply not_uncased_inv.
Qed.

Lemma quote_same : same_ignoring_case [dq] [dq].
Proof. reflexivity. Qed.

(** A match of a meta pattern, piece by piece, and its group. *)
Lemma meta_match_shape (attr name : string) (s : pystr) (n : nat) (g : option pystr) :
  match_at flags_I (meta_pattern attr name) s = Some (n, g) ->
  exists t tag a1 decl a2 cont post,
    g = Some t
    /\ s = tag ++ a1 ++ decl ++ a2 ++ cont ++ t ++ dq :: post
    /\ same_ignoring_case (str "<meta") tag
    /\ (chr ">" ∉ a1)
    /\ same_ignoring_case (str attr ++ str "=" ++ [dq] ++ str name ++ [dq]) decl
    /\ (chr ">" ∉ a2)
    /\ same_ignoring_case (str "content=" ++ [dq]) cont
    /\ (dq ∉ t).
Proof.
  unfold match_at, meta_pattern, cat, Str. cbn [foldr]. intros Hm.
  apply lit_step in Hm as (tag & s1 & -> & Htag & Hm).
  apply attrs_step in Hm as (a1 & s2 & -> & Ha1 & Hm).
  apply lit_step in Hm as (d1 & s3 & -> & Hd1 & Hm).
  apply lit_step in Hm as (d2 & s4 & -> & Hd2 & Hm).
  apply quote_step in Hm as (s5 & -> & Hm).
  apply lit_step in Hm as (d3 & s6 & -> & Hd3 & Hm).
  apply quote_step in Hm as (s7 & -> & Hm).
  apply attrs_step in Hm as (a2 & s8 & -> & Ha2 & Hm).
  apply lit_step in Hm as (c1 & s9 & -> & Hc1 & Hm).
  apply quote_step in Hm as (s10 & -> & Hm).
  rewrite run_seq_group_star in Hm.
  apply star_greedy_inv_all in Hm as (m & Hle & Hall & Hm).
  apply quote_step in Hm as (post & Hd & Hm).
  cbn [run] in Hm. injection Hm as _ <-.
  assert (Hlen : (length s10 - length (drop m s10) = m)%nat)
    by (rewrite length_drop; lia).
  exists (take m s10), tag, a1, (d1 ++ d2 ++ [dq] ++ d3 ++ [dq]), a2, (c1 ++ [dq]), post.
  split; [by cbn [group_text]; rewrite Hlen|]. split.
  - rewrite <- (take_drop m s10) at 1. rewrite Hd, <- !app_assoc. reflexivity.
  - split; [exact Htag|]. split; [exact Ha1|]. split.
    + apply strip_lit_cat; [exact Hd1|]. apply strip_lit_cat; [exact Hd2|].
      apply (strip_lit_cat _ [dq]); [exact quote_same|].
      apply strip_lit_cat; [exact Hd3|exact quote_same].
    + split; [exact Ha2|]. split.
      * apply strip_lit_cat; [exact Hc1|exact quote_same].
      * by apply not_uncased_inv.
Qed.

Lemma search_group_value (attr name : string) (html : pystr) :
  exists c : option pystr,
    search_group (meta_pattern attr name) html = map JString (option_list c)
    /\ forall t, c = Some t -> meta_content attr name html t.
Proof.
  unfold search_group.
  destruct (re_search flags_I (meta_pattern attr name) html) as [[m g]|] eqn:Hs;
    [|by exists None].
  apply re_search_origin in Hs as (s' & n & [pre ->] & Hm & _).
  apply meta_match_shape in Hm
    as (t & tag & a1 & decl & a2 & cont & post & -> & -> & Hshape).
  exists (Some t). split; [reflexivity|]. intros ? [= <-].
  by exists pre, tag, a1, decl, a2, cont, post.
Qed.

(** X10. [_extract_meta_tags] returns at most three candidates, all of them
    strings: at most one for the name [description], then at most one for
    the property [og:description], then at most one for the name
    [twitter:description]. Each is the value of a [content] attribute:
    the page holds, letter case apart, [<meta], then the declaration of
    the name or property and [content=Q], Q the double quote, with no [>]
    in between, then the candidate, which contains no double quote, then
    a double quote. *)
Theorem meta_tag_candidates (html : pystr) :
  exists description og twitter : option pystr,
    _extract_meta_tags html
    = map JString (option_list description ++ option_list og ++ option_list twitter)
    /\ (forall t, description = Some t -> meta_content "name" "description" html t)
    /\ (forall t, og = Some t -> meta_content "property" "og:description" html t)
    /\ (forall t, twitter = Some t ->
          meta_content "name" "twitter:description" html t)
    /\ (len (_extract_meta_tags html) <= 3)%Z.
Proof.
  unfold _extract_meta_tags.
  destruct (search_group_value "name" "description" html) as (d & -> & Hd).
  destruct (search_group_value "property" "og:description" html) as (o & -> & Ho).
  destruct (search_group_value "name" "twitter:description" html) as (w & -> & Hw).
  exists d, o, w. split; [by rewrite !map_app|].
  split; [exact Hd|]. split; [exact Ho|]. split; [exact Hw|].
  unfold len. rewrite !length_app, !length_map.
  destruct d, o, w; cbn; lia.
Qed.

End MetaTags.

(** A page with a description in a meta tag and in upper-case spelling. *)
Lemma meta_tag_candidates_witness :
  @_extract_meta_tags ascii_runtime
    (str "<META Name=" ++ [dq] ++ str "description" ++ [dq] ++ str " id=x CONTENT="
     ++ [dq] ++ str "foo" ++ [dq] ++ str ">")
  = [JString (str "foo")]
  /\ exists description og twitter : option pystr,
       @_extract_meta_tags ascii_runtime
         (str "<META Name=" ++ [dq] ++ str "description" ++ [dq]
          ++ str " id=x CONTENT=" ++ [dq] ++ str "foo" ++ [dq] ++ str ">")
       = map JString (option_list description ++ option_list og ++ option_list twitter)
       /\ (forall t, description = Some t ->
             meta_content "name" "description"
               (str "<META Name=" ++ [dq] ++ str "description" ++ [dq]
                ++ str " id=x CONTENT=" ++ [dq] ++ str "foo" ++ [dq] ++ str ">") t).
Proof.
  split; [vm_compute; reflexivity|].
  destruct (@meta_tag_candidates ascii_runtime
              (str "<META Name=" ++ [dq] ++ str "description" ++ [dq]
               ++ str " id=x CONTENT=" ++ [dq] ++ str "foo" ++ [dq] ++ str ">"))
    as (d & o & w & He & Hd & _).
  exists d, o, w. split; [exact He|exact Hd].
Defined.

(** ** The normaliser: what it returns *)

Section NormalForm.
Context `{Runtime}.

(** X11. [_clean_html] returns, for every string, a text in which every
    whitespace character is a single space between two other characters:
    no tab, no newline, no two spaces in a row, no whitespace at either
    end. *)
Theorem clean_html_whitespace_normal (s : pystr) :
  exists t, _clean_html (JString s) = Ok t
    /\ (forall c, c ∈ t -> isspace c = true -> c = 32)
    /\ (forall pre c d post, t = pre ++ c :: d :: post ->
          isspace c = false \/ isspace d = false)
    /\ match head t with Some c => isspace c = false | None => True end
    /\ match last t with Some c => isspace c = false | None => True end.
Proof.
  exists (clean_text s). split; [reflexivity|].
  pose proof (clean_text_normal s) as Hn. cbv zeta in Hn.
  destruct Hn as (Hsp & [Hh Hl] & _). generalize dependent (clean_text s).
  intros t Hsp Hh Hl. split; [|split; [|by split]].
  - clear Hh Hl. induction t as [|x t IH]; intros c Hc Hw; [by apply elem_of_nil in Hc|].
    destruct Hsp as [Hx Hsp].
    apply elem_of_cons in Hc as [->|Hc]; [by apply Hx|by apply IH].
  - intros pre c d post -> . apply spaced_app_r in Hsp. destruct Hsp as [Hc _].
    destruct (isspace c) eqn:Ec; [right|by left]. by destruct (Hc eq_refl).
Qed.

Lemma hits_show_more_literal (s s' : pystr) :
  10 ∉ s -> strip_lit flags_I (str "Show More") s = Some s' ->
  hits flags_I show_more_pattern s = true.
Proof.
  intros Hnl Hlit.
  rewrite (hits_run _ _ (fun _ _ => Some tt)) by (intros; by eexists).
  unfold show_more_pattern, cat, Str. cbn [foldr]. rewrite run_seq_star.
  apply star_greedy_fallback. rewrite run_seq_lits, Hlit, run_seq_star.
  apply star_any_eos; [|by eexists].
  apply strip_lit_suffix in Hlit as [pre ->].
  intros Hin. apply Hnl, elem_of_app. by right.
Qed.

(** X12. The text that [_clean_html] returns does not contain [Show More], in
    any letter case: the text is cut before its first occurrence. *)
Theorem clean_html_no_show_more (s : pystr) :
  exists t, _clean_html (JString s) = Ok t
    /\ forall pre rest, t = pre ++ rest ->
         strip_lit flags_I (str "Show More") rest = None.
Proof.
  exists (clean_text s). split; [reflexivity|].
  pose proof (clean_text_normal s) as Hn. cbv zeta in Hn.
  destruct Hn as (Hsp & _ & Hsm & _). generalize dependent (clean_text s).
  intros t Hsp Hsm pre rest ->.
  destruct (strip_lit flags_I (str "Show More") rest) as [s'|] eqn:Hlit; [|reflexivity].
  exfalso. apply spaced_no_newline in Hsp.
  assert (Hnl : 10 ∉ rest) by (intros Hin; apply Hsp, elem_of_app; by right).
  pose proof (hits_show_more_literal rest s' Hnl Hlit) as Hh.
  apply hits_is_Some in Hh as [x Hx].
  rewrite (Hsm rest) in Hx; [discriminate|]. by exists pre.
Qed.

(** *** The normaliser never lengthens a text *)

Lemma scan_sub_length (f : re_flags) (r : regex) (repl : pystr) :
  (forall s' n g, match_at f r s' = Some (n, g) -> (length repl <= n)%nat) ->
  forall s skip,
    (length (flat_map (fun p => match p with Keep c => [c] | Hit _ _ => repl end)
                      (scan f r skip s))
     + Nat.min skip (length s) <= length s)%nat.
Proof.
  intros Hrepl. induction s as [|x s IH]; intros skip.
  - destruct skip as [|k]; cbn [scan]; [|cbn; lia].
    destruct (match_at f r []) as [[n g]|] eqn:Hm; [|cbn; lia].
    pose proof (match_at_le _ _ _ _ _ Hm). pose proof (Hrepl _ _ _ Hm).
    cbn in *. rewrite length_app. cbn. lia.
  - destruct skip as [|k]; cbn [scan].
    + destruct (match_at f r (x :: s)) as [[n g]|] eqn:Hm.
      * pose proof (match_at_le _ _ _ _ _ Hm) as Hle. pose proof (Hrepl _ _ _ Hm).
        cbn [flat_map]. rewrite length_app. destruct n as [|n].
        -- specialize (IH 0%nat). cbn [flat_map length app] in *. lia.
        -- specialize (IH n). cbn [length] in *. lia.
      * specialize (IH 0%nat). cbn [flat_map length app] in *. lia.
    + specialize (IH k). cbn [length] in *. lia.
Qed.

Lemma re_sub_length (f : re_flags) (r : regex) (repl s : pystr) :
  (forall s' n g, match_at f r s' = Some (n, g) -> (length repl <= n)%nat) ->
  (length (re_sub f r repl s) <= length s)%nat.
Proof.
  intros Hrepl. pose proof (scan_sub_length f r repl Hrepl s 0). unfold re_sub. lia.
Qed.

Lemma re_sub_nil_length (f : re_flags) (r : regex) (s : pystr) :
  (length (re_sub f r [] s) <= length s)%nat.
Proof. apply re_sub_length. intros. cbn. lia. Qed.

Lemma re_sub_spaces_length (s : pystr) :
  (length (re_sub no_flags spaces_pattern [32%N] s) <= length s)%nat.
Proof.
  apply re_sub_length. intros [|x s'] n g Hm; [discriminate|].
  rewrite match_at_spaces in Hm. destruct (isspace x); [|discriminate].
  injection Hm as <- _. cbn. lia.
Qed.

Lemma strip_prefix_length (p : pystr) : forall s s',
  strip_prefix p s = Some s' -> (length p <= length s)%nat.
Proof.
  induction p as [|a p IH]; intros s s' Hs; [cbn; lia|].
  destruct s as [|b s]; [discriminate|]. cbn in Hs.
  destruct (a =? b); [|discriminate]. apply IH in Hs. cbn. lia.
Qed.

Lemma str_replace_from_length (old new : pystr) :
  (length new <= length old)%nat ->
  forall s skip,
    (length (str_replace_from old new skip s) + Nat.min skip (length s)
     <= length s)%nat.
Proof.
  intros Hnew. induction s as [|c s IH]; intros skip; [cbn; lia|].
  destruct skip as [|k]; cbn [str_replace_from].
  - destruct (strip_prefix old (c :: s)) as [s'|] eqn:Hp.
    + apply strip_prefix_length in Hp. specialize (IH (pred (length old))).
      rewrite length_app. cbn [length] in *. lia.
    + specialize (IH 0%nat). cbn [length] in *. lia.
  - specialize (IH k). cbn [length] in *. lia.
Qed.

Lemma foldl_replace_length (entities : list (pystr * pystr)) :
  Forall (fun e => (length e.2 <= length e.1)%nat) entities ->
  forall s,
    (length (foldl (fun text '(entity, char) => str_replace entity char text)
                   s entities) <= length s)%nat.
Proof.
  induction 1 as [|[entity char] entities He _ IH]; intros s; [cbn; lia|].
  cbn [foldl]. etransitivity; [apply IH|].
  pose proof (str_replace_from_length entity char He s 0). unfold str_replace. lia.
Qed.

Lemma html_entities_length (s : pystr) :
  (length (foldl (fun text '(entity, char) => str_replace entity char text)
                 s html_entities) <= length s)%nat.
Proof.
  apply foldl_replace_length. unfold html_entities.
  repeat (apply Forall_cons; split; [cbn; lia|]). apply Forall_nil. exact I.
Qed.

Lemma str_strip_length (s : pystr) : (length (str_strip s) <= length s)%nat.
Proof.
  unfold str_strip. etransitivity.
  - apply prefix_length, str_rstrip_prefix.
  - apply suffix_length, str_lstrip_suffix.
Qed.

Lemma clean_text_length (s : pystr) : (length (clean_text s) <= length s)%nat.
Proof.
  unfold clean_text. cbv zeta.
  etransitivity; [apply re_sub_nil_length|].
  etransitivity; [apply re_sub_nil_length|].
  etransitivity; [apply str_strip_length|].
  etransitivity; [apply re_sub_spaces_length|].
  etransitivity; [apply re_sub_nil_length|].
  etransitivity; [apply html_entities_length|].
  etransitivity; [apply re_sub_nil_length|].
  etransitivity; [apply re_sub_nil_length|].
  etransitivity; [apply re_sub_nil_length|].
  etransitivity; [apply re_sub_nil_length|].
  apply re_sub_nil_length.
Qed.

(** X13. [_clean_html] never lengthens a text: every step removes characters or
    replaces some by fewer. *)
Theorem clean_html_never_longer (s : pystr) :
  exists t, _clean_html (JString s) = Ok t /\ (len t <= len s)%Z.
Proof.
  exists (clean_text s). split; [reflexivity|].
  pose proof (clean_text_length s). unfold len. lia.
Qed.

End NormalForm.

(** ** What is printed, and the functions of the module *)

Section Transcript.
Context `{Runtime}.

Lemma remove_duplicates_nonempty (x : pystr) (l : list pystr) :
  _remove_duplicates (x :: l) <> [].
Proof.
  rewrite remove_duplicates_spec. cbn.
  destruct (dedup_spec_prefix l [x]) as [tl ->]. discriminate.
Qed.

Lemma extract_printed (self : AbstractExtractor) (html : pystr) :
  (extract self html).1 =
  if verbose self then
    match all_candidates html with
    | [] => [NoCandidates]
    | c :: cs =>
        FoundCandidates (len (c :: cs)) ::
        match (extract self html).2 with
        | Raise _ => []
        | Ok None => [NoValid]
        | Ok (Some t) => [BestSelected (len t) (len (str_split t))]
        end
    end
  else [].
Proof.
  unfold extract. cbv zeta. rewrite candidates_assoc. unfold say.
  destruct (all_candidates html) as [|c cs]; [by destruct (verbose self)|].
  destruct (_filter_quality_abstracts self (c :: cs)) as [[|f fs]|e];
    [by destruct (verbose self)| |by destruct (verbose self)].
  pose proof (remove_duplicates_nonempty f fs) as Hne.
  destruct (_remove_duplicates (f :: fs)) as [|x l]; [done|].
  by destruct (verbose self).
Qed.

(** X14. What [extract] prints. Without [verbose] it prints nothing. With
    [verbose] it prints one line when there is no candidate; otherwise the
    number of candidates, followed by nothing when it raises, by the
    notice that no candidate is valid when it returns [None], and by the
    length and the word count of the text when it returns one. [extract_all]
    never prints. *)
Theorem extract_transcript (self : AbstractExtractor) (html : pystr) :
  (extract self html).1 =
    (if verbose self then
       match all_candidates html with
       | [] => [NoCandidates]
       | c :: cs =>
           FoundCandidates (len (c :: cs)) ::
           match (extract self html).2 with
           | Raise _ => []
           | Ok None => [NoValid]
           | Ok (Some t) => [BestSelected (len t) (len (str_split t))]
           end
       end
     else [])
  /\ (extract_all self html).1 = [].
Proof.
  split; [apply extract_printed|].
  unfold extract_all. cbv zeta. rewrite candidates_assoc.
  destruct (all_candidates html) as [|c cs]; [reflexivity|].
  by destruct (_filter_quality_abstracts self (c :: cs)).
Qed.

Lemma extract_same_bounds (self1 self2 : AbstractExtractor) (html : pystr) :
  min_length self1 = min_length self2 -> max_length self1 = max_length self2 ->
  (extract self1 html).2 = (extract self2 html).2
  /\ (extract_all self1 html).2 = (extract_all self2 html).2
  /\ (extract_with_metadata self1 html).2 = (extract_with_metadata self2 html).2.
Proof.
  intros Hmin Hmax.
  assert (He : (extract self1 html).2 = (extract self2 html).2).
  { rewrite !extract_result. unfold _filter_quality_abstracts.
    by rewrite (filter_loop_bounds self1 self2 _ Hmin Hmax). }
  split; [exact He|]. split.
  - rewrite !extract_all_result. unfold _filter_quality_abstracts.
    by rewrite (filter_loop_bounds self1 self2 _ Hmin Hmax).
  - unfold extract_with_metadata.
    destruct (extract self1 html) as [o1 r1], (extract self2 html) as [o2 r2].
    cbn in He. subst r2. by destruct r1 as [[[|c t]|]|e].
Qed.

Lemma extract_with_metadata_printed (self : AbstractExtractor) (html : pystr) :
  (extract_with_metadata self html).1 = (extract self html).1.
Proof.
  unfold extract_with_metadata.
  by destruct (extract self html) as [out [[[|c t]|]|e]].
Qed.

Lemma extract_with_metadata_result (self : AbstractExtractor) (html : pystr) :
  (extract_with_metadata self html).2 =
  match (extract self html).2 with
  | Raise e => Raise e
  | Ok None => Ok None
  | Ok (Some t) =>
      Ok (Some {|
        md_abstract := t;
        md_length := len t;
        md_word_count := len (str_split t);
        md_sentence_count := len (re_split no_flags sentence_end_pattern t);
        md_has_numbers := bool_decide (is_Some (re_search no_flags (Chr Digit) t))
      |})
  end.
Proof.
  pose proof (extract_some_nonempty self html) as Hne.
  unfold extract_with_metadata.
  destruct (extract self html) as [out [[[|c t]|]|e]]; try reflexivity.
  by destruct (Hne [] eq_refl).
Qed.

Lemma extract_head_of_all (self : AbstractExtractor) (html t : pystr) :
  (extract self html).2 = Ok (Some t) ->
  exists rest, (extract_all self html).2 = Ok (t :: rest).
Proof.
  rewrite extract_all_result, extract_result.
  destruct (_filter_quality_abstracts self (all_candidates html)) as [filtered|e];
    [|discriminate].
  destruct (_remove_duplicates filtered) as [|x u]; [discriminate|].
  destruct (sort_by_len_reverse_head x u) as [tl ->]. intros [= <-]. by exists tl.
Qed.

(** X15. The three functions of the module work with the bounds 50 and 5000
    whatever [verbose] is: the results do not depend on [verbose], a text
    that [extract_abstract] returns has between 50 and 5000 characters, it
    is the first text of [extract_all_abstracts] and the text that the
    record of [extract_with_metadata] describes; with [verbose] false
    nothing is printed. *)
Theorem convenience_functions (html : pystr) (v : bool) :
  (abstract_extractor.extract_abstract html v).2
    = (extract default_extractor html).2
  /\ (abstract_extractor.extract_all_abstracts html v).2
    = (extract_all default_extractor html).2
  /\ (abstract_extractor.extract_with_metadata html v).2
    = (extract_with_metadata default_extractor html).2
  /\ (forall t, (abstract_extractor.extract_abstract html v).2 = Ok (Some t) ->
        (50 <= len t <= 5000)%Z
        /\ (exists rest,
              (abstract_extractor.extract_all_abstracts html v).2 = Ok (t :: rest))
        /\ (exists md,
              (abstract_extractor.extract_with_metadata html v).2 = Ok (Some md)
              /\ md_abstract md = t))
  /\ (abstract_extractor.extract_abstract html false).1 = []
  /\ (abstract_extractor.extract_all_abstracts html v).1 = []
  /\ (abstract_extractor.extract_with_metadata html false).1 = [].
Proof.
  unfold abstract_extractor.extract_abstract, abstract_extractor.extract_all_abstracts,
    abstract_extractor.extract_with_metadata. cbv zeta.
  set (self := {| min_length := 50; max_length := 5000; verbose := v |}).
  destruct (extract_same_bounds self default_extractor html eq_refl eq_refl)
    as (He & Ha & Hm).
  split; [exact He|]. split; [exact Ha|]. split; [exact Hm|]. split; [|split; [|split]].
  - intros t Ht. split; [|split].
    + by destruct (extract_some_passes self html t Ht) as [Hl _ _ _].
    + by apply extract_head_of_all.
    + rewrite extract_with_metadata_result, Ht. by eexists.
  - by rewrite extract_printed.
  - unfold extract_all. cbv zeta. rewrite candidates_assoc.
    destruct (all_candidates html) as [|c cs]; [reflexivity|].
    by destruct (_filter_quality_abstracts self (c :: cs)).
  - by rewrite extract_with_metadata_printed, extract_printed.
Qed.

End Transcript.

(** ** The script: what standard output can print *)

Section ScriptFacts.
Context `{Runtime}.

Lemma extract_all_head (self : AbstractExtractor) (html t : pystr) (rest : list pystr) :
  (extract_all self html).2 = Ok (t :: rest) -> (extract self html).2 = Ok (Some t).
Proof.
  rewrite extract_all_result, extract_result.
  destruct (_filter_quality_abstracts self (all_candidates html)) as [filtered|e];
    [|discriminate].
  destruct (_remove_duplicates filtered) as [|x u]; [discriminate|].
  destruct (sort_by_len_reverse_head x u) as [tl ->]. by intros [= <- _].
Qed.

Lemma convenience_results (html : pystr) (v : bool) :
  (abstract_extractor.extract_abstract html v).2 = (extract default_extractor html).2
  /\ (abstract_extractor.extract_all_abstracts html v).2
     = (extract_all default_extractor html).2
  /\ (abstract_extractor.extract_with_metadata html v).2
     = (extract_with_metadata default_extractor html).2.
Proof.
  exact (extract_same_bounds {| min_length := 50; max_length := 5000; verbose := v |}
           default_extractor html eq_refl eq_refl).
Qed.

(** The result of [extract], read off that of [extract_all]. *)
Lemma extract_of_extract_all (self : AbstractExtractor) (html : pystr) :
  (extract self html).2 =
  match (extract_all self html).2 with
  | Raise e => Raise e
  | Ok [] => Ok None
  | Ok (t :: _) => Ok (Some t)
  end.
Proof.
  rewrite extract_all_result, extract_result.
  destruct (_filter_quality_abstracts self (all_candidates html)) as [filtered|e];
    [|reflexivity].
  destruct (_remove_duplicates filtered) as [|x u]; [reflexivity|].
  by destruct (sort_by_len_reverse_head x u) as [tl ->].
Qed.

Lemma extract_all_printed (self : AbstractExtractor) (html : pystr) :
  (extract_all self html).1 = [].
Proof.
  unfold extract_all. cbv zeta. rewrite candidates_assoc.
  destruct (all_candidates html) as [|c cs]; [reflexivity|].
  by destruct (_filter_quality_abstracts self (c :: cs)).
Qed.

End ScriptFacts.

Lemma decimal_from_ascii (fuel : nat) : forall n acc,
  forallb (fun c => c <? 128) acc = true ->
  forallb (fun c => c <? 128) (decimal_from fuel n acc) = true.
Proof.
  induction fuel as [|fuel IH]; intros n acc Hacc; cbn [decimal_from]; [exact Hacc|].
  assert (Hd : forallb (fun c => c <? 128) ((48 + n mod 10) :: acc) = true).
  { cbn [forallb]. rewrite Hacc, andb_true_r. apply N.ltb_lt.
    pose proof (N.mod_upper_bound n 10). lia. }
  destruct (n <? 10); [exact Hd|]. by apply IH.
Qed.

Lemma decimal_ascii (n : Z) : forallb (fun c => c <? 128) (decimal n) = true.
Proof.
  destruct n as [|p|p]; unfold decimal; by apply decimal_from_ascii.
Qed.

Section PrintFacts.
Context `{Stdout}.

Lemma can_print_app (a b : pystr) : can_print (a ++ b) = can_print a && can_print b.
Proof. apply forallb_app. Qed.

Lemma can_print_ascii (s : pystr) :
  forallb (fun c => c <? 128) s = true -> can_print s = true.
Proof.
  unfold can_print. rewrite !forallb_forall. intros Hs c Hc.
  by apply encodable_ascii, N.ltb_lt, Hs.
Qed.

Lemma can_print_decimal (n : Z) : can_print (decimal n) = true.
Proof. apply can_print_ascii, decimal_ascii. Qed.

Lemma can_print_part (a b : pystr) :
  (forall c, c ∈ a -> c ∈ b) -> can_print b = true -> can_print a = true.
Proof.
  unfold can_print. rewrite !forallb_forall. intros Hab Hb c Hc.
  by apply Hb, list_elem_of_In, Hab, list_elem_of_In.
Qed.

Lemma can_print_preview (a : pystr) : can_print (preview a) = can_print (take 300 a).
Proof.
  unfold preview. rewrite can_print_app.
  destruct (300 <? len a)%Z; [|by rewrite andb_true_r].
  rewrite (can_print_ascii (str "...")) by reflexivity. by rewrite andb_true_r.
Qed.

Ltac ascii_parts :=
  rewrite ?can_print_app, ?can_print_decimal;
  repeat match goal with
         | |- context [can_print (str ?x)] =>
             rewrite (can_print_ascii (str x)) by reflexivity
         | |- context [can_print newline] =>
             rewrite (can_print_ascii newline) by reflexivity
         | |- context [can_print (replicate ?n ?c)] =>
             rewrite (can_print_ascii (replicate n c)) by reflexivity
         | |- context [can_print [?c]] =>
             change (can_print [c]) with (encodable c && true)
         end;
  rewrite ?andb_true_r, ?andb_true_l.

(** What a line asks of the encoding: the check mark, the cross, and the
    characters of the file name or of the text that it holds; the rest of
    every line is ASCII. *)
Lemma printable_spec (l : line) :
  printable l =
  match l with
  | FileNotFound text | ErrorReadingFile text | Processing text
  | Preview text | FullText text => can_print text
  | FoundAbstracts _ | AbstractFound | AbstractFoundChars _ => encodable check_mark
  | NoAbstractsFound | NoAbstractFound => encodable ballot_x
  | SavedTo output_file => encodable check_mark && can_print output_file
  | _ => true
  end.
Proof.
  destruct l as [| | | | | |m| | | | | | | | | | | | |]; unfold printable;
    try destruct m; cbn [text_of info_text]; ascii_parts; reflexivity.
Qed.

Lemma print_all_ok (ls : list line) : (print_all ls).2 = forallb printable ls.
Proof.
  induction ls as [|l ls IH]; [reflexivity|]. cbn [print_all forallb].
  destruct (printable l); [|reflexivity]. by destruct (print_all ls).
Qed.

Lemma print_all_done (ls : list line) :
  forallb printable ls = true -> print_all ls = (ls, true).
Proof.
  induction ls as [|l ls IH]; [reflexivity|]. cbn [print_all forallb].
  destruct (printable l); [|discriminate]. intros Hls. by rewrite (IH Hls).
Qed.

Lemma print_all_plain (ls : list line) :
  forallb (fun l => negb (is_diagnostic l)) ls = true ->
  plain (print_all ls).1 = (print_all ls).1.
Proof.
  induction ls as [|l ls IH]; [reflexivity|]. cbn [print_all forallb].
  intros [Hl Hls]%andb_true_iff. destruct (printable l); [|reflexivity].
  specialize (IH Hls). destruct (print_all ls) as [d ok]. cbn [fst] in *.
  unfold plain in *. cbn [List.filter]. rewrite Hl. by f_equal.
Qed.

Lemma header_print (html_file : pystr) :
  print_all [RuleAbove; Processing html_file; RuleBelow]
  = if can_print html_file
    then ([RuleAbove; Processing html_file; RuleBelow], true)
    else ([RuleAbove], false).
Proof. cbn [print_all]. rewrite !printable_spec. by destruct (can_print html_file). Qed.

Lemma listing_printable (abstracts : list pystr) :
  forallb printable (listing abstracts)
  = forallb (fun a => can_print (take 300 a)) abstracts.
Proof.
  unfold listing.
  assert (Hgen : forall (h : nat -> pystr -> list line),
            (forall i a, forallb printable (h i a) = can_print (take 300 a)) ->
            forallb printable (concat (imap h abstracts))
            = forallb (fun a => can_print (take 300 a)) abstracts).
  { induction abstracts as [|a l IH]; intros h Hh; [reflexivity|].
    cbn [imap concat forallb]. rewrite forallb_app, Hh. f_equal.
    apply IH. intros i b. apply Hh. }
  apply Hgen. intros i a. cbn [forallb].
  rewrite !printable_spec, can_print_preview. by rewrite andb_true_r.
Qed.

Lemma listing_plain (abstracts : list pystr) :
  forallb (fun l => negb (is_diagnostic l)) (listing abstracts) = true.
Proof.
  unfold listing.
  assert (Hgen : forall (h : nat -> pystr -> list line),
            (forall i a, forallb (fun l => negb (is_diagnostic l)) (h i a) = true) ->
            forallb (fun l => negb (is_diagnostic l)) (concat (imap h abstracts))
            = true).
  { induction abstracts as [|a l IH]; intros h Hh; [reflexivity|].
    cbn [imap concat]. rewrite forallb_app, Hh. apply IH. intros i b. apply Hh. }
  apply Hgen. reflexivity.
Qed.

Lemma finish_printed (out ls : list line) (e : ending) :
  printed (finish out ls e) = out ++ (print_all ls).1.
Proof. unfold finish, crashed. by destruct (print_all ls) as [d [|]]. Qed.

Lemma finish_saved (out ls : list line) (e : ending) : saved (finish out ls e) = [].
Proof. unfold finish, crashed. by destruct (print_all ls) as [d [|]]. Qed.

Lemma finish_ended (out ls : list line) (e : ending) :
  ended (finish out ls e)
  = if forallb printable ls then e else Traceback PrintFailed.
Proof.
  rewrite <- print_all_ok. unfold finish, crashed.
  by destruct (print_all ls) as [d [|]].
Qed.

End PrintFacts.

(** ** The script: files and exit status *)

Section ScriptRuns.
Context `{Runtime} `{FileSystem} `{Stdout}.

(** The closing [print] asks nothing of the encoding that the lines before
    it have not asked: the check mark and the characters of the file
    name. *)
Lemma saved_to_printable (html_file : pystr) :
  can_print html_file = true -> encodable check_mark = true ->
  printable (SavedTo (path_stem html_file ++ str "_abstract.txt")) = true.
Proof.
  intros Hf Hc. rewrite printable_spec, Hc, can_print_app.
  rewrite (can_print_part (path_stem html_file) html_file (path_stem_chars _) Hf).
  by rewrite (can_print_ascii (str "_abstract.txt")).
Qed.

Lemma save_abstract_printed (html_file abstract : pystr) (out found : list line) :
  printed (save_abstract html_file abstract out found)
  = out ++ printed (save_abstract html_file abstract [] found).
Proof.
  unfold save_abstract, crashed. cbv zeta.
  destruct (print_all found) as [d [|]]; [|reflexivity].
  destruct (write_text _ abstract); [|reflexivity].
  destruct (print_all [SavedTo _]) as [d' [|]]; cbn [printed app];
    by rewrite app_assoc.
Qed.

Lemma save_abstract_plain (html_file abstract : pystr) (found : list line) :
  forallb (fun l => negb (is_diagnostic l)) found = true ->
  plain (printed (save_abstract html_file abstract [] found))
  = printed (save_abstract html_file abstract [] found).
Proof.
  intros Hfound. pose proof (print_all_plain found Hfound) as Hp.
  pose proof (print_all_plain
                [SavedTo (path_stem html_file ++ str "_abstract.txt")] eq_refl) as Hs.
  unfold save_abstract, crashed. cbv zeta.
  destruct (print_all found) as [d [|]]; cbn [fst app printed] in *; [|exact Hp].
  destruct (write_text _ abstract); [|exact Hp].
  destruct (print_all [SavedTo _]) as [d' [|]]; cbn [fst printed] in *;
    unfold plain in *; by rewrite List.filter_app, Hp, Hs.
Qed.

Lemma save_abstract_saved (html_file abstract : pystr) (out found : list line) :
  saved (save_abstract html_file abstract out found)
  = if forallb printable found
    then if write_text (path_stem html_file ++ str "_abstract.txt") abstract
         then [(path_stem html_file ++ str "_abstract.txt", abstract)] else []
    else [].
Proof.
  rewrite <- print_all_ok. unfold save_abstract, crashed. cbv zeta.
  destruct (print_all found) as [d [|]]; [|reflexivity]. cbn [snd].
  destruct (write_text _ abstract); [|reflexivity].
  by destruct (print_all [SavedTo _]) as [d' [|]].
Qed.

Lemma save_abstract_ended (html_file abstract : pystr) (out found : list line) :
  can_print html_file = true ->
  (forallb printable found = true -> encodable check_mark = true) ->
  ended (save_abstract html_file abstract out found)
  = if forallb printable found
    then if write_text (path_stem html_file ++ str "_abstract.txt") abstract
         then Finished else Traceback WriteFailed
    else Traceback PrintFailed.
Proof.
  intros Hf Hc. rewrite <- print_all_ok in *. unfold save_abstract, crashed. cbv zeta.
  destruct (print_all found) as [d [|]]; [|reflexivity]. cbn [snd] in *.
  destruct (write_text _ abstract); [|reflexivity].
  rewrite (print_all_done [SavedTo _]); [reflexivity|].
  cbn [forallb]. by rewrite (saved_to_printable html_file Hf (Hc eq_refl)).
Qed.

(** How a run on a readable file ends, and what it saves, read off the
    result of [extract_all] with the default bounds. *)
Lemma process_file_ended (html_file : pystr) (v a m : bool) :
  ended (process_file html_file v a m) =
  match read_text html_file with
  | FileNotFoundError =>
      if can_print html_file then SysExit 1 else Traceback PrintFailed
  | ReadException message =>
      if can_print message then SysExit 1 else Traceback PrintFailed
  | FileContent html =>
      if can_print html_file then
        match (extract_all default_extractor html).2 with
        | Raise e => Traceback (ExtractorRaised e)
        | Ok [] => if encodable ballot_x then SysExit 1 else Traceback PrintFailed
        | Ok (t :: rest) =>
            if a then
              if encodable check_mark
                 && forallb (fun x => can_print (take 300 x)) (t :: rest)
              then Finished else Traceback PrintFailed
            else if encodable check_mark && can_print (if m then t else take 300 t)
            then if write_text (path_stem html_file ++ str "_abstract.txt") t
                 then Finished else Traceback WriteFailed
            else Traceback PrintFailed
        end
      else Traceback PrintFailed
  end.
Proof.
  unfold process_file.
  destruct (read_text html_file) as [html| |message].
  2:{ rewrite finish_ended. cbn [forallb]. by rewrite printable_spec, andb_true_r. }
  2:{ rewrite finish_ended. cbn [forallb]. by rewrite printable_spec, andb_true_r. }
  rewrite header_print. destruct (can_print html_file) eqn:Hf; [|reflexivity].
  destruct (convenience_results html v) as (He & Ha & Hm).
  rewrite extract_with_metadata_result in Hm.
  rewrite (extract_of_extract_all default_extractor html) in He, Hm.
  pose proof (extract_some_nonempty default_extractor html) as Hne.
  rewrite (extract_of_extract_all default_extractor html) in Hne.
  destruct a; [|destruct m].
  - destruct (abstract_extractor.extract_all_abstracts html v) as [d r].
    cbn [snd] in Ha. subst r. unfold report_all.
    destruct (extract_all default_extractor html).2 as [[|t rest]|e]; [| |reflexivity].
    + rewrite finish_ended. cbn [forallb]. by rewrite printable_spec, andb_true_r.
    + rewrite finish_ended.
      change (forallb printable (FoundAbstracts (len (t :: rest)) :: listing (t :: rest)))
        with (printable (FoundAbstracts (len (t :: rest)))
              && forallb printable (listing (t :: rest))).
      by rewrite printable_spec, listing_printable.
  - destruct (abstract_extractor.extract_with_metadata html v) as [d r].
    cbn [snd] in Hm. subst r. unfold report_metadata.
    destruct (extract_all default_extractor html).2 as [[|t rest]|e]; [| |reflexivity].
    + rewrite finish_ended. cbn [forallb]. by rewrite printable_spec, andb_true_r.
    + cbn [md_abstract md_length md_word_count md_sentence_count].
      assert (Hfound : forallb printable
                [AbstractFound; LengthLine (len t); WordsLine (len (str_split t));
                 SentencesLine (len (re_split no_flags sentence_end_pattern t));
                 FullText t]
              = encodable check_mark && can_print t).
      { cbn [forallb]. rewrite !printable_spec. cbn [andb]. by rewrite andb_true_r. }
      rewrite save_abstract_ended; [by rewrite Hfound|exact Hf|].
      rewrite Hfound. by intros [? _]%andb_true_iff.
  - destruct (abstract_extractor.extract_abstract html v) as [d r].
    cbn [snd] in He. subst r. unfold report_abstract.
    destruct (extract_all default_extractor html).2 as [[|t rest]|e]; [| |reflexivity].
    + rewrite finish_ended. cbn [forallb]. by rewrite printable_spec, andb_true_r.
    + destruct t as [|c t]; [by destruct (Hne [] eq_refl)|].
      assert (Hfound : forallb printable
                [AbstractFoundChars (len (c :: t)); Preview (preview (c :: t))]
              = encodable check_mark && can_print (take 300 (c :: t))).
      { cbn [forallb]. rewrite !printable_spec, can_print_preview.
        by rewrite andb_true_r. }
      rewrite save_abstract_ended; [by rewrite Hfound|exact Hf|].
      rewrite Hfound. by intros [? _]%andb_true_iff.
Qed.

Lemma process_file_saved (html_file : pystr) (v a m : bool) :
  saved (process_file html_file v a m) =
  match read_text html_file with
  | FileContent html =>
      if can_print html_file then
        match (extract_all default_extractor html).2 with
        | Ok (t :: rest) =>
            if a then []
            else if encodable check_mark && can_print (if m then t else take 300 t)
            then if write_text (path_stem html_file ++ str "_abstract.txt") t
                 then [(path_stem html_file ++ str "_abstract.txt", t)] else []
            else []
        | _ => []
        end
      else []
  | _ => []
  end.
Proof.
  unfold process_file.
  destruct (read_text html_file) as [html| |message];
    [|by rewrite finish_saved..].
  rewrite header_print. destruct (can_print html_file) eqn:Hf; [|reflexivity].
  destruct (convenience_results html v) as (He & Ha & Hm).
  rewrite extract_with_metadata_result in Hm.
  rewrite (extract_of_extract_all default_extractor html) in He, Hm.
  pose proof (extract_some_nonempty default_extractor html) as Hne.
  rewrite (extract_of_extract_all default_extractor html) in Hne.
  destruct a; [|destruct m].
  - destruct (abstract_extractor.extract_all_abstracts html v) as [d r].
    cbn [snd] in Ha. subst r. unfold report_all.
    destruct (extract_all default_extractor html).2 as [[|t rest]|e];
      [by rewrite finish_saved..|reflexivity].
  - destruct (abstract_extractor.extract_with_metadata html v) as [d r].
    cbn [snd] in Hm. subst r. unfold report_metadata.
    destruct (extract_all default_extractor html).2 as [[|t rest]|e];
      [by rewrite finish_saved| |reflexivity].
    cbn [md_abstract md_length md_word_count md_sentence_count].
    rewrite save_abstract_saved. cbn [forallb]. rewrite !printable_spec.
    cbn [andb]. by rewrite andb_true_r.
  - destruct (abstract_extractor.extract_abstract html v) as [d r].
    cbn [snd] in He. subst r. unfold report_abstract.
    destruct (extract_all default_extractor html).2 as [[|t rest]|e];
      [by rewrite finish_saved| |reflexivity].
    destruct t as [|c t]; [by destruct (Hne [] eq_refl)|].
    rewrite save_abstract_saved. cbn [forallb].
    rewrite !printable_spec, can_print_preview. by rewrite andb_true_r.
Qed.

Lemma main_process (script html_file : pystr) (args : list pystr) :
  let argv := script :: html_file :: args in
  main argv =
  process_file html_file
    (bool_decide (str "-v" ∈ argv) || bool_decide (str "--verbose" ∈ argv))
    (bool_decide (str "-a" ∈ argv) || bool_decide (str "--all" ∈ argv))
    (bool_decide (str "-m" ∈ argv) || bool_decide (str "--metadata" ∈ argv)).
Proof. reflexivity. Qed.

Lemma usage_ended (argv : list pystr) :
  argv !! 1%nat = None -> ended (main argv) = SysExit 1 /\ saved (main argv) = [].
Proof.
  destruct argv as [|script [|html_file args]]; [| |discriminate]; intros _;
    unfold main; rewrite finish_ended, finish_saved; cbn [forallb];
    by rewrite printable_spec.
Qed.

(** X16. The script writes at most one file, and only without [-a] and
    [--all]: the file named after the stem of its first argument, holding
    the text that [extract] returns, with the default bounds, on the
    content of the file that the first argument names. *)
Theorem main_saves_the_abstract (argv : list pystr) (output_file text : pystr) :
  (output_file, text) ∈ saved (main argv) ->
  saved (main argv) = [(output_file, text)]
  /\ ended (main argv) = Finished
  /\ (str "-a" ∉ argv) /\ (str "--all" ∉ argv)
  /\ exists html_file html_content,
       argv !! 1%nat = Some html_file
       /\ read_text html_file = FileContent html_content
       /\ output_file = path_stem html_file ++ str "_abstract.txt"
       /\ (extract default_extractor html_content).2 = Ok (Some text).
Proof.
  destruct argv as [|script [|html_file args]].
  1: rewrite (proj2 (usage_ended [] eq_refl)); by intros ?%elem_of_nil.
  1: rewrite (proj2 (usage_ended [script] eq_refl)); by intros ?%elem_of_nil.
  rewrite main_process. cbv zeta. set (argv := script :: html_file :: args).
  rewrite process_file_saved, process_file_ended.
  destruct (read_text html_file) as [html| |message] eqn:Hread;
    [|by intros ?%elem_of_nil..].
  destruct (can_print html_file); [|by intros ?%elem_of_nil].
  pose proof (extract_of_extract_all default_extractor html) as Hbest.
  destruct (extract_all default_extractor html).2 as [[|t rest]|e];
    [by intros ?%elem_of_nil| |by intros ?%elem_of_nil].
  destruct (bool_decide (str "-a" ∈ argv) || bool_decide (str "--all" ∈ argv)) eqn:Hall;
    [by intros ?%elem_of_nil|].
  apply Bool.orb_false_elim in Hall as [Ha Hall].
  apply bool_decide_eq_false in Ha, Hall.
  destruct (encodable check_mark && can_print _); [|by intros ?%elem_of_nil].
  destruct (write_text _ t); [|by intros ?%elem_of_nil].
  intros Hin. apply list_elem_of_singleton in Hin. injection Hin as -> ->.
  split; [reflexivity|]. split; [reflexivity|].
  split; [exact Ha|]. split; [exact Hall|]. by exists html_file, html.
Qed.

(** X17. The exit status of the script is 0 or 1. It is 0 exactly when the
    file that the first argument names can be read, [extract] returns a
    text on its content, standard output can encode what the script
    prints on the way (the name of the file, the check mark, and of the
    abstracts the first 300 characters of each in the list with [-a] or
    [--all], the whole text with [-m] or [--metadata], the first 300
    characters otherwise) and, unless [-a] or [--all] is given, the text
    can be written to the output file. *)
Theorem main_exit_status (argv : list pystr) :
  (exit_status (ended (main argv)) = 0%Z \/ exit_status (ended (main argv)) = 1%Z)
  /\ (exit_status (ended (main argv)) = 0%Z <->
      exists html_file html_content t rest,
        argv !! 1%nat = Some html_file
        /\ read_text html_file = FileContent html_content
        /\ (extract default_extractor html_content).2 = Ok (Some t)
        /\ (extract_all default_extractor html_content).2 = Ok (t :: rest)
        /\ can_print html_file = true
        /\ encodable check_mark = true
        /\ if bool_decide (str "-a" ∈ argv) || bool_decide (str "--all" ∈ argv)
           then forallb (fun a => can_print (take 300 a)) (t :: rest) = true
           else can_print
                  (if bool_decide (str "-m" ∈ argv)
                      || bool_decide (str "--metadata" ∈ argv)
                   then t else take 300 t) = true
                /\ write_text (path_stem html_file ++ str "_abstract.txt") t = true).
Proof.
  destruct argv as [|script [|html_file args]].
  1: rewrite (proj1 (usage_ended [] eq_refl)); (split; [by right|]);
    (split; [discriminate|]); by intros (f & ? & ? & ? & [=] & _).
  1: rewrite (proj1 (usage_ended [script] eq_refl)); (split; [by right|]);
    (split; [discriminate|]); by intros (f & ? & ? & ? & [=] & _).
  rewrite main_process. cbv zeta. set (argv := script :: html_file :: args).
  rewrite process_file_ended.
  assert (Hno : forall P : Prop,
            (P -> exists html_file' html_content,
                    Some html_file = Some html_file'
                    /\ read_text html_file' = FileContent html_content
                    /\ False) -> ~ P) by (intros P HP p; by destruct (HP p) as (? & ? & _ & _ & [])).
  destruct (read_text html_file) as [html| |message] eqn:Hread.
  2,3: (split; [by destruct (can_print _); right|]);
    (split; [by destruct (can_print _)|]);
    intros (f & h & t & rest & [= <-] & Hr & _); congruence.
  destruct (can_print html_file) eqn:Hf.
  2:{ split; [by right|]. split; [discriminate|].
      intros (f & h & t & rest & [= <-] & _ & _ & _ & Hf' & _). congruence. }
  pose proof (extract_of_extract_all default_extractor html) as Hbest.
  destruct (extract_all default_extractor html).2 as [[|t rest]|e] eqn:Hall.
  - split; [by destruct (encodable ballot_x); right|].
    split; [by destruct (encodable ballot_x)|].
    intros (f & h & t & rest & [= <-] & Hr & _ & Hl & _).
    rewrite Hread in Hr. injection Hr as <-. congruence.
  - destruct (encodable check_mark) eqn:Hc.
    2:{ cbn [andb]. split; [by destruct (_ || _); right|].
        split; [by destruct (_ || _)|].
        intros (f & h & t' & rest' & _ & _ & _ & _ & _ & Hc' & _). congruence. }
    cbn [andb].
    destruct (bool_decide (str "-a" ∈ argv) || bool_decide (str "--all" ∈ argv)).
    + destruct (forallb _ (t :: rest)) eqn:Hp.
      * split; [by left|]. split; [|done]. intros _.
        exists html_file, html, t, rest. by repeat split.
      * split; [by right|]. split; [discriminate|].
        intros (f & h & t' & rest' & [= <-] & Hr & _ & Hl & _ & _ & Hp').
        rewrite Hread in Hr. injection Hr as <-. rewrite Hall in Hl.
        injection Hl as <- <-. congruence.
    + set (shown := if _ || _ then t else take 300 t).
      destruct (can_print shown) eqn:Hp.
      * destruct (write_text _ t) eqn:Hw.
        -- split; [by left|]. split; [|done]. intros _.
           exists html_file, html, t, rest. by repeat split.
        -- split; [by right|]. split; [discriminate|].
           intros (f & h & t' & rest' & [= <-] & Hr & _ & Hl & _ & _ & _ & Hw').
           rewrite Hread in Hr. injection Hr as <-. rewrite Hall in Hl.
           injection Hl as <- <-. congruence.
      * split; [by right|]. split; [discriminate|].
        intros (f & h & t' & rest' & [= <-] & Hr & _ & Hl & _ & _ & Hp' & _).
        rewrite Hread in Hr. injection Hr as <-. rewrite Hall in Hl.
        injection Hl as <- <-. unfold shown in Hp. congruence.
  - split; [by right|]. split; [discriminate|].
    intros (f & h & t & rest & [= <-] & Hr & _ & Hl & _).
    rewrite Hread in Hr. injection Hr as <-. congruence.
Qed.

(** ** The script: the option [-v] *)

Lemma plain_app (l1 l2 : list line) : plain (l1 ++ l2) = plain l1 ++ plain l2.
Proof. apply List.filter_app. Qed.

Lemma plain_diagnostics (d : list info) : plain (map Diagnostic d) = [].
Proof. induction d as [|m d IH]; [reflexivity|exact IH]. Qed.

Lemma finish_plain (ls : list line) (e : ending) :
  forallb (fun l => negb (is_diagnostic l)) ls = true ->
  plain (printed (finish [] ls e)) = printed (finish [] ls e).
Proof. intros Hls. rewrite !finish_printed. by apply print_all_plain. Qed.

Lemma finish_after (out ls : list line) (e : ending) :
  printed (finish out ls e) = out ++ printed (finish [] ls e).
Proof. by rewrite !finish_printed. Qed.

Lemma report_all_printed (r : result (list pystr)) (out : list line) :
  printed (report_all r out) = out ++ printed (report_all r [])
  /\ plain (printed (report_all r [])) = printed (report_all r []).
Proof.
  unfold report_all. destruct r as [[|t rest]|e].
  - split; [apply finish_after|by apply finish_plain].
  - split; [apply finish_after|]. apply finish_plain.
    cbn [forallb negb is_diagnostic andb]. apply listing_plain.
  - cbn [printed]. by rewrite app_nil_r.
Qed.

Lemma report_metadata_printed (html_file : pystr) (r : result (option metadata))
    (out : list line) :
  printed (report_metadata html_file r out)
  = out ++ printed (report_metadata html_file r [])
  /\ plain (printed (report_metadata html_file r []))
     = printed (report_metadata html_file r []).
Proof.
  unfold report_metadata. destruct r as [[md|]|e].
  - split; [apply save_abstract_printed|by apply save_abstract_plain].
  - split; [apply finish_after|by apply finish_plain].
  - cbn [printed]. by rewrite app_nil_r.
Qed.

Lemma report_abstract_printed (html_file : pystr) (r : result (option pystr))
    (out : list line) :
  printed (report_abstract html_file r out)
  = out ++ printed (report_abstract html_file r [])
  /\ plain (printed (report_abstract html_file r []))
     = printed (report_abstract html_file r []).
Proof.
  unfold report_abstract. destruct r as [[[|c t]|]|e].
  - split; [apply finish_after|by apply finish_plain].
  - split; [apply save_abstract_printed|by apply save_abstract_plain].
  - split; [apply finish_after|by apply finish_plain].
  - cbn [printed]. by rewrite app_nil_r.
Qed.

Lemma plain_report (out tail : list line) (d : list info) :
  plain out = out -> plain tail = tail ->
  plain ((out ++ map Diagnostic d) ++ tail) = (out ++ map Diagnostic []) ++ tail.
Proof.
  intros Hout Htail. rewrite !plain_app, plain_diagnostics, Hout, Htail.
  cbn [map]. reflexivity.
Qed.

Lemma process_file_verbose (html_file : pystr) (v a m : bool) :
  saved (process_file html_file v a m) = saved (process_file html_file false a m)
  /\ ended (process_file html_file v a m) = ended (process_file html_file false a m)
  /\ plain (printed (process_file html_file v a m))
     = printed (process_file html_file false a m).
Proof.
  split; [by rewrite !process_file_saved|]. split; [by rewrite !process_file_ended|].
  unfold process_file.
  destruct (read_text html_file) as [html| |message].
  2,3: rewrite finish_printed; by apply print_all_plain.
  pose proof (print_all_plain [RuleAbove; Processing html_file; RuleBelow] eq_refl)
    as Hh.
  destruct (print_all [RuleAbove; Processing html_file; RuleBelow]) as [out [|]];
    cbn [fst] in Hh; [|exact Hh].
  destruct (convenience_results html v) as (He & Ha & Hm).
  pose proof (extract_printed default_extractor html) as Hq.
  pose proof (extract_with_metadata_printed default_extractor html) as Hqm.
  pose proof (extract_all_printed default_extractor html) as Hqa.
  cbn [verbose default_extractor] in Hq. rewrite Hq in Hqm.
  change (abstract_extractor.extract_all_abstracts html false)
    with (extract_all default_extractor html) in *.
  change (abstract_extractor.extract_with_metadata html false)
    with (extract_with_metadata default_extractor html) in *.
  change (abstract_extractor.extract_abstract html false)
    with (extract default_extractor html) in *.
  destruct a; [|destruct m].
  - destruct (abstract_extractor.extract_all_abstracts html v) as [d r].
    destruct (extract_all default_extractor html) as [d' r'].
    cbn [fst snd] in *. subst d' r.
    destruct (report_all_printed r' (out ++ map Diagnostic d)) as [-> Hp].
    destruct (report_all_printed r' (out ++ map Diagnostic [])) as [-> _].
    by apply plain_report.
  - destruct (abstract_extractor.extract_with_metadata html v) as [d r].
    destruct (extract_with_metadata default_extractor html) as [d' r'].
    cbn [fst snd] in *. subst d' r.
    destruct (report_metadata_printed html_file r' (out ++ map Diagnostic d))
      as [-> Hp].
    destruct (report_metadata_printed html_file r' (out ++ map Diagnostic []))
      as [-> _].
    by apply plain_report.
  - destruct (abstract_extractor.extract_abstract html v) as [d r].
    destruct (extract default_extractor html) as [d' r'].
    cbn [fst snd] in *. subst d' r.
    destruct (report_abstract_printed html_file r' (out ++ map Diagnostic d))
      as [-> Hp].
    destruct (report_abstract_printed html_file r' (out ++ map Diagnostic []))
      as [-> _].
    by apply plain_report.
Qed.

Lemma flag_app (flag other : pystr) (argv : list pystr) :
  flag <> other ->
  bool_decide (flag ∈ argv ++ [other]) = bool_decide (flag ∈ argv).
Proof.
  intros Hne. apply bool_decide_ext. rewrite elem_of_app, list_elem_of_singleton.
  split; [by intros [?|?]|by left].
Qed.

(** X18. The option [-v] only adds diagnostic lines: a run with [-v] appended
    to the arguments writes the same file, ends in the same way and, the
    diagnostic lines apart, prints the same lines as the run without it. *)
Theorem verbose_only_adds_diagnostics (argv : list pystr) :
  (2 <= len argv)%Z -> str "-v" ∉ argv -> str "--verbose" ∉ argv ->
  saved (main (argv ++ [str "-v"])) = saved (main argv)
  /\ ended (main (argv ++ [str "-v"])) = ended (main argv)
  /\ plain (printed (main (argv ++ [str "-v"]))) = printed (main argv).
Proof.
  destruct argv as [|script [|html_file args]]; [unfold len; cbn; lia..|].
  intros _ Hv Hverbose.
  change ((script :: html_file :: args) ++ [str "-v"])
    with (script :: html_file :: (args ++ [str "-v"])).
  rewrite !main_process. cbv zeta.
  change (script :: html_file :: (args ++ [str "-v"]))
    with ((script :: html_file :: args) ++ [str "-v"]).
  set (argv := script :: html_file :: args) in *.
  rewrite (flag_app (str "--verbose") (str "-v") argv) by (vm_compute; discriminate).
  rewrite (flag_app (str "-a") (str "-v") argv) by (vm_compute; discriminate).
  rewrite (flag_app (str "--all") (str "-v") argv) by (vm_compute; discriminate).
  rewrite (flag_app (str "-m") (str "-v") argv) by (vm_compute; discriminate).
  rewrite (flag_app (str "--metadata") (str "-v") argv) by (vm_compute; discriminate).
  rewrite (bool_decide_eq_false_2 _ Hv), (bool_decide_eq_false_2 _ Hverbose).
  apply process_file_verbose.
Qed.

End ScriptRuns.

Lemma main_saves_the_abstract_witness :
  (str "paper_abstract.txt", prose 16)
    ∈ saved (@main ascii_runtime example_files utf8_stdout
               [str "abstract_extractor.py"; str "paper.html"])
  /\ saved (@main ascii_runtime example_files utf8_stdout
              [str "abstract_extractor.py"; str "paper.html"])
     = [(str "paper_abstract.txt", prose 16)]
  /\ ended (@main ascii_runtime example_files utf8_stdout
              [str "abstract_extractor.py"; str "paper.html"]) = Finished.
Proof.
  assert (Hin : (str "paper_abstract.txt", prose 16)
                ∈ saved (@main ascii_runtime example_files utf8_stdout
                           [str "abstract_extractor.py"; str "paper.html"])).
  { replace (saved (@main ascii_runtime example_files utf8_stdout
                      [str "abstract_extractor.py"; str "paper.html"]))
      with [(str "paper_abstract.txt", prose 16)] by (vm_compute; reflexivity).
    constructor. }
  split; [exact Hin|].
  destruct (@main_saves_the_abstract ascii_runtime example_files utf8_stdout _ _ _ Hin)
    as (Hs & He & _).
  split; [exact Hs|exact He].
Defined.

(** On a terminal whose encoding is ASCII the script stops at the check
    mark: the page is read and its abstract extracted, and the run ends
    with a traceback and the status 1, without a file. *)
Example ascii_terminal_exits_1 :
  (@extract ascii_runtime default_extractor three_abstracts_html).2
    = Ok (Some (prose 16))
  /\ @main ascii_runtime example_files ascii_stdout
       [str "abstract_extractor.py"; str "paper.html"]
     = {| printed := [RuleAbove; Processing (str "paper.html"); RuleBelow];
          saved := []; ended := Traceback PrintFailed |}
  /\ exit_status (ended (@main ascii_runtime example_files ascii_stdout
                           [str "abstract_extractor.py"; str "paper.html"])) = 1%Z.
Proof. repeat split; vm_compute; reflexivity. Qed.

Lemma verbose_only_adds_diagnostics_witness :
  saved (@main ascii_runtime example_files utf8_stdout
           ([str "abstract_extractor.py"; str "paper.html"] ++ [str "-v"]))
    = saved (@main ascii_runtime example_files utf8_stdout
               [str "abstract_extractor.py"; str "paper.html"])
  /\ ended (@main ascii_runtime example_files utf8_stdout
              ([str "abstract_extractor.py"; str "paper.html"] ++ [str "-v"]))
     = ended (@main ascii_runtime example_files utf8_stdout
                [str "abstract_extractor.py"; str "paper.html"])
  /\ plain (printed (@main ascii_runtime example_files utf8_stdout
                       ([str "abstract_extractor.py"; str "paper.html"]
                        ++ [str "-v"])))
     = printed (@main ascii_runtime example_files utf8_stdout
                  [str "abstract_extractor.py"; str "paper.html"]).
Proof.
  apply (@verbose_only_adds_diagnostics ascii_runtime example_files utf8_stdout
           [str "abstract_extractor.py"; str "paper.html"]).
  - vm_compute. discriminate.
  - apply (bool_decide_unpack _). vm_compute. exact I.
  - apply (bool_decide_unpack _). vm_compute. exact I.
Defined.

(** ** The scraper: every row is accounted for *)

Section ScraperFacts.
Context `{Runtime} `{Outside}.

Lemma filter_no_abstract_says (d : list info) :
  List.filter is_no_abstract (map ExtractorSays d) = [].
Proof. induction d as [|m d IH]; [reflexivity|exact IH]. Qed.

Lemma scrape_row_turn (st : scraper) (row : pystr * option pystr) :
  exists P C F,
    pages (scrape_row st row) = pages st ++ P
    /\ console (scrape_row st row) = console st ++ C
    /\ failed_links (scrape_row st row) = failed_links st ++ F
    /\ turn row P C F.
Proof.
  destruct row as [work_id [doi|]]; unfold scrape_row, scrape_try; cbv zeta.
  - destruct (load_page (env (tell st [Scraping work_id])) (doi_link doi))
      as [w [html|]].
    + pose proof (extract_some_passes
                    {| min_length := 50; max_length := 5000; verbose := false |} html)
        as Hq.
      unfold abstract_extractor.extract_abstract. cbv zeta.
      destruct (extract _ html) as [d [[t|]|e]]; cbn [snd] in Hq.
      * destruct (save_text _ _ t) as [w' [|]].
        -- exists [(page_path work_id, t)],
             ([Scraping work_id] ++ map ExtractorSays d ++ [Saved (page_path work_id)]),
             [].
           cbn [pages console failed_links tell moved].
           split; [reflexivity|]. split; [by rewrite <- !app_assoc|].
           split; [by rewrite app_nil_r|]. split.
           ++ cbn [List.filter is_no_abstract app length].
              rewrite List.filter_app, filter_no_abstract_says. reflexivity.
           ++ by left.
           ++ discriminate.
           ++ intros path text Hin. apply list_elem_of_singleton in Hin.
              injection Hin as -> ->. split; [reflexivity|].
              split; [by exists doi|]. by apply Hq.
        -- exists [], ([Scraping work_id] ++ map ExtractorSays d
                         ++ [ErrorScraping work_id]), [(work_id, Some doi)].
           cbn [pages console failed_links tell moved].
           split; [by rewrite app_nil_r|]. split; [by rewrite <- !app_assoc|].
           split; [reflexivity|]. split.
           ++ cbn [List.filter is_no_abstract app length].
              rewrite List.filter_app, filter_no_abstract_says. reflexivity.
           ++ by right.
           ++ done.
           ++ by intros ? ? ?%elem_of_nil.
      * exists [], ([Scraping work_id] ++ map ExtractorSays d
                     ++ [NoAbstractFoundFor work_id]), [].
        cbn [pages console failed_links tell moved].
        split; [by rewrite app_nil_r|]. split; [by rewrite <- !app_assoc|].
        split; [by rewrite app_nil_r|]. split.
        -- cbn [List.filter is_no_abstract app length].
           rewrite List.filter_app, filter_no_abstract_says. reflexivity.
        -- by left.
        -- discriminate.
        -- by intros ? ? ?%elem_of_nil.
      * exists [], ([Scraping work_id] ++ map ExtractorSays d
                     ++ [ErrorScraping work_id]), [(work_id, Some doi)].
        cbn [pages console failed_links tell moved].
        split; [by rewrite app_nil_r|]. split; [by rewrite <- !app_assoc|].
        split; [reflexivity|]. split.
        -- cbn [List.filter is_no_abstract app length].
           rewrite List.filter_app, filter_no_abstract_says. reflexivity.
        -- by right.
        -- done.
        -- by intros ? ? ?%elem_of_nil.
    + exists [], [Scraping work_id; ErrorScraping work_id], [(work_id, Some doi)].
      cbn [pages console failed_links tell moved].
      split; [by rewrite app_nil_r|]. split; [by rewrite <- !app_assoc|].
      split; [reflexivity|]. split; [reflexivity|by right|done|].
      by intros ? ? ?%elem_of_nil.
  - exists [], [ErrorScraping work_id], [(work_id, None)].
    cbn [pages console failed_links].
    split; [by rewrite app_nil_r|]. split; [reflexivity|].
    split; [reflexivity|]. split; [reflexivity|by right|done|].
    by intros ? ? ?%elem_of_nil.
Qed.

Lemma scrape_turns (results : list (pystr * option pystr)) : forall st,
  exists P C F,
    pages (scrape results st) = pages st ++ P
    /\ console (scrape results st) = console st ++ C
    /\ failed_links (scrape results st) = failed_links st ++ F
    /\ (length P + length (List.filter is_no_abstract C) + length F
        = length results)%nat
    /\ F `sublist_of` results
    /\ (forall work_id, (work_id, None) ∈ results -> (work_id, None) ∈ F)
    /\ (forall path text, (path, text) ∈ P ->
          exists work_id doi,
            (work_id, Some doi) ∈ results
            /\ path = page_path work_id
            /\ passes_quality default_extractor text).
Proof.
  induction results as [|row results IH]; intros st.
  - exists [], [], []. rewrite !app_nil_r.
    split; [reflexivity|]. split; [reflexivity|]. split; [reflexivity|].
    split; [reflexivity|]. split; [reflexivity|]. split.
    + by intros ? ?%elem_of_nil.
    + by intros ? ? ?%elem_of_nil.
  - destruct (scrape_row_turn st row) as (P1 & C1 & F1 & HP1 & HC1 & HF1 & Ht).
    destruct (IH (scrape_row st row)) as (P & C & F & HP & HC & HF & Hn & Hs & Hnull & Hp).
    destruct Ht as [Hone Hfail Hnone Hpage].
    exists (P1 ++ P), (C1 ++ C), (F1 ++ F).
    change (scrape (row :: results) st) with (scrape results (scrape_row st row)).
    rewrite HP, HC, HF, HP1, HC1, HF1, <- !app_assoc.
    split; [reflexivity|]. split; [reflexivity|]. split; [reflexivity|].
    split; [|split; [|split]].
    + rewrite List.filter_app, !length_app. cbn [length]. lia.
    + destruct Hfail as [->| ->]; [by apply sublist_cons|by apply sublist_skip].
    + intros work_id Hin. apply elem_of_app.
      apply elem_of_cons in Hin as [Hrow|Hin]; [|right; by apply Hnull].
      left. subst row. rewrite (Hnone eq_refl). constructor.
    + intros path text Hin. apply elem_of_app in Hin as [Hin|Hin].
      * destruct (Hpage _ _ Hin) as (-> & [doi Hdoi] & Hq).
        destruct row as [work_id d]. cbn in Hdoi. subst d.
        exists work_id, doi. split; [constructor|done].
      * destruct (Hp _ _ Hin) as (work_id & doi & Hin' & -> & Hq).
        exists work_id, doi. split; [by constructor|done].
Qed.


(** X20. A file that the loop saves is [pages/abstract_<work_id>.txt] for a row
    of the query with a DOI, and holds a text that passed the quality
    filter with the default bounds: between 50 and 5000 characters. *)
Theorem scraped_pages_hold_abstracts (results : list (pystr * option pystr))
    (w : outside) (path text : pystr) :
  (path, text) ∈ pages (scrape results (start w)) ->
  (exists work_id doi,
     (work_id, Some doi) ∈ results
     /\ path = str "pages" ++ os_sep ++ str "abstract_" ++ work_id ++ str ".txt")
  /\ passes_quality default_extractor text
  /\ (50 <= len text <= 5000)%Z.
Proof.
  destruct (scrape_turns results (start w)) as (P & C & F & -> & _ & _ & _ & _ & _ & Hp).
  cbn [start pages app]. intros Hin.
  destruct (Hp _ _ Hin) as (work_id & doi & Hrow & -> & Hq).
  split; [by exists work_id, doi|]. split; [exact Hq|]. by destruct Hq.
Qed.

End ScraperFacts.

Lemma scraped_pages_hold_abstracts_witness :
  (str "pages/abstract_W1.txt", prose 16)
    ∈ pages (@scrape ascii_runtime example_outside
               [(str "W1", Some (str "10.1000/xyz")); (str "W2", None)]
               (@start example_outside tt))
  /\ (50 <= len (prose 16) <= 5000)%Z.
Proof.
  assert (Hin : (str "pages/abstract_W1.txt", prose 16)
                ∈ pages (@scrape ascii_runtime example_outside
                           [(str "W1", Some (str "10.1000/xyz")); (str "W2", None)]
                           (@start example_outside tt))).
  { replace (pages (@scrape ascii_runtime example_outside
                      [(str "W1", Some (str "10.1000/xyz")); (str "W2", None)]
                      (@start example_outside tt)))
      with [(str "pages/abstract_W1.txt", prose 16)] by (vm_compute; reflexivity).
    constructor. }
  split; [exact Hin|].
  exact (proj2 (proj2 (@scraped_pages_hold_abstracts ascii_runtime example_outside
                         _ tt _ _ Hin))).
Defined.
